(** * intervalpy: a shallow embedding of [Interval] and [bisect_objects]

    The development follows the two Python modules of the package:
    [util.py] (the sorted search [bisect_objects]) and [interval.py] (the
    class [Interval] with its module-level constants [empty] and
    [infinite]).

    Python values that reach the code are modelled as follows.
    - A number is an extended rational: a finite value, one of the two
      infinities, or the not-a-number value that float arithmetic produces
      ([inf - inf]).  Arithmetic on finite values is exact.
    - An attribute or argument that may be [None] is a [value].
    - A raised exception is the [Raise] branch of the result type [res];
      [x <- c ;; k] sequences two computations that may raise. *)

From Stdlib Require Import List Bool ZArith QArith Qround Lia Lqa String.
Import ListNotations.

(** ** Numbers *)

Inductive num : Type :=
| NaN
| NegInf
| Fin (q : Q)
| PosInf.

Module Num.

(** [x == y] on Python numbers: equality of values, false on [nan]. *)
Definition eqb (x y : num) : bool :=
  match x, y with
  | NegInf, NegInf => true
  | PosInf, PosInf => true
  | Fin p, Fin q => Qeq_bool p q
  | _, _ => false
  end.

(** [x < y]. *)
Definition ltb (x y : num) : bool :=
  match x, y with
  | NaN, _ | _, NaN => false
  | NegInf, NegInf => false
  | NegInf, _ => true
  | Fin _, NegInf => false
  | Fin p, Fin q => negb (Qle_bool q p)
  | Fin _, PosInf => true
  | PosInf, _ => false
  end.

(** [x <= y]. *)
Definition leb (x y : num) : bool :=
  match x, y with
  | NaN, _ | _, NaN => false
  | NegInf, _ => true
  | Fin _, NegInf => false
  | Fin p, Fin q => Qle_bool p q
  | Fin _, PosInf => true
  | PosInf, PosInf => true
  | PosInf, _ => false
  end.

(** [x > y] and [x >= y]. *)
Definition gtb (x y : num) : bool := ltb y x.
Definition geb (x y : num) : bool := leb y x.

(** [math.isinf]. *)
Definition isinf (x : num) : bool :=
  match x with
  | NegInf | PosInf => true
  | _ => false
  end.

Definition isnan (x : num) : bool :=
  match x with
  | NaN => true
  | _ => false
  end.

(** [x + y] with the IEEE rules for the infinities. *)
Definition add (x y : num) : num :=
  match x, y with
  | NaN, _ | _, NaN => NaN
  | NegInf, PosInf | PosInf, NegInf => NaN
  | NegInf, _ | _, NegInf => NegInf
  | PosInf, _ | _, PosInf => PosInf
  | Fin p, Fin q => Fin (p + q)
  end.

Definition opp (x : num) : num :=
  match x with
  | NaN => NaN
  | NegInf => PosInf
  | Fin p => Fin (- p)
  | PosInf => NegInf
  end.

(** [x - y]. *)
Definition sub (x y : num) : num := add x (opp y).

(** [bool(x)]: every number but zero is true. *)
Definition truthy (x : num) : bool :=
  match x with
  | Fin p => negb (Qeq_bool p 0)
  | _ => true
  end.

End Num.

Coercion Fin : Q >-> num.

(** ** Values and exceptions *)

Inductive value : Type :=
| VNone
| VNum (x : num).

Inductive exn : Type :=
| TypeError
| AssertionError
| ValueError
| IndexError
| ParseError      (* [Exception('Unable to parse interval: ...')] *)
| OutOfFuel.      (* a loop of the model ran out of its iteration budget *)

Inductive res (A : Type) : Type :=
| Ok (a : A)
| Raise (e : exn).

Arguments Ok {A} a.
Arguments Raise {A} e.

Definition bind {A B : Type} (c : res A) (k : A -> res B) : res B :=
  match c with
  | Ok a => k a
  | Raise e => Raise e
  end.

Notation "x <- c ;; k" := (bind c (fun x => k))
  (at level 61, c at next level, right associativity).
Notation "' pat <- c ;; k" := (bind c (fun x => match x with pat => k end))
  (at level 61, pat pattern, c at next level, right associativity).

(** [assert b]. *)
Definition assert (b : bool) : res unit :=
  if b then Ok tt else Raise AssertionError.

(** ** Operators on values

    [==] and [!=] never raise; the order comparisons, [math.isinf] and the
    arithmetic raise [TypeError] on [None]. *)

Module Py.

Definition is_None (a : value) : bool :=
  match a with
  | VNone => true
  | VNum _ => false
  end.

(** [isinstance(a, Number)]. *)
Definition is_Number (a : value) : bool := negb (is_None a).

Definition eq (a b : value) : bool :=
  match a, b with
  | VNone, VNone => true
  | VNum x, VNum y => Num.eqb x y
  | _, _ => false
  end.

Definition ne (a b : value) : bool := negb (eq a b).

Definition cmp (op : num -> num -> bool) (a b : value) : res bool :=
  match a, b with
  | VNum x, VNum y => Ok (op x y)
  | _, _ => Raise TypeError
  end.

Definition lt := cmp Num.ltb.
Definition le := cmp Num.leb.
Definition gt := cmp Num.gtb.
Definition ge := cmp Num.geb.

Definition isinf (a : value) : res bool :=
  match a with
  | VNum x => Ok (Num.isinf x)
  | VNone => Raise TypeError
  end.

Definition arith (op : num -> num -> num) (a b : value) : res value :=
  match a, b with
  | VNum x, VNum y => Ok (VNum (op x y))
  | _, _ => Raise TypeError
  end.

Definition add := arith Num.add.
Definition sub := arith Num.sub.

(** [bool(a)]. *)
Definition truthy (a : value) : bool :=
  match a with
  | VNone => false
  | VNum x => Num.truthy x
  end.

(** [a or b]: [a] when it is true, else [b]. *)
Definition or (a b : value) : value := if truthy a then a else b.

(** [values[i]] with Python's negative indices. *)
Definition getitem {A : Type} (l : list A) (i : Z) : res A :=
  let n := Z.of_nat (List.length l) in
  let j := (if i <? 0 then i + n else i)%Z in
  if (j <? 0)%Z then Raise IndexError
  else match nth_error l (Z.to_nat j) with
       | Some a => Ok a
       | None => Raise IndexError
       end.

(** [min(l, key=key)] and [max(l, key=key)]: the first extremal item. *)
Fixpoint extremum {A : Type} (better : value -> value -> res bool)
         (key : A -> value) (best : A) (l : list A) : res A :=
  match l with
  | [] => Ok best
  | item :: l' =>
      b <- better (key item) (key best) ;;
      extremum better key (if b then item else best) l'
  end.

Definition min {A : Type} (l : list A) (key : A -> value) : res A :=
  match l with
  | [] => Raise ValueError
  | best :: l' => extremum lt key best l'
  end.

Definition max {A : Type} (l : list A) (key : A -> value) : res A :=
  match l with
  | [] => Raise ValueError
  | best :: l' => extremum gt key best l'
  end.


(** [l[i0:i1]]: an index below zero counts from the end, and both indices
    are clipped to the list. *)
Definition clip (n i : Z) : Z :=
  let j := (if i <? 0 then i + n else i)%Z in
  if (j <? 0)%Z then 0%Z else if (n <? j)%Z then n else j.

Definition slice {A : Type} (l : list A) (i0 i1 : Z) : list A :=
  let n := Z.of_nat (List.length l) in
  let lo := clip n i0 in
  let hi := clip n i1 in
  firstn (Z.to_nat (hi - lo)) (skipn (Z.to_nat lo) l).

End Py.

(** ** util.py *)

Module util.

(** The [while lo < hi] loop of [bisect_objects]; [fuel] bounds the number
    of iterations. *)
Fixpoint bisect_loop (fuel : nat) (a : list value)
         (key : option (value -> value)) (x : value) (lo hi : Z) : res Z :=
  if (lo <? hi)%Z then
    match fuel with
    | O => Raise OutOfFuel
    | S fuel' =>
        let mid := ((lo + hi) / 2)%Z in
        x_mid <- Py.getitem a mid ;;
        let x_mid := match key with
                     | Some k => k x_mid
                     | None => x_mid
                     end in
        b <- Py.lt x_mid x ;;
        if b then bisect_loop fuel' a key x (mid + 1)%Z hi
        else bisect_loop fuel' a key x lo mid
    end
  else Ok lo.

(** [bisect_objects(a, x, lo, hi, key)]; [hi = None] and [key = None] are
    the defaults of the source. *)
Definition bisect_objects (a : list value) (x : value) (lo : Z)
           (hi : option Z) (key : option (value -> value)) : res Z :=
  if (lo <? 0)%Z then Raise ValueError
  else
    let a_len := Z.of_nat (List.length a) in
    let hi := match hi with
              | None => a_len
              | Some h => h
              end in
    x <- (if negb (Py.is_Number x)
          then match key with
               | Some k => Ok (k x)
               | None => Raise TypeError
               end
          else Ok x) ;;
    _ <- assert (Py.is_Number x) ;;
    inf <- Py.isinf x ;;
    if inf then
      pos <- Py.gt x (VNum (Fin 0)) ;;
      Ok (if pos then hi else lo)
    else bisect_loop (Z.to_nat (hi - lo)) a key x lo hi.

End util.

(** ** interval.py *)

Module Interval.

Record t : Type := mk {
  start : value;
  end_ : value;
  start_open : bool;
  end_open : bool
}.

Definition set_start_open (self : t) (b : bool) : t :=
  mk (start self) (end_ self) b (end_open self).

Definition set_end_open (self : t) (b : bool) : t :=
  mk (start self) (end_ self) (start_open self) b.

(** *** Properties *)

Definition is_empty (self : t) : bool :=
  Py.eq (end_ self) (start self) && (end_open self || start_open self).

Definition is_negative_infinite (self : t) : res bool :=
  if Py.ne (start self) (end_ self) then Py.isinf (start self) else Ok false.

Definition is_positive_infinite (self : t) : res bool :=
  if Py.ne (start self) (end_ self) then Py.isinf (end_ self) else Ok false.

Definition is_infinite (self : t) : res bool :=
  n <- is_negative_infinite self ;;
  if n then is_positive_infinite self else Ok false.

Definition is_finite (self : t) : res bool :=
  n <- is_negative_infinite self ;;
  if negb n then p <- is_positive_infinite self ;; Ok (negb p) else Ok false.

Definition is_point (self : t) : bool :=
  negb (is_empty self) && Py.eq (start self) (end_ self).

(** *** The constructor

    [self.start] and [self.end] are set to [0] before the validity
    assertions, which read them; the arguments are stored afterwards. *)
Definition __init__ (start0 end0 : value) (start_open0 end_open0 : bool)
  : res t :=
  let start1 := if Py.is_None start0 && negb (Py.is_None end0)
                then VNum NegInf else start0 in
  let end1 := if Py.is_None end0 && negb (Py.is_None start1)
              then VNum PosInf else end0 in
  let self := mk (VNum (Fin 0)) (VNum (Fin 0)) start_open0 end_open0 in
  '(start2, end2) <-
     (if Py.eq end1 start1 && (end_open0 || start_open0)
      then Ok (VNone, VNone)
      else
        _ <- assert (Py.is_Number (start self)) ;;
        _ <- assert (Py.is_Number (end_ self)) ;;
        ge <- Py.ge (end_ self) (start self) ;;
        _ <- assert ge ;;
        Ok (start1, end1)) ;;
  let self := mk start2 end2 (start_open self) (end_open self) in
  if Py.ne (start self) (end_ self) then
    n <- is_negative_infinite self ;;
    let self := if n then set_start_open self true else self in
    p <- is_positive_infinite self ;;
    let self := if p then set_end_open self true else self in
    Ok self
  else Ok self.

(** The value of a module-level constant built by the constructor. *)
Definition built (c : res t) : t :=
  match c with
  | Ok i => i
  | Raise _ => mk VNone VNone true true
  end.

(** [empty = Interval(0, 0, start_open=True, end_open=True)] *)
Definition empty : t :=
  Eval cbv in built (__init__ (VNum (Fin 0)) (VNum (Fin 0)) true true).

(** [infinite = Interval(-math.inf, math.inf, start_open=True, end_open=True)] *)
Definition infinite : t :=
  Eval cbv in built (__init__ (VNum NegInf) (VNum PosInf) true true).

(** *** Boundary rewriting *)

Definition as_closed (self : t) : res t :=
  if is_empty self then Ok self
  else __init__ (start self) (end_ self) false false.

Definition as_open (self : t) : res t :=
  if is_empty self then Ok self
  else __init__ (start self) (end_ self) true true.

Definition as_closed_open (self : t) : res t :=
  if is_empty self then Ok self
  else __init__ (start self) (end_ self) false true.

Definition as_open_closed (self : t) : res t :=
  if is_empty self then Ok self
  else __init__ (start self) (end_ self) true false.

(** *** map, round *)

Definition map (self : t) (f : value -> res value) : res t :=
  s <- f (start self) ;;
  e <- f (end_ self) ;;
  __init__ s e (start_open self) (end_open self).

Definition round (self : t) (method : value -> res value) : res t :=
  if is_empty self then Ok self
  else
    n <- is_negative_infinite self ;;
    s <- (if negb n then method (start self) else Ok (start self)) ;;
    p <- is_positive_infinite self ;;
    e <- (if negb p then method (end_ self) else Ok (end_ self)) ;;
    __init__ s e (start_open self) (end_open self).

(** *** contains

    [enforce_start] and [enforce_end] default to [True] in the source. *)
Definition contains (self : t) (x : value)
           (enforce_start enforce_end : bool) : res bool :=
  if Py.is_None x || is_empty self then Ok false
  else
    n <- is_negative_infinite self ;;
    if n && Py.eq x (VNum NegInf) then Ok true
    else
      p <- is_positive_infinite self ;;
      if p && Py.eq x (VNum PosInf) then Ok true
      else
        let end_side :=
          if enforce_end then
            above <- Py.gt x (end_ self) ;;
            if above then Ok false
            else if start_open self && Py.eq x (start self) then Ok false
            else if end_open self && Py.eq x (end_ self) then Ok false
            else Ok true
          else Ok true in
        if enforce_start then
          below <- Py.lt x (start self) ;;
          if below then Ok false
          else if start_open self && Py.eq x (start self) then Ok false
          else end_side
        else end_side.

(** *** Factories *)

Definition gt (x : value) : res t := __init__ x (VNum PosInf) true true.
Definition gte (x : value) : res t := __init__ x (VNum PosInf) false true.
Definition lt (x : value) : res t := __init__ (VNum NegInf) x true true.
Definition lte (x : value) : res t := __init__ (VNum NegInf) x true false.
Definition point (x : value) : res t := __init__ x x false false.
Definition closed (s e : value) : res t := __init__ s e false false.
Definition open (s e : value) : res t := __init__ s e true true.
Definition closed_open (s e : value) : res t := __init__ s e false true.
Definition open_closed (s e : value) : res t := __init__ s e true false.

(** *** parse

    The objects [parse] is given: [None], an interval, a number, a string,
    or a list or tuple of numbers and [None]s. *)
Inductive pyobj : Type :=
| ONone
| OInterval (d : t)
| ONum (x : num)
| OStr (s : string)
| OSeq (l : list value).

(** [bool(d)]; an interval is true when it is not empty ([__bool__]). *)
Definition truthy (d : pyobj) : bool :=
  match d with
  | ONone => false
  | OInterval i => negb (is_empty i)
  | ONum x => Num.truthy x
  | OStr s => negb (String.eqb s EmptyString)
  | OSeq l => negb (Nat.eqb (List.length l) 0)
  end.

Definition parse (d : pyobj) (default_inf : bool) : res t :=
  match d with
  | ONone => if default_inf then Ok infinite else Raise ParseError
  | OInterval i => Ok i
  | ONum x => point (VNum x)
  | OStr _ | OSeq _ =>
      if negb (truthy d) then Ok empty
      else
        match d with
        | OSeq l =>
            if Nat.eqb (List.length l) 2 then
              d0 <- Py.getitem l 0 ;;
              d1 <- Py.getitem l 1 ;;
              __init__ d0 d1 false false
            else Raise ParseError
        | _ => Raise ParseError
        end
  end.

(** The argument of [parse_many]: one interval, or a list of objects. *)
Inductive pyobjs : Type :=
| One (d : t)
| Many (ds : list pyobj).

Fixpoint mapM {A B : Type} (f : A -> res B) (l : list A) : res (list B) :=
  match l with
  | [] => Ok []
  | a :: l' => b <- f a ;; bs <- mapM f l' ;; Ok (b :: bs)
  end.

Definition parse_many (ds : pyobjs) : res (list t) :=
  match ds with
  | One d => Ok [d]
  | Many l => mapM (fun d => parse d false) l
  end.

(** *** index_range *)

(** First loop: skip the items below [start] that are not contained. *)
Fixpoint skip_below (fuel : nat) (self : t) (values : list value)
         (key : value -> value) (i0 i1 : Z) : res Z :=
  if (i0 =? i1)%Z then Ok i0
  else
    match fuel with
    | O => Raise OutOfFuel
    | S fuel' =>
        v <- Py.getitem values i0 ;;
        let x := key v in
        below <- Py.lt x (start self) ;;
        out <- (if below then c <- contains self x true true ;; Ok (negb c)
                else Ok false) ;;
        if out then skip_below fuel' self values key (i0 + 1)%Z i1
        else Ok i0
    end.

(** Second loop: drop the items above [end] that are not contained. *)
Fixpoint drop_above (fuel : nat) (self : t) (values : list value)
         (key : value -> value) (i0 i1 : Z) : res Z :=
  if negb (i1 =? 0)%Z && negb (i0 =? i1)%Z then
    match fuel with
    | O => Raise OutOfFuel
    | S fuel' =>
        v <- Py.getitem values (i1 - 1)%Z ;;
        let x := key v in
        above <- Py.gt x (end_ self) ;;
        out <- (if above then c <- contains self x true true ;; Ok (negb c)
                else Ok false) ;;
        if out then drop_above fuel' self values key i0 (i1 - 1)%Z
        else Ok i1
    end
  else Ok i1.

Definition index_range (self : t) (values : list value)
           (key : option (value -> value)) : res (Z * Z) :=
  if is_empty self then Ok (0, 0)%Z
  else
    let values_len := Z.of_nat (List.length values) in
    whole <- (if (values_len =? 0)%Z then Ok true else is_infinite self) ;;
    if whole then Ok (0, values_len)%Z
    else
      b0 <- util.bisect_objects values (start self) 0 None key ;;
      let i0 := Z.max 0 (b0 - 1) in
      b1 <- util.bisect_objects values (end_ self) 0 None key ;;
      let i1 := Z.min values_len (b1 + 1) in
      let key := match key with
                 | None => fun x => x
                 | Some k => k
                 end in
      let fuel := S (List.length values) in
      i0 <- skip_below fuel self values key i0 i1 ;;
      i1 <- drop_above fuel self values key i0 i1 ;;
      Ok (i0, i1).

(** *** Set relations *)

Definition is_superset_of (self : t) (interval : pyobj) : res bool :=
  if is_empty self then Ok false
  else
    let u := self in
    v <- parse interval false ;;
    if is_empty v then Ok true
    else
      let u0 := start u in
      let u1 := end_ u in
      let v0 := start v in
      let v1 := end_ v in
      gt0 <- Py.gt u0 v0 ;;
      if gt0 then Ok false
      else if Py.eq u0 v0 && start_open u && negb (start_open v) then Ok false
      else
        lt1 <- Py.lt u1 v1 ;;
        if lt1 then Ok false
        else if Py.eq u1 v1 && end_open u && negb (end_open v) then Ok false
        else Ok true.

Definition is_subset_of (self : t) (interval : pyobj) : res bool :=
  v <- parse interval false ;;
  is_superset_of v (OInterval self).

Definition equals (self : t) (interval : pyobj) : res bool :=
  match interval with
  | ONone => Ok false
  | _ =>
      interval <- parse interval false ;;
      if is_empty self && is_empty interval then Ok true
      else Ok (Py.eq (start self) (start interval)
               && Py.eq (end_ self) (end_ interval)
               && Bool.eqb (start_open self) (start_open interval)
               && Bool.eqb (end_open self) (end_open interval))
  end.

(** *** offset, half-lines, pad *)

Definition offset (self : t) (offset0 : value) : res t :=
  s <- Py.add (start self) offset0 ;;
  e <- Py.add (end_ self) offset0 ;;
  __init__ s e (start_open self) (end_open self).

Definition get_gte (self : t) : res t :=
  if is_empty self then Ok empty
  else __init__ (start self) (VNum PosInf) (start_open self) false.

Definition get_lte (self : t) : res t :=
  if is_empty self then Ok empty
  else __init__ (VNum NegInf) (end_ self) false (end_open self).

Definition get_gt (self : t) : res t :=
  if is_empty self then Ok empty
  else __init__ (end_ self) (VNum PosInf) (negb (end_open self)) false.

Definition get_lt (self : t) : res t :=
  if is_empty self then Ok empty
  else __init__ (VNum NegInf) (start self) false (negb (start_open self)).

(** [pad] takes its positional arguments as the list [amount]; the
    keywords [start] and [end] default to [None]. *)
Definition pad (self : t) (amount : list value) (start0 end0 : value)
  : res t :=
  let default := match amount with
                 | [] => VNone
                 | a :: _ => a
                 end in
  n <- is_negative_infinite self ;;
  s <- (if n then Ok (start self)
        else Py.sub (start self)
                    (Py.or (Py.or start0 default) (VNum (Fin 0)))) ;;
  p <- is_positive_infinite self ;;
  e <- (if p then Ok (end_ self)
        else Py.add (end_ self)
                    (Py.or (Py.or end0 default) (VNum (Fin 0)))) ;;
  __init__ s e (start_open self) (end_open self).

(** *** union, intersection, intersects *)

Definition union (intervals : pyobjs) : res t :=
  intervals <- parse_many intervals ;;
  let intervals := List.filter (fun d => negb (is_empty d)) intervals in
  let d_len := List.length intervals in
  if Nat.eqb d_len 0 then Ok empty
  else if Nat.eqb d_len 1 then Py.getitem intervals 0
  else
    lo <- Py.min intervals start ;;
    let start0 := start lo in
    hi <- Py.max intervals end_ ;;
    let end0 := end_ hi in
    let start_open0 :=
      negb (existsb (fun d => negb (start_open d))
              (List.filter (fun d => Py.eq (start d) start0) intervals)) in
    let end_open0 :=
      negb (existsb (fun d => negb (end_open d))
              (List.filter (fun d => Py.eq (end_ d) end0) intervals)) in
    __init__ start0 end0 start_open0 end_open0.

Definition intersection (intervals : pyobjs) : res t :=
  intervals <- parse_many intervals ;;
  if existsb is_empty intervals then Ok empty
  else
    let d_len := List.length intervals in
    if Nat.eqb d_len 0 then Ok empty
    else if Nat.eqb d_len 1 then Py.getitem intervals 0
    else
      hi <- Py.max intervals start ;;
      let start0 := start hi in
      lo <- Py.min intervals end_ ;;
      let end0 := end_ lo in
      apart <- Py.gt start0 end0 ;;
      if apart then Ok empty
      else
        let start_open0 :=
          existsb start_open
            (List.filter (fun d => Py.eq (start d) start0) intervals) in
        let end_open0 :=
          existsb end_open
            (List.filter (fun d => Py.eq (end_ d) end0) intervals) in
        __init__ start0 end0 start_open0 end_open0.

(** The method returns [None] when neither [u0 <= v0] nor [u0 >= v0]
    holds; the result is [Some b] for the boolean [b]. *)
Definition intersects (self : t) (interval : pyobj) : res (option bool) :=
  if is_empty self then Ok (Some false)
  else
    let u := self in
    v <- parse interval false ;;
    if is_empty v then Ok (Some false)
    else
      let u0 := start u in
      let u1 := end_ u in
      let v0 := start v in
      let v1 := end_ v in
      le0 <- Py.le u0 v0 ;;
      if le0 then
        lt1 <- Py.lt u1 v0 ;;
        if lt1 then Ok (Some false)
        else if Py.eq u1 v0
             then Ok (Some (negb (end_open u) && negb (start_open v)))
             else Ok (Some true)
      else
        ge0 <- Py.ge u0 v0 ;;
        if ge0 then
          lt1 <- Py.lt v1 u0 ;;
          if lt1 then Ok (Some false)
          else if Py.eq v1 u0
               then Ok (Some (negb (end_open v) && negb (start_open u)))
               else Ok (Some true)
        else Ok None.

(** *** Operators *)

Definition __add__ (self : t) (other : pyobj) : res t :=
  union (Many [OInterval self; other]).

Definition __or__ (self : t) (other : pyobj) : res t :=
  union (Many [OInterval self; other]).

Definition __and__ (self : t) (other : pyobj) : res t :=
  intersection (Many [OInterval self; other]).

Definition __lt__ (self : t) (other : pyobj) : res bool :=
  if is_empty self then Ok false
  else
    other <- parse other false ;;
    if is_empty other then Ok true
    else
      lt0 <- Py.lt (end_ self) (start other) ;;
      if lt0 then Ok true
      else if Py.eq (end_ self) (start other)
              && (end_open self || start_open other) then Ok true
      else Ok false.

Definition __le__ (self : t) (other : pyobj) : res bool :=
  if is_empty self then Ok false
  else
    other <- parse other false ;;
    if is_empty other then Ok true
    else
      lt0 <- Py.lt (end_ self) (end_ other) ;;
      if lt0 then Ok true
      else if Py.eq (end_ self) (end_ other)
              && negb (negb (end_open self) && end_open other) then Ok true
      else Ok false.

Definition __gt__ (self : t) (other : pyobj) : res bool :=
  if is_empty self then Ok false
  else
    other <- parse other false ;;
    if is_empty other then Ok true
    else
      gt0 <- Py.gt (start self) (end_ other) ;;
      if gt0 then Ok true
      else if Py.eq (end_ self) (start other)
              && (start_open self || end_open other) then Ok true
      else Ok false.

Definition __ge__ (self : t) (other : pyobj) : res bool :=
  if is_empty self then Ok false
  else
    other <- parse other false ;;
    if is_empty other then Ok true
    else
      gt0 <- Py.gt (start self) (start other) ;;
      if gt0 then Ok true
      else if Py.eq (start self) (start other)
              && negb (negb (start_open self) && start_open other) then Ok true
      else Ok false.

(** *** Sequence protocol, length, middle, copy *)

Definition __bool__ (self : t) : bool := negb (is_empty self).

Definition __len__ (self : t) : Z := if negb (is_empty self) then 2 else 0.

Definition __getitem__ (self : t) (i : Z) : value :=
  if (i =? 0)%Z then start self else end_ self.

Definition __iter__ (self : t) : list value :=
  if is_empty self then [] else [start self; end_ self].

(** [0.0] for an empty interval. *)
Definition length (self : t) : res value :=
  if is_empty self then Ok (VNum (Fin 0))
  else Py.sub (end_ self) (start self).


Definition copy (self : t) : res t :=
  __init__ (start self) (end_ self) (start_open self) (end_open self).

Definition __radd__ (self : t) (other : pyobj) : res t :=
  union (Many [OInterval self; other]).

Definition __eq__ (self : t) (other : pyobj) : res bool :=
  equals self other.

Definition __ne__ (self : t) (other : pyobj) : res bool :=
  b <- equals self other ;; Ok (negb b).

(** *** filter *)

Definition filter (self : t) (values : list value)
           (key : option (value -> value)) : res (list value) :=
  '(i0, i1) <- index_range self values key ;;
  Ok (Py.slice values i0 i1).

(** *** partition *)

(** [list(filter(lambda x: self.contains(x), xs))] *)
Fixpoint contained (self : t) (xs : list value) : res (list value) :=
  match xs with
  | [] => Ok []
  | x :: xs' =>
      c <- contains self x true true ;;
      rest <- contained self xs' ;;
      Ok (if c then x :: rest else rest)
  end.

(** The body of [for i in range(len_xs + 1)], over the remaining indices
    [range]; [x], [x_prev] and [intervals] are the loop's variables. *)
Fixpoint partition_loop (self : t) (xs : list value) (len_xs i_last : Z)
         (start_open0 end_open0 : bool) (range : list Z)
         (x x_prev : value) (intervals : list t) : res (list t) :=
  match range with
  | [] => Ok intervals
  | i :: range' =>
      x <- (if (i <=? i_last)%Z then Py.getitem xs i else Ok x) ;;
      let d_start := if (i =? 0)%Z then start self else x_prev in
      let d_start_open :=
        if (i =? 0)%Z then start_open self else start_open0 in
      let d_end := if (i =? len_xs)%Z then end_ self else x in
      let d_end_open :=
        if (i =? len_xs)%Z then end_open self else end_open0 in
      d <- __init__ d_start d_end d_start_open d_end_open ;;
      let intervals :=
        if negb (is_empty d) then intervals ++ [d] else intervals in
      partition_loop self xs len_xs i_last start_open0 end_open0 range'
                     x x intervals
  end.

(** [start_open] and [end_open] default to [None]. *)
Definition partition (self : t) (xs : list value)
           (start_open0 end_open0 : option bool) : res (list t) :=
  xs <- contained self xs ;;
  let len_xs := Z.of_nat (List.length xs) in
  if (len_xs =? 0)%Z then Ok [self]
  else
    let i_last := (len_xs - 1)%Z in
    let x_prev := VNone in
    let '(start_open1, end_open1) :=
      match end_open0, start_open0 with
      | Some eo, _ => (negb eo, eo)
      | None, Some so => (so, negb so)
      | None, None => (false, true)
      end in
    partition_loop self xs len_xs i_last start_open1 end_open1
                   (List.map Z.of_nat (seq 0 (S (List.length xs))))
                   VNone x_prev [].

End Interval.

Import Interval.

(** ** Derived notions used in the statements *)

(** The integer [z] as a Python value. *)
Definition int (z : Z) : value := VNum (Fin (inject_Z z)).

Definition pinf : value := VNum PosInf.
Definition ninf : value := VNum NegInf.

(** What [__init__] stores for two numbers: the canonical empty fields when
    the endpoints are equal and a flag is open, and otherwise the arguments,
    with an infinite endpoint opened when the endpoints differ. *)
Definition stored (s e : num) (so eo : bool) : t :=
  if Num.eqb e s && (eo || so) then mk VNone VNone so eo
  else mk (VNum s) (VNum e)
          (so || (negb (Num.eqb s e) && Num.isinf s))
          (eo || (negb (Num.eqb s e) && Num.isinf e)).

(** [bool(d)] is false and [d] is not a number. *)
Definition falsy_non_number (d : pyobj) : bool :=
  negb (truthy d) && match d with
                     | ONum _ => false
                     | _ => true
                     end.

(** A non-empty interval of numbers [start <= end] whose infinite endpoints
    are open: what the constructor returns for such endpoints, a closed
    point at an infinity excepted. *)
Definition proper (i : t) : bool :=
  match start i, end_ i with
  | VNum s, VNum e =>
      Num.leb s e
      && negb (is_empty i)
      && (negb (Num.isinf s) || start_open i)
      && (negb (Num.isinf e) || end_open i)
  | _, _ => false
  end.

(** [d] attains the start (the end) of [u]. *)
Definition at_start (u d : t) : bool := Py.eq (start d) (start u).
Definition at_end (u d : t) : bool := Py.eq (end_ d) (end_ u).

(** A non-empty interval of numbers [start <= end]. *)
Definition wellformed (i : t) : bool :=
  match start i, end_ i with
  | VNum s, VNum e => Num.leb s e && negb (is_empty i)
  | _, _ => false
  end.

(** The key function in force: the identity when [key] is [None]. *)
Definition key_of (key : option (value -> value)) : value -> value :=
  match key with
  | None => fun x => x
  | Some k => k
  end.

(** [l] is a list of numbers in ascending order (no [nan]). *)
Fixpoint ascending (l : list num) : bool :=
  match l with
  | [] => true
  | x :: l' => Num.leb x x && forallb (Num.leb x) l' && ascending l'
  end.

(** Every item of [l] before [n] is below [x]; no item from [n] on is. *)
Definition below (l : list num) (x : num) (n : nat) : Prop :=
  forall k y, (k < n)%nat -> nth_error l k = Some y -> Num.ltb y x = true.

Definition not_below (l : list num) (x : num) (n : nat) : Prop :=
  forall k y, (n <= k)%nat -> nth_error l k = Some y -> Num.ltb y x = false.

(** The result of a computation that did not run out of its budget. *)
Definition within_budget {A : Type} (r : res A) : Prop :=
  r <> Raise OutOfFuel.

(** A result of the search loop: an index not before [lo], or an exception
    other than running out of budget. *)
Definition searched (lo : Z) (r : res Z) : Prop :=
  match r with
  | Ok b => (lo <= b)%Z
  | Raise e => e <> OutOfFuel
  end.

(** [y] is on the inner side of the start [s] (of the end [e]): strictly
    inside, or at the boundary when it is closed or infinite. *)
Definition after (s : num) (so : bool) (y : num) : bool :=
  Num.ltb s y || (Num.eqb y s && (negb so || Num.isinf s)).

Definition before (e : num) (eo : bool) (y : num) : bool :=
  Num.ltb y e || (Num.eqb y e && (negb eo || Num.isinf e)).

(** The start-side and end-side tests of [is_superset_of]. *)
Definition covers_start (su : num) (sou : bool) (sv : num) (sov : bool) : bool :=
  negb (Num.gtb su sv) && negb (Num.eqb su sv && sou && negb sov).

Definition covers_end (eu : num) (eou : bool) (ev : num) (eov : bool) : bool :=
  negb (Num.ltb eu ev) && negb (Num.eqb eu ev && eou && negb eov).

(** The relation of [<] on two end/start pairs. *)
Definition left_of (ea : num) (eoa : bool) (sb : num) (sob : bool) : bool :=
  Num.ltb ea sb || (Num.eqb ea sb && (eoa || sob)).

(** The relations of [<=] on two ends and of [>=] on two starts. *)
Definition end_le (ea : num) (eoa : bool) (eb : num) (eob : bool) : bool :=
  Num.ltb ea eb || (Num.eqb ea eb && negb (negb eoa && eob)).

Definition start_ge (sa : num) (soa : bool) (sb : num) (sob : bool) : bool :=
  Num.gtb sa sb || (Num.eqb sa sb && negb (negb soa && sob)).

(** No endpoint of [i] is [nan]. *)
Definition no_nan (i : t) : bool := Py.eq (start i) (start i)
                                    && Py.eq (end_ i) (end_ i).

(** The end index [index_range] reaches from the search index [b1] of the
    end [e]: one more when the key at [b1] equals [e]. *)
Definition end_index (l : list num) (e : num) (b1 : nat) : nat :=
  match nth_error l b1 with
  | Some y => if Num.eqb y e then S b1 else b1
  | None => b1
  end.

(** The number of items of [l] below [x]. *)
Definition count_below (x : num) (l : list num) : nat :=
  List.length (List.filter (fun y => Num.ltb y x) l).

(** [self.contains(v)] as a boolean, false when the test raises. *)
Definition inside (i : t) (v : value) : bool :=
  match contains i v true true with
  | Ok b => b
  | Raise _ => false
  end.

(** The rationals [xs] as Python numbers. *)
Definition numbers (xs : list Q) : list value :=
  List.map (fun q => VNum (Fin q)) xs.

(** The number of intervals of [ds] that contain [y]. *)
Definition containing (ds : list t) (y : num) : nat :=
  List.length (List.filter (fun d => inside d (VNum y)) ds).

(** A function of the finite numbers as a Python callable: it raises on
    anything else. *)
Definition on_numbers (f : Q -> Q) (v : value) : res value :=
  match v with
  | VNum (Fin q) => Ok (VNum (Fin (f q)))
  | _ => Raise TypeError
  end.

(** ** Reflection of the rational comparisons *)

Lemma Qle_bool_false (p r : Q) : Qle_bool p r = false -> (r < p)%Q.
Proof.
  intros H. apply Qnot_le_lt. intros Hle.
  apply Qle_bool_iff in Hle. congruence.
Qed.

Ltac qprop :=
  repeat match goal with
    | H : Qeq_bool _ _ = true |- _ => apply Qeq_bool_iff in H
    | H : Qeq_bool _ _ = false |- _ => apply Qeq_bool_neq in H
    | H : Qle_bool _ _ = true |- _ => apply Qle_bool_iff in H
    | H : Qle_bool _ _ = false |- _ => apply Qle_bool_false in H
    end.

Ltac qcase :=
  repeat (match goal with
          | |- context [Qeq_bool ?a ?b] => destruct (Qeq_bool a b) eqn:?
          | |- context [Qle_bool ?a ?b] => destruct (Qle_bool a b) eqn:?
          end; simpl).

Ltac qsolve :=
  simpl; qcase; try congruence; qprop;
  try reflexivity; try discriminate; try (exfalso; lra); try lra.

(** ** The order of the numbers *)

Section NumOrder.

Lemma leb_not_nan (x y : num) :
  Num.leb x y = true -> Num.isnan x = false /\ Num.isnan y = false.
Proof. destruct x, y; try discriminate; split; reflexivity. Qed.

Lemma leb_refl (x : num) : Num.isnan x = false -> Num.leb x x = true.
Proof. destruct x; try discriminate; try reflexivity. intros _. qsolve. Qed.

Lemma leb_trans (x y z : num) :
  Num.leb x y = true -> Num.leb y z = true -> Num.leb x z = true.
Proof.
  destruct x, y, z; try discriminate; try reflexivity.
  simpl. intros H1 H2. qprop. apply Qle_bool_iff. lra.
Qed.

Lemma ltb_false_leb (x y : num) :
  Num.isnan x = false -> Num.isnan y = false ->
  Num.ltb x y = false -> Num.leb y x = true.
Proof.
  destruct x, y; try discriminate; try reflexivity.
  simpl. intros _ _ H. destruct (Qle_bool q0 q); [reflexivity|discriminate].
Qed.

Lemma ltb_true_leb (x y : num) : Num.ltb x y = true -> Num.leb x y = true.
Proof.
  destruct x, y; try discriminate; try reflexivity.
  simpl. intros H. destruct (Qle_bool q0 q) eqn:E; [discriminate|].
  qprop. apply Qle_bool_iff. lra.
Qed.

Lemma leb_ltb_false (x y : num) : Num.leb x y = true -> Num.ltb y x = false.
Proof.
  destruct x, y; try discriminate; try reflexivity.
  simpl. intros ->. reflexivity.
Qed.

Lemma eqb_leb (x y : num) :
  Num.eqb x y = Num.leb x y && Num.leb y x.
Proof.
  destruct x, y; try reflexivity. simpl.
  destruct (Qeq_bool q q0) eqn:E1, (Qle_bool q q0) eqn:E2,
    (Qle_bool q0 q) eqn:E3; try reflexivity; qprop; exfalso; lra.
Qed.

Lemma eqb_isinf (x y : num) :
  Num.eqb x y = true -> Num.isinf x = Num.isinf y.
Proof. destruct x, y; try discriminate; reflexivity. Qed.

Lemma Num_eqb_sym (x y : num) : Num.eqb x y = Num.eqb y x.
Proof.
  destruct x, y; try reflexivity. simpl.
  destruct (Qeq_bool q q0) eqn:E1, (Qeq_bool q0 q) eqn:E2; qprop;
    try reflexivity; exfalso; lra.
Qed.

Lemma leb_ltb_trans (x y z : num) :
  Num.leb x y = true -> Num.ltb y z = true -> Num.ltb x z = true.
Proof.
  destruct x, y, z; try discriminate; try reflexivity.
  simpl. intros H1 H2. destruct (Qle_bool q1 q0) eqn:E; [discriminate|].
  destruct (Qle_bool q1 q) eqn:E'; [|reflexivity]. qprop. exfalso. lra.
Qed.

Lemma ltb_leb_trans (x y z : num) :
  Num.ltb x y = true -> Num.leb y z = true -> Num.ltb x z = true.
Proof.
  destruct x, y, z; try discriminate; try reflexivity.
  simpl. intros H1 H2. destruct (Qle_bool q0 q) eqn:E; [discriminate|].
  destruct (Qle_bool q1 q) eqn:E'; [|reflexivity]. qprop. exfalso. lra.
Qed.

Lemma ltb_asym (x y : num) : Num.ltb x y = true -> Num.ltb y x = false.
Proof.
  intros H. apply leb_ltb_false. apply ltb_true_leb. exact H.
Qed.

Lemma ltb_trichotomy (x y : num) :
  Num.isnan x = false -> Num.isnan y = false ->
  Num.ltb x y = false -> Num.eqb x y = false -> Num.ltb y x = true.
Proof.
  destruct x, y; try discriminate; try reflexivity. simpl.
  intros _ _ H1 H2. destruct (Qle_bool q0 q) eqn:E1; [|discriminate H1].
  destruct (Qle_bool q q0) eqn:E2; [|reflexivity].
  qprop. exfalso. lra.
Qed.

End NumOrder.

(** ** The constructor *)

Section Constructor.

Lemma init_num (s e : num) (so eo : bool) :
  __init__ (VNum s) (VNum e) so eo = Ok (stored s e so eo).
Proof.
  unfold __init__, stored, is_negative_infinite, is_positive_infinite, Py.ne.
  destruct s, e, so, eo; simpl; try reflexivity; qsolve.
Qed.

(** A missing endpoint stands for the infinity on its side; two missing
    endpoints are stored as they are. *)
Lemma init_cases (P : res t -> Prop) (so eo : bool) :
  (forall x y, P (Ok (stored x y so eo))) ->
  P (Ok (mk VNone VNone so eo)) ->
  forall s e, P (__init__ s e so eo).
Proof.
  intros Hnum Hnone [|x] [|y].
  - destruct so, eo; exact Hnone.
  - change (__init__ VNone (VNum y) so eo)
      with (__init__ (VNum NegInf) (VNum y) so eo).
    rewrite init_num. apply Hnum.
  - change (__init__ (VNum x) VNone so eo)
      with (__init__ (VNum x) (VNum PosInf) so eo).
    rewrite init_num. apply Hnum.
  - rewrite init_num. apply Hnum.
Qed.

(** The constructor never raises. *)
Lemma init_total (s e : value) (so eo : bool) :
  exists r, __init__ s e so eo = Ok r.
Proof.
  apply init_cases; eauto.
Qed.

End Constructor.

(** ** Construction with reversed endpoints *)

(** C3 (the code departs from the claim): the assertions of [__init__] read
    [self.start] and [self.end], which hold [0] at that point, so they never
    fail.  Constructing an interval from two real numbers with [end < start]
    raises nothing and returns an interval that stores exactly these
    endpoints, the stored end below the stored start. *)
Theorem init_reversed_endpoints_accepted (s e : Q) (so eo : bool) :
  (e < s)%Q ->
  __init__ (VNum s) (VNum e) so eo = Ok (mk (VNum s) (VNum e) so eo)
  /\ Py.lt (VNum e) (VNum s) = Ok true.
Proof.
  intros Hlt. rewrite init_num. unfold stored. split; qsolve.
  destruct so, eo; reflexivity.
Qed.

Lemma init_reversed_endpoints_witness :
  __init__ (int 5) (int 3) false false = Ok (mk (int 5) (int 3) false false)
  /\ Py.lt (int 3) (int 5) = Ok true.
Proof.
  apply (init_reversed_endpoints_accepted (inject_Z 5) (inject_Z 3)).
  reflexivity.
Defined.

(** ** Infinite endpoints *)

(** C8, counterexample: the closed point interval at [+inf] is built as
    given; it is not empty, its end is [+inf] and its end stays closed. *)
Lemma closed_point_at_infinity_counterexample :
  exists r, __init__ pinf pinf false false = Ok r
            /\ is_empty r = false
            /\ end_ r = pinf
            /\ end_open r = false.
Proof.
  eexists. repeat split.
Qed.

(** C8, amended: in every interval the constructor returns whose stored
    start and end differ, an end at [+inf] is open and a start at [-inf] is
    open, whatever flags were supplied. *)
Theorem infinite_endpoint_forced_open
        (s e : value) (so eo : bool) (r : t) :
  __init__ s e so eo = Ok r ->
  Py.ne (start r) (end_ r) = true ->
  (end_ r = pinf -> end_open r = true)
  /\ (start r = ninf -> start_open r = true).
Proof.
  revert r. pattern (__init__ s e so eo). apply init_cases.
  - intros x y r [= <-] Hne. unfold stored in *.
    destruct (Num.eqb y x && (eo || so)); [discriminate Hne|].
    cbn [start end_ start_open end_open] in *.
    unfold Py.ne in Hne. cbn [Py.eq] in Hne. rewrite Hne.
    split; intros [= ->]; cbn; apply orb_true_r.
  - intros r [= <-] Hne. discriminate Hne.
Qed.

Lemma infinite_endpoint_forced_open_witness :
  exists r, __init__ (int 0) VNone false false = Ok r
            /\ end_ r = pinf
            /\ end_open r = true.
Proof.
  eexists. split; [reflexivity|]. split; [reflexivity|].
  apply (infinite_endpoint_forced_open (int 0) VNone false false);
    reflexivity.
Defined.

(** ** Membership of the endpoints *)

(** C2, counterexample: [Interval(-inf, 5, start_open=True)] is not empty
    and its start is open, as supplied and as stored, yet it contains its
    start [-inf]. *)
Lemma contains_infinite_start_counterexample :
  exists r, __init__ ninf (int 5) true false = Ok r
            /\ is_empty r = false
            /\ start_open r = true
            /\ contains r ninf true true = Ok true.
Proof.
  eexists. repeat split.
Qed.

(** C2, amended: for real or infinite endpoints [start <= end] that do not
    collapse to empty, the constructed interval contains its start exactly
    when its start is closed or the interval is negative-infinite, and
    contains its end exactly when its end is closed or the interval is
    positive-infinite. *)
Theorem contains_endpoints (s e : num) (so eo : bool) :
  Num.leb s e = true ->
  Num.eqb e s && (eo || so) = false ->
  exists r n p,
    __init__ (VNum s) (VNum e) so eo = Ok r
    /\ is_negative_infinite r = Ok n
    /\ is_positive_infinite r = Ok p
    /\ contains r (VNum s) true true = Ok (negb (start_open r) || n)
    /\ contains r (VNum e) true true = Ok (negb (end_open r) || p).
Proof.
  intros Hle Hkeep. rewrite init_num. unfold stored. rewrite Hkeep.
  unfold contains, is_empty, is_negative_infinite, is_positive_infinite, Py.ne.
  cbn [start end_ start_open end_open Py.is_None Py.eq orb bind].
  destruct s as [| |s|], e as [| |e|]; try discriminate Hle;
    destruct so, eo; try discriminate Hkeep;
    simpl in *; (do 3 eexists); repeat split; qsolve.
Qed.

Lemma contains_endpoints_witness :
  exists r,
    __init__ (int 0) (int 5) false true = Ok r
    /\ contains r (int 0) true true = Ok true
    /\ contains r (int 5) true true = Ok false.
Proof.
  destruct (contains_endpoints (Fin (inject_Z 0)) (Fin (inject_Z 5)) false true
              eq_refl eq_refl)
    as (r & n & p & Hr & Hn & Hp & Hs & He).
  exists r. split; [exact Hr|].
  injection Hr as <-. injection Hn as <-. injection Hp as <-.
  split; [exact Hs | exact He].
Defined.

(** ** Ordering against the empty interval *)

(** C5, counterexample: [empty < point(1)] is false although [point(1)] is
    not empty. *)
Lemma empty_lt_point_counterexample :
  exists p, point (int 1) = Ok p
            /\ is_empty p = false
            /\ __lt__ empty (OInterval p) = Ok false.
Proof.
  eexists. repeat split.
Qed.

(** C5, amended: an empty interval on the left of [<] is strictly less than
    nothing ([empty < x] is false for every [x], empty or not, whatever [x]
    is), while every non-empty interval is strictly less than an empty
    one. *)
Theorem lt_empty (e : t) :
  is_empty e = true ->
  (forall x, __lt__ e x = Ok false)
  /\ (forall y, is_empty y = false -> __lt__ y (OInterval e) = Ok true).
Proof.
  intros He. split.
  - intros x. unfold __lt__. rewrite He. reflexivity.
  - intros y Hy. unfold __lt__. rewrite Hy. cbn [parse bind].
    rewrite He. reflexivity.
Qed.

Lemma lt_empty_witness :
  __lt__ empty (OInterval empty) = Ok false
  /\ __lt__ empty (ONum (Fin 1)) = Ok false
  /\ __lt__ (mk (int 1) (int 1) false false) (OInterval empty) = Ok true.
Proof.
  destruct (lt_empty empty eq_refl) as [Hl Hr].
  split; [apply Hl|]. split; [apply Hl|]. apply Hr. reflexivity.
Defined.

(** ** parse on numbers *)

Lemma init_closed_not_empty (s e : value) (r : t) :
  __init__ s e false false = Ok r -> is_empty r = false.
Proof.
  revert r. pattern (__init__ s e false false). apply init_cases.
  - intros x y r [= <-].
    unfold stored, is_empty. cbn [orb andb]. rewrite andb_false_r.
    cbn [start end_ start_open end_open Py.eq].
    destruct (Num.eqb y x) eqn:E; [|reflexivity].
    destruct x, y; try discriminate E; simpl in *; try reflexivity;
      qsolve.
  - intros r [= <-]. reflexivity.
Qed.

(** C10: [parse(0)] is the closed point interval [[0, 0]], which is not
    empty, although [0] is false; every number parses to the closed interval
    from it to itself, never to an empty one; the empty list and the empty
    string parse to [empty]; and an object that [parse] turns into an empty
    interval is a false object that is not a number. *)
Theorem parse_zero_is_point :
  parse (ONum (Fin 0)) false
  = Ok (mk (VNum (Fin 0)) (VNum (Fin 0)) false false)
  /\ is_empty (mk (VNum (Fin 0)) (VNum (Fin 0)) false false) = false
  /\ is_point (mk (VNum (Fin 0)) (VNum (Fin 0)) false false) = true
  /\ truthy (ONum (Fin 0)) = false
  /\ parse (OSeq []) false = Ok empty
  /\ parse (OStr EmptyString) false = Ok empty
  /\ (forall x b, parse (ONum x) b = Ok (mk (VNum x) (VNum x) false false)
                  /\ is_empty (mk (VNum x) (VNum x) false false) = false)
  /\ (forall d b r, parse d b = Ok r -> is_empty r = true ->
                    falsy_non_number d = true).
Proof.
  repeat split.
  - unfold parse, point. rewrite init_num.
    unfold stored. cbn [orb]. rewrite andb_false_r.
    destruct x; try reflexivity. qsolve.
  - unfold is_empty. cbn [start_open end_open orb]. apply andb_false_r.
  - intros d b r Hr He. destruct d as [|i|x|str|l].
    + cbn in Hr. destruct b; [|discriminate Hr]. injection Hr as <-.
      discriminate He.
    + injection Hr as <-. unfold falsy_non_number. cbn. rewrite He. reflexivity.
    + cbn [parse point] in Hr. apply init_closed_not_empty in Hr. congruence.
    + cbn [parse] in Hr. unfold falsy_non_number.
      destruct (truthy (OStr str)); [discriminate Hr | reflexivity].
    + cbn [parse] in Hr. unfold falsy_non_number.
      destruct (truthy (OSeq l)); [|reflexivity]. cbn [negb] in Hr.
      destruct (Nat.eqb (List.length l) 2); [|discriminate Hr].
      destruct (Py.getitem l 0) as [d0|]; [|discriminate Hr].
      destruct (Py.getitem l 1) as [d1|]; [|discriminate Hr].
      cbn [bind] in Hr. apply init_closed_not_empty in Hr. congruence.
Qed.

Lemma parse_zero_is_point_witness :
  parse (ONum (Fin 0)) false
  = Ok (mk (VNum (Fin 0)) (VNum (Fin 0)) false false)
  /\ falsy_non_number (OSeq []) = true.
Proof.
  destruct parse_zero_is_point as (H0 & _ & _ & _ & _ & _ & _ & Honly).
  split; [exact H0|].
  apply (Honly (OSeq []) false empty); reflexivity.
Defined.

(** ** One-sided membership *)

(** C9 (the code departs from the claim): with [enforce_start=False] the end
    side of [contains] still tests [self.start_open and x == self.start].
    The intervals [(0, 5)] and [[0, 5)] have the same end boundary, and [0]
    satisfies the end-side constraint of both, yet the one-sided test
    rejects [0] for the first and accepts it for the second. *)
Theorem contains_end_side_reads_start :
  exists a b,
    open (int 0) (int 5) = Ok a
    /\ closed_open (int 0) (int 5) = Ok b
    /\ end_ a = end_ b
    /\ end_open a = end_open b
    /\ contains a (int 0) false true = Ok false
    /\ contains b (int 0) false true = Ok true.
Proof.
  do 2 eexists. repeat split.
Qed.

(** ** intersects *)

(** C4 (the code departs from the claim): [(0, 5)] and the point [[0, 0]]
    are not empty and share no number, since [(0, 5)] is open at [0], the
    only number in the point.  [point.intersects(open)] is false, but
    [open.intersects(point)] is true: with [u0 == v0] the method takes its
    first branch, compares [u1] with [v0] only, and answers true. *)
Theorem intersects_open_start_with_point :
  exists u v,
    open (int 0) (int 5) = Ok u
    /\ point (int 0) = Ok v
    /\ is_empty u = false
    /\ is_empty v = false
    /\ intersects u (OInterval v) = Ok (Some true)
    /\ intersects v (OInterval u) = Ok (Some false)
    /\ (forall x, Num.isnan x = false ->
                  contains v (VNum x) true true = Ok true ->
                  contains u (VNum x) true true = Ok false).
Proof.
  exists (mk (int 0) (int 5) true true), (mk (int 0) (int 0) false false).
  repeat split.
  intros [| |x|]; try discriminate; try reflexivity.
  intros _. unfold contains. simpl.
  qcase; try congruence; qprop; try reflexivity; try discriminate.
  all: intros _; exfalso; unfold inject_Z in *; lra.
Qed.

(** ** Transformations of an empty interval *)

(** What [__init__] returns when an endpoint pair does not collapse is not
    empty. *)
Lemma stored_empty (x y : num) (so eo : bool) :
  is_empty (stored x y so eo) = Num.eqb y x && (eo || so).
Proof.
  unfold stored. destruct (Num.eqb y x && (eo || so)) eqn:E.
  - unfold is_empty. cbn. destruct eo, so; try reflexivity.
    rewrite andb_false_r in E. discriminate E.
  - unfold is_empty. cbn [start end_ start_open end_open Py.eq].
    rewrite (Num_eqb_sym x y).
    destruct (Num.eqb y x); [|reflexivity].
    cbn in *. rewrite !orb_false_r. exact E.
Qed.

(** An empty interval built by the constructor has [None] endpoints. *)
Lemma init_empty_fields (s e : value) (so eo : bool) (r : t) :
  __init__ s e so eo = Ok r -> is_empty r = true ->
  start r = VNone /\ end_ r = VNone.
Proof.
  revert r. pattern (__init__ s e so eo). apply init_cases.
  - intros x y r [= <-] He. rewrite stored_empty in He.
    unfold stored. rewrite He. split; reflexivity.
  - intros r [= <-] _. split; reflexivity.
Qed.

(** C6 (the code departs from the claim): an empty interval built by the
    constructor stores [None] endpoints.  [round], the four [as_...]
    methods and the four [get_...] methods test [is_empty] first and return
    an empty interval.  [offset] and [pad] have no such test: they add to
    and subtract from [None] and raise [TypeError], for every argument.
    [map] has no such test either: it applies [f] to [None], raises whatever
    [f] raises there, and returns an empty interval only when [f] accepts
    [None]. *)
Theorem transformations_of_empty (s e : value) (so eo : bool) (r : t) :
  __init__ s e so eo = Ok r ->
  is_empty r = true ->
  (forall d, offset r d = Raise TypeError)
  /\ (forall amount s0 e0, pad r amount s0 e0 = Raise TypeError)
  /\ (forall f x, f VNone = Raise x -> map r f = Raise x)
  /\ (forall f v, f VNone = Ok v -> Py.eq v v = true ->
                  exists r', map r f = Ok r' /\ is_empty r' = true)
  /\ (forall method, round r method = Ok r)
  /\ as_closed r = Ok r
  /\ as_open r = Ok r
  /\ as_closed_open r = Ok r
  /\ as_open_closed r = Ok r
  /\ get_gte r = Ok empty
  /\ get_lte r = Ok empty
  /\ get_gt r = Ok empty
  /\ get_lt r = Ok empty
  /\ is_empty empty = true.
Proof.
  intros Hr He.
  destruct (init_empty_fields _ _ _ _ _ Hr He) as [Hs Hend].
  unfold offset, pad, map, round, as_closed, as_open, as_closed_open,
    as_open_closed, get_gte, get_lte, get_gt, get_lt, is_negative_infinite,
    is_positive_infinite.
  rewrite He, Hs, Hend.
  repeat split; try reflexivity.
  - intros f x Hf. rewrite Hf. reflexivity.
  - intros f v Hf Hv. rewrite Hf. cbn [bind].
    unfold is_empty in He. rewrite Hs, Hend in He. cbn [Py.eq andb] in He.
    destruct v as [|v].
    + destruct (start_open r), (end_open r); try discriminate He;
        eexists; split; reflexivity.
    + rewrite init_num. eexists. split; [reflexivity|].
      rewrite stored_empty. cbn [Py.eq] in Hv. rewrite Hv, He. reflexivity.
Qed.

Lemma transformations_of_empty_witness :
  offset empty (int 1) = Raise TypeError
  /\ pad empty [int 1] VNone VNone = Raise TypeError
  /\ map empty (fun x => Py.add x (int 1)) = Raise TypeError
  /\ as_closed empty = Ok empty
  /\ get_gte empty = Ok empty.
Proof.
  destruct (transformations_of_empty (int 0) (int 0) true true empty
              eq_refl eq_refl)
    as (Hoff & Hpad & Hmap & _ & _ & Hclosed & _ & _ & _ & Hgte & _).
  split; [apply Hoff|]. split; [apply Hpad|].
  split; [apply Hmap; reflexivity|]. split; [exact Hclosed | exact Hgte].
Defined.

(** ** union and is_superset_of *)

Lemma proper_not_empty (i : t) : proper i = true -> is_empty i = false.
Proof.
  unfold proper. destruct (start i), (end_ i); try discriminate.
  destruct (is_empty i); [|reflexivity].
  rewrite andb_false_r. discriminate.
Qed.

Lemma proper_fields (s e : num) (so eo : bool) :
  proper (mk (VNum s) (VNum e) so eo) = true ->
  Num.leb s e = true
  /\ Num.eqb e s && (eo || so) = false
  /\ (Num.isinf s = true -> so = true)
  /\ (Num.isinf e = true -> eo = true).
Proof.
  unfold proper, is_empty. cbn [start end_ start_open end_open Py.eq].
  intros H.
  apply andb_prop in H as [H H4]. apply andb_prop in H as [H H3].
  apply andb_prop in H as [H1 H2].
  repeat split.
  - exact H1.
  - apply negb_true_iff. exact H2.
  - intros Hi. rewrite Hi in H3. exact H3.
  - intros Hi. rewrite Hi in H4. exact H4.
Qed.

(** The union of two non-empty intervals, as the source computes it. *)
Lemma union_pair (a b : t) :
  is_empty a = false ->
  is_empty b = false ->
  union (Many [OInterval a; OInterval b])
  = (lo <- Py.min [a; b] start ;;
     hi <- Py.max [a; b] end_ ;;
     __init__ (start lo) (end_ hi)
       (negb (existsb (fun d => negb (start_open d))
                (List.filter (fun d => Py.eq (start d) (start lo)) [a; b])))
       (negb (existsb (fun d => negb (end_open d))
                (List.filter (fun d => Py.eq (end_ d) (end_ hi)) [a; b])))).
Proof.
  intros Ha Hb. unfold union.
  cbn [parse_many mapM parse bind List.filter]. rewrite Ha, Hb. reflexivity.
Qed.

(** "Not any is closed" over the intervals attaining a boundary. *)
Lemma none_closed (A : Type) (f : A -> bool) (pa pb : bool) (a b : A) :
  negb (existsb (fun d => negb (f d))
          ((if pa then [a] else []) ++ (if pb then [b] else [])))
  = (negb pa || f a) && (negb pb || f b).
Proof. destruct pa, pb; cbn; destruct (f a), (f b); reflexivity. Qed.

Lemma filter_pair (A : Type) (p : A -> bool) (a b : A) :
  List.filter p [a; b] = (if p a then [a] else []) ++ (if p b then [b] else []).
Proof. cbn. destruct (p a), (p b); reflexivity. Qed.

Lemma all_open (A : Type) (f : A -> bool) (pa pb : bool) (a b : A) :
  forallb f ((if pa then [a] else []) ++ (if pb then [b] else []))
  = (negb pa || f a) && (negb pb || f b).
Proof. destruct pa, pb; cbn; destruct (f a), (f b); reflexivity. Qed.

Section UnionOfTwo.

Variables (sa ea sb eb : num) (soa eoa sob eob : bool).

Let a := mk (VNum sa) (VNum ea) soa eoa.
Let b := mk (VNum sb) (VNum eb) sob eob.
Let s0 := if Num.ltb sb sa then sb else sa.
Let e0 := if Num.gtb eb ea then eb else ea.
Let so0 := (negb (Num.eqb sa s0) || soa) && (negb (Num.eqb sb s0) || sob).
Let eo0 := (negb (Num.eqb ea e0) || eoa) && (negb (Num.eqb eb e0) || eob).

Hypothesis Ha : proper a = true.
Hypothesis Hb : proper b = true.

Lemma union_bounds :
  Num.leb s0 sa = true /\ Num.leb s0 sb = true
  /\ Num.leb ea e0 = true /\ Num.leb eb e0 = true.
Proof.
  destruct (proper_fields _ _ _ _ Ha) as (Hlea & _).
  destruct (proper_fields _ _ _ _ Hb) as (Hleb & _).
  destruct (leb_not_nan _ _ Hlea) as [Nsa Nea].
  destruct (leb_not_nan _ _ Hleb) as [Nsb Neb].
  subst s0 e0. unfold Num.gtb.
  destruct (Num.ltb sb sa) eqn:Es, (Num.ltb ea eb) eqn:Ee;
    repeat split;
    auto using leb_refl, ltb_true_leb, ltb_false_leb.
Qed.

(** The endpoints and flags given to the constructor do not collapse. *)
Lemma union_keeps : Num.eqb e0 s0 && (eo0 || so0) = false.
Proof.
  destruct union_bounds as (Hsa & Hsb & Hea & Heb).
  destruct (proper_fields _ _ _ _ Ha) as (Hlea & Hnea & Hia & Hja).
  destruct (Num.eqb e0 s0) eqn:E; [|reflexivity].
  rewrite eqb_leb in E. apply andb_prop in E as [E _].
  assert (H1 : Num.leb ea sa = true)
    by (apply (leb_trans _ e0); [exact Hea|];
        apply (leb_trans _ s0); assumption).
  assert (H2 : Num.leb sa s0 = true)
    by (apply (leb_trans _ ea); [exact Hlea|];
        apply (leb_trans _ e0); assumption).
  assert (H3 : Num.leb e0 ea = true)
    by (apply (leb_trans _ s0); [exact E|];
        apply (leb_trans _ sa); assumption).
  subst so0 eo0.
  rewrite (eqb_leb sa s0), (eqb_leb ea e0), H2, Hsa, Hea, H3.
  rewrite (eqb_leb ea sa), H1, Hlea in Hnea. cbn in Hnea |- *.
  destruct eoa, soa; try discriminate Hnea. reflexivity.
Qed.

(** The constructor stores them as they are: an infinite boundary is
    already open. *)
Lemma union_stored : stored s0 e0 so0 eo0 = mk (VNum s0) (VNum e0) so0 eo0.
Proof.
  destruct (proper_fields _ _ _ _ Ha) as (Hlea & Hnea & Hia & Hja).
  destruct (proper_fields _ _ _ _ Hb) as (Hleb & Hneb & Hib & Hjb).
  unfold stored. rewrite union_keeps. f_equal.
  - destruct (Num.isinf s0) eqn:Hi;
      [|rewrite andb_false_r; apply orb_false_r].
    subst so0.
    assert (Fa : negb (Num.eqb sa s0) || soa = true).
    { destruct (Num.eqb sa s0) eqn:E; [|reflexivity].
      rewrite Hia; [reflexivity|]. rewrite (eqb_isinf _ _ E). exact Hi. }
    assert (Fb : negb (Num.eqb sb s0) || sob = true).
    { destruct (Num.eqb sb s0) eqn:E; [|reflexivity].
      rewrite Hib; [reflexivity|]. rewrite (eqb_isinf _ _ E). exact Hi. }
    rewrite Fa, Fb. reflexivity.
  - destruct (Num.isinf e0) eqn:Hi;
      [|rewrite andb_false_r; apply orb_false_r].
    subst eo0.
    assert (Fa : negb (Num.eqb ea e0) || eoa = true).
    { destruct (Num.eqb ea e0) eqn:E; [|reflexivity].
      rewrite Hja; [reflexivity|]. rewrite (eqb_isinf _ _ E). exact Hi. }
    assert (Fb : negb (Num.eqb eb e0) || eob = true).
    { destruct (Num.eqb eb e0) eqn:E; [|reflexivity].
      rewrite Hjb; [reflexivity|]. rewrite (eqb_isinf _ _ E). exact Hi. }
    rewrite Fa, Fb. reflexivity.
Qed.

Lemma union_of_two :
  union (Many [OInterval a; OInterval b])
  = Ok (mk (VNum s0) (VNum e0) so0 eo0).
Proof.
  rewrite (union_pair a b (proper_not_empty a Ha) (proper_not_empty b Hb)).
  cbn [Py.min Py.max Py.extremum Py.lt Py.gt Py.cmp a b start end_ bind].
  replace (start (if Num.ltb sb sa then b else a)) with (VNum s0)
    by (subst s0; destruct (Num.ltb sb sa); reflexivity).
  replace (end_ (if Num.gtb eb ea then b else a)) with (VNum e0)
    by (subst e0; destruct (Num.gtb eb ea); reflexivity).
  rewrite init_num, !filter_pair, !none_closed.
  apply f_equal. exact union_stored.
Qed.

(** The superset test of the union against an input [v] whose start is not
    below [s0], whose end is not above [e0], and that is open wherever the
    union is open at a boundary they share. *)
Lemma superset_of_input (sv ev : num) (sov eov : bool) :
  Num.leb s0 sv = true ->
  Num.leb ev e0 = true ->
  Num.eqb sv s0 && so0 && negb sov = false ->
  Num.eqb ev e0 && eo0 && negb eov = false ->
  is_superset_of (mk (VNum s0) (VNum e0) so0 eo0)
                 (OInterval (mk (VNum sv) (VNum ev) sov eov))
  = Ok true.
Proof.
  intros Hs He Hso Heo. unfold is_superset_of, is_empty.
  cbn [start end_ start_open end_open parse bind Py.eq Py.gt Py.lt Py.cmp].
  rewrite union_keeps.
  destruct (Num.eqb ev sv && (eov || sov)); [reflexivity|].
  unfold Num.gtb. rewrite (leb_ltb_false _ _ Hs), (leb_ltb_false _ _ He).
  rewrite (Num_eqb_sym s0 sv), (Num_eqb_sym e0 ev), Hso, Heo.
  reflexivity.
Qed.

Lemma union_superset_left :
  is_superset_of (mk (VNum s0) (VNum e0) so0 eo0) (OInterval a) = Ok true.
Proof.
  destruct union_bounds as (Hsa & Hsb & Hea & Heb).
  apply superset_of_input; try assumption; subst so0 eo0.
  - destruct (Num.eqb sa s0), soa; try reflexivity; apply andb_false_r.
  - destruct (Num.eqb ea e0), eoa; try reflexivity; apply andb_false_r.
Qed.

Lemma union_superset_right :
  is_superset_of (mk (VNum s0) (VNum e0) so0 eo0) (OInterval b) = Ok true.
Proof.
  destruct union_bounds as (Hsa & Hsb & Hea & Heb).
  apply superset_of_input; try assumption; subst so0 eo0.
  - destruct (Num.eqb sb s0), sob; try reflexivity;
      rewrite ?andb_false_r; reflexivity.
  - destruct (Num.eqb eb e0), eob; try reflexivity;
      rewrite ?andb_false_r; reflexivity.
Qed.

End UnionOfTwo.

(** C7, counterexample: the closed point at [-inf] and [[0, 1]] are not
    empty; their union is [(-inf, 1]], whose start the constructor opens,
    and the union is not a superset of the point. *)
Lemma union_point_at_infinity_counterexample :
  exists a b u,
    point ninf = Ok a
    /\ closed (int 0) (int 1) = Ok b
    /\ is_empty a = false
    /\ is_empty b = false
    /\ union (Many [OInterval a; OInterval b]) = Ok u
    /\ is_superset_of u (OInterval a) = Ok false.
Proof.
  exists (mk ninf ninf false false), (mk (int 0) (int 1) false false),
    (mk ninf (int 1) true false).
  repeat split.
Qed.

(** C7, amended: for all non-empty intervals [a] and [b] with numeric
    endpoints [start <= end] whose infinite endpoints are open (every
    interval the constructor returns for such endpoints except a closed
    point at an infinity), [union([a, b])] succeeds and is a superset of
    [a] and of [b]; its start is the smaller start, its end the larger end,
    and a boundary of the union is open exactly when every input attaining
    that boundary value is open there. *)
Theorem union_is_superset (a b : t) :
  proper a = true ->
  proper b = true ->
  exists u,
    union (Many [OInterval a; OInterval b]) = Ok u
    /\ is_superset_of u (OInterval a) = Ok true
    /\ is_superset_of u (OInterval b) = Ok true
    /\ Py.le (start u) (start a) = Ok true
    /\ Py.le (start u) (start b) = Ok true
    /\ (start u = start a \/ start u = start b)
    /\ Py.ge (end_ u) (end_ a) = Ok true
    /\ Py.ge (end_ u) (end_ b) = Ok true
    /\ (end_ u = end_ a \/ end_ u = end_ b)
    /\ start_open u = forallb start_open (List.filter (at_start u) [a; b])
    /\ end_open u = forallb end_open (List.filter (at_end u) [a; b]).
Proof.
  intros Ha Hb.
  destruct a as [[|sa] [|ea] soa eoa]; try discriminate.
  destruct b as [[|sb] [|eb] sob eob]; try discriminate.
  destruct (union_bounds _ _ _ _ _ _ _ _ Ha Hb) as (Hsa & Hsb & Hea & Heb).
  eexists. split; [exact (union_of_two _ _ _ _ _ _ _ _ Ha Hb)|].
  split; [exact (union_superset_left _ _ _ _ _ _ _ _ Ha Hb)|].
  split; [exact (union_superset_right _ _ _ _ _ _ _ _ Ha Hb)|].
  cbn [start end_ start_open end_open Py.le Py.ge Py.cmp].
  unfold Num.geb. rewrite Hsa, Hsb, Hea, Heb.
  repeat split.
  - destruct (Num.ltb sb sa); auto.
  - unfold Num.gtb. destruct (Num.ltb ea eb); auto.
  - rewrite filter_pair, all_open. reflexivity.
  - rewrite filter_pair, all_open. reflexivity.
Qed.

Lemma union_is_superset_witness :
  exists u,
    union (Many [OInterval (mk (int 0) (int 1) false false);
                 OInterval (mk (int 1) pinf true true)]) = Ok u
    /\ is_superset_of u (OInterval (mk (int 0) (int 1) false false)) = Ok true
    /\ is_superset_of u (OInterval (mk (int 1) pinf true true)) = Ok true.
Proof.
  destruct (union_is_superset (mk (int 0) (int 1) false false)
              (mk (int 1) pinf true true) eq_refl eq_refl)
    as (u & Hu & Hl & Hr & _).
  exists u. repeat split; assumption.
Defined.

(** ** The sorted search *)

Section Bisect.

Lemma ascending_nth (l : list num) :
  ascending l = true ->
  forall i j x y, (i <= j)%nat ->
    nth_error l i = Some x -> nth_error l j = Some y -> Num.leb x y = true.
Proof.
  induction l as [|z l IH]; intros Hasc i j x y Hij Hi Hj.
  - destruct i; discriminate Hi.
  - cbn in Hasc. apply andb_prop in Hasc as [Hz Hl].
    apply andb_prop in Hz as [Hzz Hall].
    destruct i as [|i], j as [|j]; cbn in Hi, Hj.
    + congruence.
    + injection Hi as <-. rewrite forallb_forall in Hall.
      apply Hall. eapply nth_error_In. exact Hj.
    + lia.
    + apply (IH Hl i j); auto. lia.
Qed.

Variable values : list value.
Variable key : option (value -> value).
Variable l : list num.

Hypothesis Hkeys : List.map (key_of key) values = List.map VNum l.

Lemma keys_length : List.length values = List.length l.
Proof.
  rewrite <- (length_map (key_of key) values), Hkeys. apply length_map.
Qed.

(** Reading a value at an index inside the list and taking its key. *)
Lemma getitem_key (k : nat) (y : num) :
  nth_error l k = Some y ->
  exists v, Py.getitem values (Z.of_nat k) = Ok v /\ key_of key v = VNum y.
Proof.
  intros Hy. unfold Py.getitem.
  destruct (Z.ltb_spec (Z.of_nat k) 0); [lia|].
  destruct (Z.ltb_spec (Z.of_nat k) 0); [lia|]. rewrite Nat2Z.id.
  assert (Hm : nth_error (List.map (key_of key) values) k = Some (VNum y))
    by (rewrite Hkeys; apply map_nth_error; exact Hy).
  rewrite nth_error_map in Hm.
  destruct (nth_error values k) as [v|]; [|discriminate Hm].
  exists v. split; [reflexivity|]. cbn in Hm. congruence.
Qed.

Hypothesis Hasc : ascending l = true.

Lemma bisect_loop_spec (x : num) (fuel : nat) :
  forall lo hi : nat,
    (lo <= hi <= List.length l)%nat ->
    (hi - lo <= fuel)%nat ->
    below l x lo ->
    not_below l x hi ->
    exists b : nat,
      util.bisect_loop fuel values key (VNum x) (Z.of_nat lo) (Z.of_nat hi)
      = Ok (Z.of_nat b)
      /\ (lo <= b <= hi)%nat
      /\ below l x b
      /\ not_below l x b.
Proof.
  induction fuel as [|fuel IH]; intros lo hi Hb Hf Hlo Hhi.
  - assert (lo = hi) by lia. subst hi. exists lo. cbn.
    rewrite Z.ltb_irrefl. auto with arith.
  - cbn [util.bisect_loop].
    destruct (Z.of_nat lo <? Z.of_nat hi)%Z eqn:E.
    + apply Z.ltb_lt in E.
      set (mid := ((lo + hi) / 2)%nat).
      assert (Hmid : ((Z.of_nat lo + Z.of_nat hi) / 2)%Z = Z.of_nat mid).
      { subst mid. rewrite Nat2Z.inj_div, Nat2Z.inj_add. reflexivity. }
      assert (Hm : (lo <= mid < hi)%nat).
      { subst mid. split.
        - apply Nat.div_le_lower_bound; lia.
        - apply Nat.Div0.div_lt_upper_bound; lia. }
      rewrite Hmid.
      destruct (nth_error l mid) as [y|] eqn:Hy;
        [|apply nth_error_None in Hy; lia].
      destruct (getitem_key mid y Hy) as (v & Hv & Hk).
      rewrite Hv. cbn [bind].
      replace (match key with Some k => k v | None => v end)
        with (key_of key v) by (destruct key; reflexivity).
      rewrite Hk. cbn [Py.lt Py.cmp bind].
      destruct (Num.ltb y x) eqn:Hlt.
      * replace (Z.of_nat mid + 1)%Z with (Z.of_nat (S mid)) by lia.
        destruct (IH (S mid) hi) as (b & Hr & Hbb & Hbl & Hnb);
          [lia | lia | | exact Hhi |].
        -- intros k z Hk' Hz.
           apply (leb_ltb_trans z y x); [|exact Hlt].
           apply (ascending_nth l Hasc k mid); auto. lia.
        -- exists b. repeat split; auto; lia.
      * destruct (IH lo mid) as (b & Hr & Hbb & Hbl & Hnb);
          [lia | lia | exact Hlo | |].
        -- intros k z Hk' Hz.
           destruct (Num.ltb z x) eqn:Hzx; [|reflexivity].
           rewrite <- Hlt. symmetry. apply (leb_ltb_trans y z x); [|exact Hzx].
           apply (ascending_nth l Hasc mid k); auto.
        -- exists b. repeat split; auto; lia.
    + apply Z.ltb_ge in E. assert (lo = hi) by lia. subst hi.
      exists lo. auto with arith.
Qed.

(** The result of the search for a number [x]: an index [b] such that the
    items below [x] are exactly those before [b]; for [+inf] the search
    answers the length without looking at the items. *)
Lemma bisect_objects_spec (x : num) :
  exists b : nat,
    util.bisect_objects values (VNum x) 0 None key = Ok (Z.of_nat b)
    /\ (b <= List.length l)%nat
    /\ (x = PosInf -> b = List.length l)
    /\ (x <> PosInf -> below l x b /\ not_below l x b).
Proof.
  unfold util.bisect_objects.
  cbn [Z.ltb Z.compare Py.is_Number Py.is_None negb assert bind Py.isinf].
  destruct (Num.isinf x) eqn:Hinf.
  - destruct x; try discriminate Hinf; cbn.
    + exists 0%nat. split; [reflexivity|]. split; [lia|].
      split; [discriminate|]. intros _. split.
      * intros k y Hk. lia.
      * intros k y _ _. destruct y; reflexivity.
    + exists (List.length l). rewrite keys_length.
      split; [reflexivity|]. split; [lia|]. split; [reflexivity|].
      intros Hne. contradiction Hne. reflexivity.
  - rewrite Z.sub_0_r, Nat2Z.id, keys_length.
    destruct (bisect_loop_spec x (List.length l) 0 (List.length l))
      as (b & Hr & Hb & Hbl & Hnb); try lia.
    + intros k y Hk. lia.
    + intros k y Hk Hy.
      assert (nth_error l k = None) by (apply nth_error_None; exact Hk).
      congruence.
    + exists b. cbn [Z.of_nat] in Hr. rewrite Hr.
      repeat split; auto; try lia.
      intros ->. discriminate Hinf.
Qed.

End Bisect.

(** X1: on values whose keys are ascending numbers, [bisect_objects]
    returns the leftmost insertion point of a number [x] other than
    [+inf]: the items whose key is below [x] are exactly those before the
    returned index. *)
Theorem bisect_objects_sorted
        (values : list value) (key : option (value -> value)) (l : list num)
        (x : num) :
  List.map (key_of key) values = List.map VNum l ->
  ascending l = true ->
  x <> PosInf ->
  exists b : nat,
    util.bisect_objects values (VNum x) 0 None key = Ok (Z.of_nat b)
    /\ (b <= List.length values)%nat
    /\ (forall k y, nth_error l k = Some y -> Num.ltb y x = (k <? b)%nat).
Proof.
  intros Hkeys Hasc Hx.
  destruct (bisect_objects_spec values key l Hkeys Hasc x)
    as (b & Hr & Hb & _ & Hspec).
  destruct (Hspec Hx) as [Hbl Hnb].
  exists b. split; [exact Hr|]. split.
  - rewrite (keys_length values key l Hkeys). exact Hb.
  - intros k y Hy. destruct (Nat.ltb_spec k b).
    + apply (Hbl k y); assumption.
    + apply (Hnb k y); assumption.
Qed.

Lemma bisect_objects_sorted_witness :
  exists b : nat,
    util.bisect_objects [int 1; int 3; int 3; int 7] (int 3) 0 None None
    = Ok (Z.of_nat b)
    /\ (b <= 4)%nat
    /\ (forall k y,
           nth_error [Fin (inject_Z 1); Fin (inject_Z 3); Fin (inject_Z 3);
                      Fin (inject_Z 7)] k = Some y ->
           Num.ltb y (Fin (inject_Z 3)) = (k <? b)%nat).
Proof.
  apply (bisect_objects_sorted [int 1; int 3; int 3; int 7] None
           [Fin (inject_Z 1); Fin (inject_Z 3); Fin (inject_Z 3);
            Fin (inject_Z 7)] (Fin (inject_Z 3))).
  - reflexivity.
  - reflexivity.
  - discriminate.
Defined.

(** ** index_range away from the boundaries *)

Section IndexRange.

Variables (s e : num) (so eo : bool).

Let i := mk (VNum s) (VNum e) so eo.

Hypothesis Hi : proper i = true.

Lemma contains_below (y : num) :
  Num.ltb y s = true -> contains i (VNum y) true true = Ok false.
Proof.
  destruct (proper_fields _ _ _ _ Hi) as (Hle & Hne & Hso & Heo).
  unfold contains, is_empty, is_negative_infinite, is_positive_infinite, Py.ne.
  cbn [i start end_ start_open end_open Py.is_None Py.eq orb Py.isinf bind
         Py.lt Py.gt Py.cmp].
  rewrite Hne. intros Hlt. rewrite Hlt.
  destruct s, e, y; try discriminate; try reflexivity;
    simpl in *; qcase; try reflexivity; try congruence.
Qed.

Lemma contains_above (y : num) :
  Num.gtb y e = true -> contains i (VNum y) true true = Ok false.
Proof.
  destruct (proper_fields _ _ _ _ Hi) as (Hle & Hne & Hso & Heo).
  unfold contains, is_empty, is_negative_infinite, is_positive_infinite, Py.ne.
  cbn [i start end_ start_open end_open Py.is_None Py.eq orb Py.isinf bind
         Py.lt Py.gt Py.cmp].
  rewrite Hne. intros Hgt. rewrite Hgt. clear Hne Hso Heo.
  unfold Num.gtb in Hgt.
  destruct s, e, y; try discriminate Hle; try discriminate Hgt; cbn;
    repeat (match goal with
            | |- context [if ?c then _ else _] => destruct c
            end; cbn);
    reflexivity.
Qed.

Lemma contains_between (y : num) :
  Num.isnan y = false ->
  Num.ltb y s = false ->
  Num.gtb y e = false ->
  (so = true -> Num.isinf y = false -> Num.eqb y s = false) ->
  (eo = true -> Num.isinf y = false -> Num.eqb y e = false) ->
  contains i (VNum y) true true = Ok true.
Proof.
  destruct (proper_fields _ _ _ _ Hi) as (Hle & Hne & Hso & Heo).
  unfold contains, is_empty, is_negative_infinite, is_positive_infinite, Py.ne.
  cbn [i start end_ start_open end_open Py.is_None Py.eq orb Py.isinf bind
         Py.lt Py.gt Py.cmp].
  intros Hnan Hlt Hgt Hs He. rewrite Hlt, Hgt.
  rewrite (Num_eqb_sym s e).
  destruct s as [| |qs|], e as [| |qe|]; try discriminate Hle;
    destruct y as [| |qy|]; try discriminate;
    destruct so, eo; cbn in Hne, Hso, Heo, Hs, He |- *;
    try discriminate Hne;
    try (rewrite Hs by reflexivity); try (rewrite He by reflexivity);
    try reflexivity;
    try (discriminate (Hso eq_refl)); try (discriminate (Heo eq_refl));
    rewrite ?andb_true_r in Hne; rewrite ?Hne;
    try (destruct (Qeq_bool qe qs)); reflexivity.
Qed.

Variable values : list value.
Variable key : option (value -> value).
Variable l : list num.

Hypothesis Hkeys : List.map (key_of key) values = List.map VNum l.

(** The first loop stops at the first item that is not below [start]. *)
Lemma skip_below_spec (b0 i1 : nat) :
  below l s b0 ->
  not_below l s b0 ->
  (b0 <= i1 <= List.length l)%nat ->
  forall fuel j,
    (j <= b0)%nat ->
    (b0 - j < fuel)%nat ->
    skip_below fuel i values (key_of key) (Z.of_nat j) (Z.of_nat i1)
    = Ok (Z.of_nat b0).
Proof.
  intros Hbl Hnb Hb. induction fuel as [|fuel IH]; intros j Hj Hf; [lia|].
  cbn [skip_below]. destruct (Z.eqb_spec (Z.of_nat j) (Z.of_nat i1)) as [E|E].
  - f_equal. lia.
  - destruct (nth_error l j) as [y|] eqn:Hy;
      [|apply nth_error_None in Hy; lia].
    destruct (getitem_key values key l Hkeys j y Hy) as (v & Hv & Hk).
    rewrite Hv. cbn [bind]. rewrite Hk. cbn [Py.lt Py.cmp i start bind].
    destruct (Nat.eq_dec j b0) as [->|Hne].
    + rewrite (Hnb b0 y (Nat.le_refl _) Hy). reflexivity.
    + assert (Hlt : (j < b0)%nat) by lia.
      rewrite (Hbl j y Hlt Hy). fold i. rewrite (contains_below y (Hbl j y Hlt Hy)).
      cbn [bind negb].
      replace (Z.of_nat j + 1)%Z with (Z.of_nat (S j)) by lia.
      apply IH; lia.
Qed.

(** The second loop stops after the last item that is not above [end]. *)
Lemma drop_above_spec (i0 c : nat) :
  (forall k y, (k < c)%nat -> nth_error l k = Some y -> Num.gtb y e = false) ->
  (forall k y, (c <= k)%nat -> nth_error l k = Some y -> Num.gtb y e = true) ->
  (i0 <= c)%nat ->
  forall fuel j,
    (c <= j <= List.length l)%nat ->
    (j - c < fuel)%nat ->
    drop_above fuel i values (key_of key) (Z.of_nat i0) (Z.of_nat j)
    = Ok (Z.of_nat c).
Proof.
  intros Hlo Hhi Hi0. induction fuel as [|fuel IH]; intros j Hj Hf; [lia|].
  cbn [drop_above].
  destruct (Z.eqb_spec (Z.of_nat j) 0) as [E0|E0];
    [cbn [negb andb]; f_equal; lia|].
  destruct (Z.eqb_spec (Z.of_nat i0) (Z.of_nat j)) as [E1|E1];
    [cbn [negb andb]; f_equal; lia|].
  cbn [negb andb].
  replace (Z.of_nat j - 1)%Z with (Z.of_nat (j - 1)) by lia.
  destruct (nth_error l (j - 1)) as [y|] eqn:Hy;
    [|apply nth_error_None in Hy; lia].
  destruct (getitem_key values key l Hkeys (j - 1) y Hy) as (v & Hv & Hk).
  rewrite Hv. cbn [bind]. rewrite Hk. cbn [Py.gt Py.cmp i end_ bind].
  destruct (Nat.eq_dec j c) as [->|Hne].
  - rewrite (Hlo (c - 1)%nat y) by (auto; lia). reflexivity.
  - assert (Hgt : Num.gtb y e = true) by (apply (Hhi (j - 1)%nat); auto; lia).
    rewrite Hgt. fold i. rewrite (contains_above y Hgt). cbn [bind negb].
    apply IH; lia.
Qed.

End IndexRange.

Lemma ascending_not_nan (l : list num) (k : nat) (y : num) :
  ascending l = true -> nth_error l k = Some y -> Num.isnan y = false.
Proof.
  intros Hasc Hy.
  apply (leb_not_nan y y). apply (ascending_nth l Hasc k k); auto.
Qed.

(** X2: for a non-empty interval of numbers [start <= end] with open
    infinite endpoints and values whose keys are ascending numbers, when no
    finite key equals the end and no finite key equals an open start,
    [index_range] returns [(i0, i1)] such that the values whose key the
    interval contains are exactly those at the indices [i0 <= k < i1]. *)
Theorem index_range_exact
        (i : t) (values : list value) (key : option (value -> value))
        (l : list num) :
  proper i = true ->
  List.map (key_of key) values = List.map VNum l ->
  ascending l = true ->
  (start_open i = true ->
   forall y, In y l -> Num.isinf y = false -> Py.eq (VNum y) (start i) = false) ->
  (forall y, In y l -> Num.isinf y = false -> Py.eq (VNum y) (end_ i) = false) ->
  exists i0 i1 : nat,
    index_range i values key = Ok (Z.of_nat i0, Z.of_nat i1)
    /\ (i0 <= i1 <= List.length values)%nat
    /\ (forall k y, nth_error l k = Some y ->
                    contains i (VNum y) true true
                    = Ok ((i0 <=? k)%nat && (k <? i1)%nat)).
Proof.
  intros Hi Hkeys Hasc H1 H2.
  pose proof (proper_not_empty i Hi) as Hne.
  destruct i as [[|s] [|e] so eo]; try discriminate Hi.
  cbn [start end_ start_open Py.eq] in H1, H2.
  destruct (proper_fields _ _ _ _ Hi) as (Hle & Hkeep & Hso & Heo).
  destruct (leb_not_nan _ _ Hle) as [Ns Ne].
  pose proof (keys_length values key l Hkeys) as Hlen.
  assert (Hs : s <> PosInf).
  { intros ->. destruct e; try discriminate Hle.
    rewrite (Hso eq_refl) in Hkeep. cbn in Hkeep.
    rewrite orb_true_r in Hkeep. discriminate Hkeep. }
  assert (He : e <> NegInf).
  { intros ->. destruct s; try discriminate Hle.
    rewrite (Heo eq_refl) in Hkeep. discriminate Hkeep. }
  (* the two searches *)
  destruct (bisect_objects_spec values key l Hkeys Hasc s)
    as (b0 & Hr0 & Hb0 & _ & Hspec0).
  destruct (Hspec0 Hs) as [Hbl0 Hnb0]. clear Hspec0.
  destruct (bisect_objects_spec values key l Hkeys Hasc e)
    as (b1 & Hr1 & Hb1 & Hinf1 & Hspec1).
  (* the items not above the end are those before b1 *)
  assert (Hlo1 : forall k y, (k < b1)%nat -> nth_error l k = Some y ->
                             Num.gtb y e = false).
  { intros k y Hk Hy. unfold Num.gtb.
    destruct e as [| |qe|]; try discriminate Ne; [contradiction He; reflexivity| |].
    - destruct (Hspec1 ltac:(discriminate)) as [Hbl1 _].
      apply ltb_asym. apply (Hbl1 k y Hk Hy).
    - destruct y; reflexivity. }
  assert (Hhi1 : forall k y, (b1 <= k)%nat -> nth_error l k = Some y ->
                             Num.gtb y e = true).
  { intros k y Hk Hy. unfold Num.gtb.
    assert (Hky : (k < List.length l)%nat)
      by (apply nth_error_Some; congruence).
    destruct (Num.eqb e PosInf) eqn:Ee.
    - destruct e; try discriminate Ee. specialize (Hinf1 eq_refl). lia.
    - assert (Hep : e <> PosInf) by (intros ->; discriminate Ee).
      destruct (Hspec1 Hep) as [_ Hnb1].
      apply ltb_trichotomy.
      + apply (ascending_not_nan l k y Hasc Hy).
      + exact Ne.
      + apply (Hnb1 k y Hk Hy).
      + destruct (Num.isinf y) eqn:Hyinf.
        * destruct y, e; try discriminate Hyinf; try reflexivity;
            try discriminate Ne; try (contradiction He; reflexivity);
            contradiction Hep; reflexivity.
        * apply H2; auto. eapply nth_error_In. exact Hy. }
  assert (Hb01 : (b0 <= b1)%nat).
  { destruct (Nat.le_gt_cases b0 b1) as [|Hgt]; [assumption|exfalso].
    destruct (nth_error l b1) as [y|] eqn:Hy;
      [|apply nth_error_None in Hy; lia].
    pose proof (Hbl0 b1 y Hgt Hy) as Hys.
    pose proof (Hhi1 b1 y (Nat.le_refl _) Hy) as Hye. unfold Num.gtb in Hye.
    pose proof (ltb_leb_trans _ _ _ Hys Hle) as Hlt.
    rewrite (ltb_asym _ _ Hlt) in Hye. discriminate Hye. }
  (* membership of the item at index k *)
  assert (Hmem : forall k y, nth_error l k = Some y ->
            contains (mk (VNum s) (VNum e) so eo) (VNum y) true true
            = Ok ((b0 <=? k)%nat && (k <? b1)%nat)).
  { intros k y Hy.
    destruct (Nat.leb_spec b0 k) as [H0|H0]; cbn [andb].
    - destruct (Nat.ltb_spec k b1) as [H1'|H1'].
      + apply (contains_between s e so eo Hi).
        * apply (ascending_not_nan l k y Hasc Hy).
        * apply (Hnb0 k y H0 Hy).
        * apply (Hlo1 k y H1' Hy).
        * intros ->. intros Hyinf. apply (H1 eq_refl); auto.
          eapply nth_error_In. exact Hy.
        * intros _ Hyinf. apply H2; auto. eapply nth_error_In. exact Hy.
      + apply (contains_above s e so eo Hi). apply (Hhi1 k y H1' Hy).
    - apply (contains_below s e so eo Hi). apply (Hbl0 k y H0 Hy). }
  unfold index_range. rewrite Hne.
  destruct (Z.eqb_spec (Z.of_nat (List.length values)) 0) as [E|E].
  - (* no values *)
    cbn [bind]. exists 0%nat, 0%nat. rewrite E.
    split; [reflexivity|]. split; [lia|].
    intros k y Hy. assert (List.length l = 0%nat) by lia.
    destruct l; [destruct k; discriminate Hy | discriminate].
  - unfold is_infinite, is_negative_infinite, is_positive_infinite, Py.ne.
    cbn [start end_ Py.eq Py.isinf bind].
    destruct (Num.eqb s e) eqn:Ese; cbn [negb bind].
    + (* a point interval *)
      rewrite Hr0, Hr1. cbn [bind].
      replace (Z.max 0 (Z.of_nat b0 - 1)) with (Z.of_nat (b0 - 1)) by lia.
      replace (Z.min (Z.of_nat (List.length values)) (Z.of_nat b1 + 1))
        with (Z.of_nat (Nat.min (List.length l) (b1 + 1))) by lia.
      change (match key with None => fun x => x | Some k => k end)
        with (key_of key).
      rewrite (skip_below_spec s e so eo Hi values key l Hkeys b0
                 (Nat.min (List.length l) (b1 + 1)) Hbl0 Hnb0) by lia.
      cbn [bind].
      rewrite (drop_above_spec s e so eo Hi values key l Hkeys b0 b1
                 Hlo1 Hhi1 Hb01) by lia.
      cbn [bind]. exists b0, b1. split; [reflexivity|].
      split; [lia | exact Hmem].
    + destruct (Num.isinf s && Num.isinf e) eqn:Einf.
      * (* the whole line *)
        apply andb_prop in Einf as [Is Ie].
        rewrite Is, Ie.
        assert (s = NegInf)
          by (destruct s; try discriminate Is; congruence).
        assert (e = PosInf)
          by (destruct e; try discriminate Ie; congruence).
        subst s e.
        exists 0%nat, (List.length values). split; [reflexivity|].
        split; [lia|]. intros k y Hy.
        assert (Hky : (k < List.length l)%nat)
          by (apply nth_error_Some; congruence).
        rewrite (Hmem k y Hy).
        assert (b0 = 0%nat).
        { destruct b0 as [|b]; [reflexivity|].
          destruct (nth_error l 0) as [z|] eqn:Hz;
            [|apply nth_error_None in Hz; lia].
          pose proof (Hbl0 0%nat z ltac:(lia) Hz) as Hf.
          destruct z; discriminate Hf. }
        rewrite (Hinf1 eq_refl), Hlen. subst b0. reflexivity.
      * replace (if Num.isinf s then Ok (Num.isinf e) else Ok false)
          with (@Ok bool false)
          by (destruct (Num.isinf s), (Num.isinf e);
              try reflexivity; discriminate Einf).
        rewrite Hr0, Hr1. cbn [bind].
        replace (Z.max 0 (Z.of_nat b0 - 1)) with (Z.of_nat (b0 - 1)) by lia.
        replace (Z.min (Z.of_nat (List.length values)) (Z.of_nat b1 + 1))
          with (Z.of_nat (Nat.min (List.length l) (b1 + 1))) by lia.
        change (match key with None => fun x => x | Some k => k end)
          with (key_of key).
        rewrite (skip_below_spec s e so eo Hi values key l Hkeys b0
                   (Nat.min (List.length l) (b1 + 1)) Hbl0 Hnb0) by lia.
        cbn [bind].
        rewrite (drop_above_spec s e so eo Hi values key l Hkeys b0 b1
                   Hlo1 Hhi1 Hb01) by lia.
        cbn [bind]. exists b0, b1. split; [reflexivity|].
        split; [lia | exact Hmem].
Qed.

Lemma index_range_exact_witness :
  exists i0 i1 : nat,
    index_range (mk (int 2) (int 6) true false)
                [int 1; int 3; int 3; int 5; int 7] None
    = Ok (Z.of_nat i0, Z.of_nat i1)
    /\ (i0 <= i1 <= 5)%nat
    /\ (forall k y,
           nth_error [Fin (inject_Z 1); Fin (inject_Z 3); Fin (inject_Z 3);
                      Fin (inject_Z 5); Fin (inject_Z 7)] k = Some y ->
           contains (mk (int 2) (int 6) true false) (VNum y) true true
           = Ok ((i0 <=? k)%nat && (k <? i1)%nat)).
Proof.
  apply (index_range_exact (mk (int 2) (int 6) true false)
           [int 1; int 3; int 3; int 5; int 7] None
           [Fin (inject_Z 1); Fin (inject_Z 3); Fin (inject_Z 3);
            Fin (inject_Z 5); Fin (inject_Z 7)]).
  - reflexivity.
  - reflexivity.
  - reflexivity.
  - intros _ y Hy _.
    repeat (destruct Hy as [<-|Hy]; [reflexivity|]). destruct Hy.
  - intros y Hy _.
    repeat (destruct Hy as [<-|Hy]; [reflexivity|]). destruct Hy.
Defined.

(** ** index_range at the boundaries *)

(** C1 (the code departs from the claim): on sorted values, [index_range]
    keeps a value equal to an open start, keeps a value equal to an open
    end, and keeps only the first of several values equal to a closed end.
    - [[0, 5]] on [[1, 5, 5]]: the range is [(0, 2)], yet all three values
      are contained.
    - [(0, 5)] on [[0, 1, 2]]: the range is [(0, 3)], yet [0] is not
      contained.
    - [[0, 5)] on [[1, 5]]: the range is [(0, 2)], yet [5] is not
      contained. *)
Theorem index_range_boundary_values :
  let c := mk (int 0) (int 5) false false in
  let o := mk (int 0) (int 5) true true in
  let co := mk (int 0) (int 5) false true in
  closed (int 0) (int 5) = Ok c
  /\ index_range c [int 1; int 5; int 5] None = Ok (0, 2)%Z
  /\ contains c (int 5) true true = Ok true
  /\ open (int 0) (int 5) = Ok o
  /\ index_range o [int 0; int 1; int 2] None = Ok (0, 3)%Z
  /\ contains o (int 0) true true = Ok false
  /\ closed_open (int 0) (int 5) = Ok co
  /\ index_range co [int 1; int 5] None = Ok (0, 2)%Z
  /\ contains co (int 5) true true = Ok false.
Proof.
  repeat split.
Qed.

(** ** The cases of index_range decided without searching *)



(** ** The start side of contains *)

(** X4: with [enforce_end=False] the result of [contains] does not depend on
    the end boundary: two non-empty intervals of numbers [start <= end] with
    the same start and the same start flag give the same answer for every
    [x]. *)
Theorem contains_start_side_ignores_end (a b : t) (x : value) :
  wellformed a = true ->
  wellformed b = true ->
  start a = start b ->
  start_open a = start_open b ->
  contains a x true false = contains b x true false.
Proof.
  destruct a as [[|s] [|ea] so eoa]; try discriminate.
  destruct b as [[|s'] [|eb] so' eob]; try discriminate.
  unfold wellformed, is_empty.
  cbn [start end_ start_open end_open Py.eq].
  intros Ha Hb [= <-] <-.
  apply andb_prop in Ha as [Ha Hna]. apply andb_prop in Hb as [Hb Hnb].
  apply negb_true_iff in Hna, Hnb.
  unfold contains, is_empty, is_negative_infinite, is_positive_infinite, Py.ne.
  cbn [start end_ start_open end_open Py.eq Py.isinf].
  rewrite Hna, Hnb. destruct x as [|y]; [reflexivity|].
  cbn [Py.is_None orb Py.lt Py.cmp Py.eq].
  rewrite (Num_eqb_sym s ea), (Num_eqb_sym s eb).
  destruct s as [| |qs|]; try discriminate Ha;
    destruct ea as [| |qa|]; try discriminate Ha;
    destruct eb as [| |qb|]; try discriminate Hb;
    destruct y as [| |qy|]; cbn in Hna, Hnb |- *;
    try reflexivity;
    destruct so, eoa, eob; cbn in Hna, Hnb |- *;
    try discriminate Hna; try discriminate Hnb;
    repeat (match goal with
            | |- context [Qeq_bool ?p ?r] =>
                destruct (Qeq_bool p r) eqn:?; cbn
            end);
    try reflexivity; try discriminate.
Qed.

Lemma contains_start_side_ignores_end_witness :
  contains (mk (int 0) (int 5) true true) (int 7) true false
  = contains (mk (int 0) (int 9) true false) (int 7) true false.
Proof.
  apply contains_start_side_ignores_end; reflexivity.
Defined.

(** ** The iteration budgets *)

Section Budget.

Lemma within_budget_bind (A B : Type) (c : res A) (k : A -> res B) :
  within_budget c ->
  (forall a, c = Ok a -> within_budget (k a)) ->
  within_budget (bind c k).
Proof.
  intros Hc Hk. destruct c as [a|e]; cbn.
  - apply Hk. reflexivity.
  - intros [= ->]. apply Hc. reflexivity.
Qed.

Lemma within_budget_Ok (A : Type) (a : A) : within_budget (Ok a).
Proof. discriminate. Qed.

Lemma getitem_within (A : Type) (l : list A) (k : Z) :
  within_budget (Py.getitem l k).
Proof.
  unfold Py.getitem, within_budget.
  destruct (_ <? 0)%Z; [discriminate|].
  destruct (nth_error _ _); discriminate.
Qed.

Lemma getitem_bounds (A : Type) (l : list A) (k : Z) (a : A) :
  (0 <= k)%Z -> Py.getitem l k = Ok a -> (k < Z.of_nat (List.length l))%Z.
Proof.
  unfold Py.getitem. intros Hk.
  destruct (Z.ltb_spec k 0); [lia|].
  destruct (Z.ltb_spec k 0); [lia|].
  destruct (nth_error l (Z.to_nat k)) eqn:E; [|discriminate].
  intros _. assert (Z.to_nat k < List.length l)%nat
    by (apply nth_error_Some; congruence).
  lia.
Qed.

Lemma cmp_within (op : num -> num -> bool) (a b : value) :
  within_budget (Py.cmp op a b).
Proof. destruct a, b; discriminate. Qed.

Lemma isinf_within (a : value) : within_budget (Py.isinf a).
Proof. destruct a; discriminate. Qed.

Lemma contains_within (self : t) (x : value) (es ee : bool) :
  within_budget (contains self x es ee).
Proof.
  unfold contains, is_negative_infinite, is_positive_infinite.
  destruct (Py.is_None x || is_empty self); [discriminate|].
  apply within_budget_bind.
  { destruct (Py.ne _ _); [apply isinf_within | discriminate]. }
  intros n _. destruct (n && _); [discriminate|].
  apply within_budget_bind.
  { destruct (Py.ne _ _); [apply isinf_within | discriminate]. }
  intros p _. destruct (p && _); [discriminate|].
  assert (Hend : within_budget
    (if ee
     then
       above <- Py.gt x (end_ self) ;;
       if above then Ok false
       else if start_open self && Py.eq x (start self) then Ok false
       else if end_open self && Py.eq x (end_ self) then Ok false
       else Ok true
     else Ok true)).
  { destruct ee; [|discriminate].
    apply within_budget_bind; [apply cmp_within|].
    intros above _. destruct above; [discriminate|].
    destruct (_ && _); [discriminate|]. destruct (_ && _); discriminate. }
  destruct es; [|exact Hend].
  apply within_budget_bind; [apply cmp_within|].
  intros below _. destruct below; [discriminate|].
  destruct (_ && _); [discriminate | exact Hend].
Qed.

Lemma bisect_loop_budget (a : list value) (key : option (value -> value))
      (x : value) (fuel : nat) :
  forall lo hi : Z,
    (hi - lo <= Z.of_nat fuel)%Z ->
    searched lo (util.bisect_loop fuel a key x lo hi).
Proof.
  induction fuel as [|fuel IH]; intros lo hi Hf; cbn [util.bisect_loop];
    destruct (Z.ltb_spec lo hi) as [Hlt|Hge]; try (cbn; lia).
  assert (Hmid : (lo <= (lo + hi) / 2 < hi)%Z).
  { split.
    - apply Z.div_le_lower_bound; lia.
    - apply Z.div_lt_upper_bound; lia. }
  destruct (Py.getitem a ((lo + hi) / 2)) as [v|e] eqn:Hv.
  - cbn [bind].
    destruct (Py.lt _ x) as [b|e] eqn:Hb.
    + cbn [bind]. destruct b.
      * specialize (IH ((lo + hi) / 2 + 1)%Z hi ltac:(lia)).
        destruct (util.bisect_loop fuel a key x _ hi); cbn in *; [lia|auto].
      * specialize (IH lo ((lo + hi) / 2)%Z ltac:(lia)). exact IH.
    + cbn. intros ->. eapply (cmp_within Num.ltb). exact Hb.
  - cbn. intros ->. apply (getitem_within _ a ((lo + hi) / 2)%Z). exact Hv.
Qed.

Lemma bisect_objects_budget (a : list value) (x : value)
      (key : option (value -> value)) :
  searched 0 (util.bisect_objects a x 0 None key).
Proof.
  unfold util.bisect_objects. cbn [Z.ltb Z.compare].
  destruct (if negb (Py.is_Number x) then _ else _) as [x'|e] eqn:Hx.
  - cbn [bind]. destruct (Py.is_Number x'); cbn [assert bind];
      [|cbn; discriminate].
    destruct x' as [|n]; cbn [Py.isinf bind]; [cbn; discriminate|].
    destruct (Num.isinf n).
    + cbn [Py.gt Py.cmp bind searched]. destruct (Num.gtb n 0); lia.
    + apply bisect_loop_budget. lia.
  - cbn. destruct (negb (Py.is_Number x)); [|discriminate Hx].
    destruct key; [discriminate Hx|]. injection Hx as <-. discriminate.
Qed.

Lemma skip_below_budget (self : t) (values : list value)
      (key : value -> value) (fuel : nat) :
  forall i0 i1 : Z,
    (0 <= i0)%Z ->
    (0 < fuel)%nat ->
    (Z.of_nat (List.length values) - i0 < Z.of_nat fuel)%Z ->
    within_budget (skip_below fuel self values key i0 i1).
Proof.
  induction fuel as [|fuel IH]; intros i0 i1 H0 Hpos Hf; [lia|].
  cbn [skip_below]. destruct (Z.eqb_spec i0 i1); [discriminate|].
  apply within_budget_bind; [apply getitem_within|].
  intros v Hv. pose proof (getitem_bounds _ values i0 v H0 Hv).
  apply within_budget_bind; [apply cmp_within|].
  intros below _. apply within_budget_bind.
  { destruct below; [|discriminate].
    apply within_budget_bind; [apply contains_within | discriminate]. }
  intros out _. destruct out; [|discriminate]. apply IH; lia.
Qed.

Lemma drop_above_budget (self : t) (values : list value)
      (key : value -> value) (fuel : nat) :
  forall i0 i1 : Z,
    (0 <= i1 < Z.of_nat fuel)%Z ->
    within_budget (drop_above fuel self values key i0 i1).
Proof.
  induction fuel as [|fuel IH]; intros i0 i1 Hf; [lia|]. cbn [drop_above].
  destruct (Z.eqb_spec i1 0); [discriminate|].
  destruct (Z.eqb_spec i0 i1); [discriminate|]. cbn [negb andb].
  apply within_budget_bind; [apply getitem_within|].
  intros v _. apply within_budget_bind; [apply cmp_within|].
  intros above _. apply within_budget_bind.
  { destruct above; [|discriminate].
    apply within_budget_bind; [apply contains_within | discriminate]. }
  intros out _. destruct out; [|discriminate]. apply IH; lia.
Qed.

End Budget.

(** X5: the budgets given to the three loops are enough.  For every
    interval, every list of values and every key, [bisect_objects] (with the
    default [lo] and [hi]) and [index_range] return or raise a Python
    exception; they never run out of iterations. *)
Theorem loops_within_budget
        (i : t) (values : list value) (key : option (value -> value))
        (x : value) :
  within_budget (util.bisect_objects values x 0 None key)
  /\ within_budget (index_range i values key).
Proof.
  assert (Hsearch : forall y,
             within_budget (util.bisect_objects values y 0 None key)).
  { intros y. pose proof (bisect_objects_budget values y key) as H.
    destruct (util.bisect_objects values y 0 None key); [discriminate|].
    intros [= ->]. apply H. reflexivity. }
  split; [apply Hsearch|].
  unfold index_range. destruct (is_empty i); [discriminate|].
  apply within_budget_bind.
  { destruct (_ =? 0)%Z; [discriminate|].
    unfold is_infinite, is_negative_infinite, is_positive_infinite.
    apply within_budget_bind.
    - destruct (Py.ne _ _); [apply isinf_within | discriminate].
    - intros n _. destruct n; [|discriminate].
      destruct (Py.ne _ _); [apply isinf_within | discriminate]. }
  intros whole _. destruct whole; [discriminate|].
  apply within_budget_bind; [apply Hsearch|].
  intros b0 _. apply within_budget_bind; [apply Hsearch|].
  intros b1 Hb1.
  pose proof (bisect_objects_budget values (end_ i) key) as H1.
  rewrite Hb1 in H1. cbn in H1.
  apply within_budget_bind.
  { apply skip_below_budget; lia. }
  intros i0 _. apply within_budget_bind; [|discriminate].
  apply drop_above_budget. lia.
Qed.

(** ** Membership in an interval of numbers *)

Lemma Q_lt_bools (p r : Q) :
  (p < r)%Q ->
  Qle_bool p r = true /\ Qle_bool r p = false
  /\ Qeq_bool p r = false /\ Qeq_bool r p = false.
Proof.
  intros H. repeat split.
  - apply Qle_bool_iff. lra.
  - destruct (Qle_bool r p) eqn:E; [|reflexivity]. qprop. lra.
  - destruct (Qeq_bool p r) eqn:E; [|reflexivity]. qprop. lra.
  - destruct (Qeq_bool r p) eqn:E; [|reflexivity]. qprop. lra.
Qed.

Lemma Q_eq_bools (p r : Q) :
  (p == r)%Q ->
  Qle_bool p r = true /\ Qle_bool r p = true
  /\ Qeq_bool p r = true /\ Qeq_bool r p = true.
Proof.
  intros H. repeat split.
  - apply Qle_bool_iff. lra.
  - apply Qle_bool_iff. lra.
  - apply Qeq_bool_iff. lra.
  - apply Qeq_bool_iff. lra.
Qed.

(** Three-way split of a pair of rationals, rewriting their comparisons. *)
Ltac qtri p r :=
  let H := fresh "Hord" in
  let E1 := fresh in let E2 := fresh in let E3 := fresh in let E4 := fresh in
  destruct (Q_dec p r) as [[H|H]|H];
  [ destruct (Q_lt_bools p r H) as (E1 & E2 & E3 & E4)
  | destruct (Q_lt_bools r p H) as (E1 & E2 & E3 & E4)
  | destruct (Q_eq_bools p r H) as (E1 & E2 & E3 & E4) ];
  rewrite ?E1, ?E2, ?E3, ?E4; clear E1 E2 E3 E4;
  try (exfalso; lra).

Ltac qtri_all :=
  repeat (match goal with
          | |- context [Qle_bool ?p ?r] => qtri p r
          | |- context [Qeq_bool ?p ?r] => qtri p r
          end; cbn).

(** Closes a goal of boolean implications once every comparison is
    decided. *)
Ltac bools :=
  cbn;
  repeat match goal with
    | |- _ -> _ => let H := fresh in intro H; try discriminate H
    end;
  try reflexivity; try discriminate; try congruence.

Lemma proper_sides (s e : num) (so eo : bool) :
  proper (mk (VNum s) (VNum e) so eo) = true ->
  s <> PosInf /\ e <> NegInf.
Proof.
  intros Hi. destruct (proper_fields _ _ _ _ Hi) as (Hle & Hkeep & Hso & Heo).
  split; intros ->.
  - destruct e; try discriminate Hle.
    rewrite (Hso eq_refl) in Hkeep. cbn in Hkeep.
    rewrite orb_true_r in Hkeep. discriminate Hkeep.
  - destruct s; try discriminate Hle.
    rewrite (Heo eq_refl) in Hkeep. discriminate Hkeep.
Qed.

(** Membership of a number in a non-empty interval of numbers. *)
Lemma contains_proper (s e : num) (so eo : bool) (y : num) :
  proper (mk (VNum s) (VNum e) so eo) = true ->
  Num.isnan y = false ->
  contains (mk (VNum s) (VNum e) so eo) (VNum y) true true
  = Ok (after s so y && before e eo y).
Proof.
  unfold proper, is_empty, contains, is_empty, is_negative_infinite,
    is_positive_infinite, Py.ne, after, before.
  cbn [start end_ start_open end_open Py.is_None Py.eq orb Py.isinf bind
         Py.lt Py.gt Py.cmp].
  destruct s as [| |s|], e as [| |e|]; try discriminate;
    destruct y as [| |y|]; try discriminate;
    destruct so, eo; cbn; try discriminate; try reflexivity;
    qtri_all; bools.
Qed.

(** Membership in what the constructor returns for [s <= e]: the collapse to
    the empty interval loses no number. *)
Lemma contains_stored (s e : num) (so eo : bool) (y : num) :
  Num.leb s e = true ->
  s <> PosInf ->
  e <> NegInf ->
  Num.isnan y = false ->
  contains (stored s e so eo) (VNum y) true true
  = Ok (after s so y && before e eo y).
Proof.
  intros Hle Hs He Hy.
  unfold stored, after, before, contains, is_empty, is_negative_infinite,
    is_positive_infinite, Py.ne.
  destruct s as [| |s|]; try discriminate Hle;
    try (contradiction Hs; reflexivity);
    destruct e as [| |e|]; try discriminate Hle;
    try (contradiction He; reflexivity);
    destruct y as [| |y|]; try discriminate Hy;
    cbn in Hle; qprop;
    destruct so, eo; cbn; try reflexivity;
    qtri_all; bools.
Qed.

(** No number is at once after a start and before an end below it. *)
Lemma apart_no_number (s e : num) (so eo : bool) (y : num) :
  Num.ltb e s = true ->
  after s so y && before e eo y = false.
Proof.
  unfold after, before.
  destruct s as [| |s|], e as [| |e|]; try discriminate;
    destruct y as [| |y|]; cbn; intros H;
    try (apply negb_true_iff in H; qprop);
    try reflexivity;
    try (destruct so; reflexivity); try (destruct eo; reflexivity);
    try (destruct so, eo; reflexivity);
    qtri_all; bools; destruct so, eo; reflexivity.
Qed.

Section IntersectionOfTwo.

Variables (sa ea sb eb : num) (soa eoa sob eob : bool).

Let a := mk (VNum sa) (VNum ea) soa eoa.
Let b := mk (VNum sb) (VNum eb) sob eob.
Let s0 := if Num.gtb sb sa then sb else sa.
Let e0 := if Num.ltb eb ea then eb else ea.
Let so0 := (Num.eqb sa s0 && soa) || (Num.eqb sb s0 && sob).
Let eo0 := (Num.eqb ea e0 && eoa) || (Num.eqb eb e0 && eob).

(** The intersection of two non-empty intervals of numbers, as the source
    computes it. *)
Lemma intersection_of_two :
  is_empty a = false ->
  is_empty b = false ->
  intersection (Many [OInterval a; OInterval b])
  = if Num.gtb s0 e0 then Ok empty else Ok (stored s0 e0 so0 eo0).
Proof.
  intros Ha Hb. unfold intersection.
  cbn [parse_many mapM parse bind existsb]. rewrite Ha, Hb.
  cbn [orb List.length Nat.eqb Py.max Py.min Py.extremum Py.gt Py.lt Py.cmp
         a b start end_ bind].
  replace (start (if Num.gtb sb sa then b else a)) with (VNum s0)
    by (subst s0; destruct (Num.gtb sb sa); reflexivity).
  replace (end_ (if Num.ltb eb ea then b else a)) with (VNum e0)
    by (subst e0; destruct (Num.ltb eb ea); reflexivity).
  cbn [Py.gt Py.cmp bind]. destruct (Num.gtb s0 e0); [reflexivity|].
  rewrite init_num. do 2 f_equal.
  - subst so0. cbn [List.filter start Py.eq a b].
    destruct (Num.eqb sa s0), (Num.eqb sb s0); cbn;
      rewrite ?orb_false_r; reflexivity.
  - subst eo0. cbn [List.filter end_ Py.eq a b].
    destruct (Num.eqb ea e0), (Num.eqb eb e0); cbn;
      rewrite ?orb_false_r; reflexivity.
Qed.

End IntersectionOfTwo.

(** A number is after the larger start exactly when it is after both
    starts; the flag is the one [intersection] computes. *)
Lemma after_both (sa sb : num) (soa sob : bool) (y : num) :
  Num.isnan sa = false -> Num.isnan sb = false -> Num.isnan y = false ->
  (Num.isinf sa = true -> soa = true) ->
  (Num.isinf sb = true -> sob = true) ->
  after (if Num.gtb sb sa then sb else sa)
        ((Num.eqb sa (if Num.gtb sb sa then sb else sa) && soa)
         || (Num.eqb sb (if Num.gtb sb sa then sb else sa) && sob)) y
  = after sa soa y && after sb sob y.
Proof.
  unfold after, Num.gtb.
  destruct sa as [| |qa|]; try discriminate;
    destruct sb as [| |qb|]; try discriminate;
    destruct y as [| |qy|]; try discriminate;
    intros _ _ _; cbn; intros Ha Hb;
    try (rewrite Ha by reflexivity); try (rewrite Hb by reflexivity);
    try reflexivity;
    try (destruct soa; reflexivity); try (destruct sob; reflexivity);
    qtri_all; destruct soa, sob; reflexivity.
Qed.

Lemma before_both (ea eb : num) (eoa eob : bool) (y : num) :
  Num.isnan ea = false -> Num.isnan eb = false -> Num.isnan y = false ->
  (Num.isinf ea = true -> eoa = true) ->
  (Num.isinf eb = true -> eob = true) ->
  before (if Num.ltb eb ea then eb else ea)
         ((Num.eqb ea (if Num.ltb eb ea then eb else ea) && eoa)
          || (Num.eqb eb (if Num.ltb eb ea then eb else ea) && eob)) y
  = before ea eoa y && before eb eob y.
Proof.
  unfold before.
  destruct ea as [| |qa|]; try discriminate;
    destruct eb as [| |qb|]; try discriminate;
    destruct y as [| |qy|]; try discriminate;
    intros _ _ _; cbn; intros Ha Hb;
    try (rewrite Ha by reflexivity); try (rewrite Hb by reflexivity);
    try reflexivity;
    try (destruct eoa; reflexivity); try (destruct eob; reflexivity);
    qtri_all; destruct eoa, eob; reflexivity.
Qed.

(** X6: for two non-empty intervals of numbers ([start <= end], infinite
    endpoints open) and a number [y], [intersection([a, b])] (and [a & b])
    succeeds and contains [y] exactly when both [a] and [b] contain [y]. *)
Theorem intersection_contains (a b : t) (y : num) :
  proper a = true ->
  proper b = true ->
  Num.isnan y = false ->
  exists r ca cb,
    intersection (Many [OInterval a; OInterval b]) = Ok r
    /\ __and__ a (OInterval b) = Ok r
    /\ contains a (VNum y) true true = Ok ca
    /\ contains b (VNum y) true true = Ok cb
    /\ contains r (VNum y) true true = Ok (ca && cb).
Proof.
  intros Ha Hb Hy.
  pose proof (proper_not_empty a Ha) as Hna.
  pose proof (proper_not_empty b Hb) as Hnb.
  destruct a as [[|sa] [|ea] soa eoa]; try discriminate Ha.
  destruct b as [[|sb] [|eb] sob eob]; try discriminate Hb.
  destruct (proper_fields _ _ _ _ Ha) as (Hlea & _ & Hia & Hja).
  destruct (proper_fields _ _ _ _ Hb) as (Hleb & _ & Hib & Hjb).
  destruct (proper_sides _ _ _ _ Ha) as [Hsa Hea].
  destruct (proper_sides _ _ _ _ Hb) as [Hsb Heb].
  destruct (leb_not_nan _ _ Hlea) as [Nsa Nea].
  destruct (leb_not_nan _ _ Hleb) as [Nsb Neb].
  unfold __and__.
  rewrite (intersection_of_two _ _ _ _ _ _ _ _ Hna Hnb).
  rewrite (contains_proper _ _ _ _ y Ha Hy), (contains_proper _ _ _ _ y Hb Hy).
  set (s0 := if Num.gtb sb sa then sb else sa).
  set (e0 := if Num.ltb eb ea then eb else ea).
  set (so0 := (Num.eqb sa s0 && soa) || (Num.eqb sb s0 && sob)).
  set (eo0 := (Num.eqb ea e0 && eoa) || (Num.eqb eb e0 && eob)).
  assert (Hmem : after sa soa y && before ea eoa y
                 && (after sb sob y && before eb eob y)
                 = after s0 so0 y && before e0 eo0 y).
  { subst s0 e0 so0 eo0.
    rewrite (after_both sa sb soa sob y Nsa Nsb Hy Hia Hib).
    rewrite (before_both ea eb eoa eob y Nea Neb Hy Hja Hjb).
    destruct (after sa soa y), (before ea eoa y), (after sb sob y);
      reflexivity. }
  assert (Ns0 : Num.isnan s0 = false)
    by (subst s0; destruct (Num.gtb sb sa); assumption).
  assert (Ne0 : Num.isnan e0 = false)
    by (subst e0; destruct (Num.ltb eb ea); assumption).
  destruct (Num.gtb s0 e0) eqn:Hgt.
  - exists empty. do 2 eexists. repeat split.
    rewrite Hmem. cbn. f_equal. symmetry. apply apart_no_number. exact Hgt.
  - eexists. do 2 eexists. repeat split. rewrite Hmem.
    apply contains_stored; auto.
    + apply ltb_false_leb; assumption.
    + subst s0. destruct (Num.gtb sb sa); assumption.
    + subst e0. destruct (Num.ltb eb ea); assumption.
Qed.

Lemma intersection_contains_witness :
  exists r,
    intersection (Many [OInterval (mk (int 0) (int 3) false false);
                        OInterval (mk (int 2) (int 5) false false)]) = Ok r
    /\ contains r (int 2) true true = Ok true.
Proof.
  destruct (intersection_contains (mk (int 0) (int 3) false false)
              (mk (int 2) (int 5) false false) (Fin (inject_Z 2))
              eq_refl eq_refl eq_refl)
    as (r & ca & cb & Hr & _ & Ha & Hb & Hc).
  exists r. split; [exact Hr|].
  injection Ha as <-. injection Hb as <-. exact Hc.
Defined.

(** ** is_superset_of as an order *)

Lemma superset_numbers (su eu sv ev : num) (sou eou sov eov : bool) :
  is_empty (mk (VNum su) (VNum eu) sou eou) = false ->
  is_empty (mk (VNum sv) (VNum ev) sov eov) = false ->
  is_superset_of (mk (VNum su) (VNum eu) sou eou)
                 (OInterval (mk (VNum sv) (VNum ev) sov eov))
  = Ok (covers_start su sou sv sov && covers_end eu eou ev eov).
Proof.
  intros Hu Hv. unfold is_superset_of. rewrite Hu. cbn [parse bind].
  rewrite Hv. unfold covers_start, covers_end.
  cbn [start end_ start_open end_open Py.gt Py.lt Py.cmp Py.eq bind].
  destruct (Num.gtb su sv); [reflexivity|].
  destruct (Num.eqb su sv && sou && negb sov); [reflexivity|].
  destruct (Num.ltb eu ev); [reflexivity|].
  destruct (Num.eqb eu ev && eou && negb eov); reflexivity.
Qed.

Lemma covers_start_refl (s : num) (so : bool) :
  Num.isnan s = false -> covers_start s so s so = true.
Proof.
  unfold covers_start, Num.gtb.
  destruct s as [| |s|]; try discriminate; intros _; cbn;
    try (destruct so; reflexivity);
    qtri_all; destruct so; reflexivity.
Qed.

Lemma covers_end_refl (e : num) (eo : bool) :
  Num.isnan e = false -> covers_end e eo e eo = true.
Proof.
  unfold covers_end.
  destruct e as [| |e|]; try discriminate; intros _; cbn;
    try (destruct eo; reflexivity);
    qtri_all; destruct eo; reflexivity.
Qed.

Lemma covers_start_trans (su sv sw : num) (sou sov sow : bool) :
  Num.isnan su = false -> Num.isnan sv = false -> Num.isnan sw = false ->
  covers_start su sou sv sov = true ->
  covers_start sv sov sw sow = true ->
  covers_start su sou sw sow = true.
Proof.
  unfold covers_start, Num.gtb.
  destruct su as [| |su|]; try discriminate;
    destruct sv as [| |sv|]; try discriminate;
    destruct sw as [| |sw|]; try discriminate;
    intros _ _ _; destruct sou, sov, sow; cbn; try discriminate;
    try reflexivity; qtri_all; bools.
Qed.

Lemma covers_end_trans (eu ev ew : num) (eou eov eow : bool) :
  Num.isnan eu = false -> Num.isnan ev = false -> Num.isnan ew = false ->
  covers_end eu eou ev eov = true ->
  covers_end ev eov ew eow = true ->
  covers_end eu eou ew eow = true.
Proof.
  unfold covers_end.
  destruct eu as [| |eu|]; try discriminate;
    destruct ev as [| |ev|]; try discriminate;
    destruct ew as [| |ew|]; try discriminate;
    intros _ _ _; destruct eou, eov, eow; cbn; try discriminate;
    try reflexivity; qtri_all; bools.
Qed.

Lemma covers_start_antisym (su sv : num) (sou sov : bool) :
  Num.isnan su = false -> Num.isnan sv = false ->
  covers_start su sou sv sov = true ->
  covers_start sv sov su sou = true ->
  Num.eqb su sv && Bool.eqb sou sov = true.
Proof.
  unfold covers_start, Num.gtb.
  destruct su as [| |su|]; try discriminate;
    destruct sv as [| |sv|]; try discriminate;
    intros _ _; destruct sou, sov; cbn; try discriminate;
    try reflexivity; qtri_all; bools.
Qed.

Lemma covers_end_antisym (eu ev : num) (eou eov : bool) :
  Num.isnan eu = false -> Num.isnan ev = false ->
  covers_end eu eou ev eov = true ->
  covers_end ev eov eu eou = true ->
  Num.eqb eu ev && Bool.eqb eou eov = true.
Proof.
  unfold covers_end.
  destruct eu as [| |eu|]; try discriminate;
    destruct ev as [| |ev|]; try discriminate;
    intros _ _; destruct eou, eov; cbn; try discriminate;
    try reflexivity; qtri_all; bools.
Qed.

(** A number after the start of [v] is after the start of a [u] that
    covers it; the infinite starts are open. *)
Lemma covers_start_after (su sv : num) (sou sov : bool) (y : num) :
  Num.isnan su = false -> Num.isnan sv = false -> Num.isnan y = false ->
  (Num.isinf su = true -> sou = true) ->
  (Num.isinf sv = true -> sov = true) ->
  covers_start su sou sv sov = true ->
  after sv sov y = true -> after su sou y = true.
Proof.
  unfold covers_start, after, Num.gtb.
  destruct su as [| |su|]; try discriminate;
    destruct sv as [| |sv|]; try discriminate;
    destruct y as [| |y|]; try discriminate;
    intros _ _ _; cbn; intros Hu Hv;
    try (rewrite Hu by reflexivity); try (rewrite Hv by reflexivity);
    destruct sou, sov; cbn; try discriminate; try reflexivity;
    qtri_all; bools.
Qed.

Lemma covers_end_before (eu ev : num) (eou eov : bool) (y : num) :
  Num.isnan eu = false -> Num.isnan ev = false -> Num.isnan y = false ->
  (Num.isinf eu = true -> eou = true) ->
  (Num.isinf ev = true -> eov = true) ->
  covers_end eu eou ev eov = true ->
  before ev eov y = true -> before eu eou y = true.
Proof.
  unfold covers_end, before.
  destruct eu as [| |eu|]; try discriminate;
    destruct ev as [| |ev|]; try discriminate;
    destruct y as [| |y|]; try discriminate;
    intros _ _ _; cbn; intros Hu Hv;
    try (rewrite Hu by reflexivity); try (rewrite Hv by reflexivity);
    destruct eou, eov; cbn; try discriminate; try reflexivity;
    qtri_all; bools.
Qed.

(** X7: on non-empty intervals of numbers ([start <= end], infinite endpoints
    open) [is_superset_of] is reflexive and transitive; two intervals that
    are supersets of each other are equal for [equals]; a superset contains
    every number its subset contains; and [v.is_subset_of(u)] is
    [u.is_superset_of(v)]. *)
Theorem is_superset_of_order (u v w : t) (y : num) :
  proper u = true ->
  proper v = true ->
  proper w = true ->
  is_superset_of u (OInterval u) = Ok true
  /\ (is_superset_of u (OInterval v) = Ok true ->
      is_superset_of v (OInterval w) = Ok true ->
      is_superset_of u (OInterval w) = Ok true)
  /\ (is_superset_of u (OInterval v) = Ok true ->
      is_superset_of v (OInterval u) = Ok true ->
      equals u (OInterval v) = Ok true)
  /\ (is_superset_of u (OInterval v) = Ok true ->
      Num.isnan y = false ->
      contains v (VNum y) true true = Ok true ->
      contains u (VNum y) true true = Ok true)
  /\ is_subset_of v (OInterval u) = is_superset_of u (OInterval v).
Proof.
  intros Hu Hv Hw.
  pose proof (proper_not_empty u Hu) as Hnu.
  pose proof (proper_not_empty v Hv) as Hnv.
  pose proof (proper_not_empty w Hw) as Hnw.
  destruct u as [[|su] [|eu] sou eou]; try discriminate Hu.
  destruct v as [[|sv] [|ev] sov eov]; try discriminate Hv.
  destruct w as [[|sw] [|ew] sow eow]; try discriminate Hw.
  destruct (proper_fields _ _ _ _ Hu) as (Hleu & _ & Hiu & Hju).
  destruct (proper_fields _ _ _ _ Hv) as (Hlev & _ & Hiv & Hjv).
  destruct (proper_fields _ _ _ _ Hw) as (Hlew & _ & _ & _).
  destruct (leb_not_nan _ _ Hleu) as [Nsu Neu].
  destruct (leb_not_nan _ _ Hlev) as [Nsv Nev].
  destruct (leb_not_nan _ _ Hlew) as [Nsw New].
  rewrite !superset_numbers by assumption.
  repeat split.
  - rewrite covers_start_refl, covers_end_refl by assumption. reflexivity.
  - intros [= Huv] [= Hvw]. f_equal.
    apply andb_prop in Huv as [Hs1 He1]. apply andb_prop in Hvw as [Hs2 He2].
    rewrite (covers_start_trans su sv sw sou sov sow) by assumption.
    rewrite (covers_end_trans eu ev ew eou eov eow) by assumption.
    reflexivity.
  - intros [= Huv] [= Hvu].
    apply andb_prop in Huv as [Hs1 He1]. apply andb_prop in Hvu as [Hs2 He2].
    pose proof (covers_start_antisym su sv sou sov Nsu Nsv Hs1 Hs2) as Hs.
    pose proof (covers_end_antisym eu ev eou eov Neu Nev He1 He2) as He.
    apply andb_prop in Hs as [Hs Hso]. apply andb_prop in He as [He Heo].
    unfold equals. cbn [parse bind]. rewrite Hnu. cbn [andb].
    cbn [start end_ start_open end_open Py.eq].
    rewrite Hs, He, Hso, Heo. reflexivity.
  - intros [= Huv] Hy.
    rewrite (contains_proper _ _ _ _ y Hu Hy), (contains_proper _ _ _ _ y Hv Hy).
    intros [= Hc]. f_equal.
    apply andb_prop in Huv as [Hs1 He1]. apply andb_prop in Hc as [Ha Hb].
    rewrite (covers_start_after su sv sou sov y) by assumption.
    rewrite (covers_end_before eu ev eou eov y) by assumption.
    reflexivity.
  - unfold is_subset_of. cbn [parse bind].
    rewrite superset_numbers by assumption. reflexivity.
Qed.

Lemma is_superset_of_order_witness :
  is_superset_of (mk (int 0) (int 9) false false)
                 (OInterval (mk (int 2) (int 3) true true)) = Ok true
  /\ contains (mk (int 0) (int 9) false false) (int 1) true true = Ok true.
Proof.
  destruct (is_superset_of_order
              (mk (int 0) (int 9) false false)
              (mk (int 1) (int 5) false true)
              (mk (int 2) (int 3) true true) (Fin (inject_Z 1))
              eq_refl eq_refl eq_refl)
    as (_ & Htrans & _ & Hmem & _).
  split.
  - apply Htrans; reflexivity.
  - apply Hmem; reflexivity.
Defined.

(** ** intersects and the order operators *)

Lemma leb_total (x y : num) :
  Num.isnan x = false -> Num.isnan y = false ->
  Num.leb x y = false -> Num.leb y x = true.
Proof.
  destruct x as [| |x|]; try discriminate;
    destruct y as [| |y|]; try discriminate;
    intros _ _; cbn; try discriminate; try reflexivity.
  qtri_all; bools.
Qed.

(** A number at a shared boundary value lies in both intervals only when
    both are closed there. *)
Lemma touch_closed (s e : num) (so eo : bool) (y : num) :
  s <> PosInf ->
  e <> NegInf ->
  Num.eqb e s = true ->
  after s so y = true ->
  before e eo y = true ->
  negb eo && negb so = true.
Proof.
  unfold after, before. intros Hs He.
  destruct s as [| |s|]; try (contradiction Hs; reflexivity);
    destruct e as [| |e|]; try (contradiction He; reflexivity);
    try discriminate;
    destruct y as [| |y|]; cbn; try discriminate;
    destruct so, eo; cbn; try discriminate; try reflexivity;
    qtri_all; bools.
Qed.

Lemma intersects_numbers (su eu sv ev : num) (sou eou sov eov : bool) :
  is_empty (mk (VNum su) (VNum eu) sou eou) = false ->
  is_empty (mk (VNum sv) (VNum ev) sov eov) = false ->
  intersects (mk (VNum su) (VNum eu) sou eou)
             (OInterval (mk (VNum sv) (VNum ev) sov eov))
  = Ok (if Num.leb su sv then
          if Num.ltb eu sv then Some false
          else if Num.eqb eu sv then Some (negb eou && negb sov)
               else Some true
        else if Num.geb su sv then
               if Num.ltb ev su then Some false
               else if Num.eqb ev su then Some (negb eov && negb sou)
                    else Some true
             else None).
Proof.
  intros Hu Hv. unfold intersects. rewrite Hu. cbn [parse bind]. rewrite Hv.
  cbn [start end_ start_open end_open Py.le Py.ge Py.lt Py.cmp Py.eq bind].
  destruct (Num.leb su sv).
  - destruct (Num.ltb eu sv); [reflexivity|].
    destruct (Num.eqb eu sv); reflexivity.
  - destruct (Num.geb su sv); [|reflexivity].
    destruct (Num.ltb ev su); [reflexivity|].
    destruct (Num.eqb ev su); reflexivity.
Qed.

(** X8: [intersects] misses no shared number: when two non-empty intervals
    of numbers ([start <= end], infinite endpoints open) both contain a
    number [y], [u.intersects(v)] is true. *)
Theorem intersects_shared_number (u v : t) (y : num) :
  proper u = true ->
  proper v = true ->
  Num.isnan y = false ->
  contains u (VNum y) true true = Ok true ->
  contains v (VNum y) true true = Ok true ->
  intersects u (OInterval v) = Ok (Some true).
Proof.
  intros Hu Hv Hy.
  pose proof (proper_not_empty u Hu) as Hnu.
  pose proof (proper_not_empty v Hv) as Hnv.
  destruct u as [[|su] [|eu] sou eou]; try discriminate Hu.
  destruct v as [[|sv] [|ev] sov eov]; try discriminate Hv.
  destruct (proper_fields _ _ _ _ Hu) as (Hleu & _).
  destruct (proper_fields _ _ _ _ Hv) as (Hlev & _).
  destruct (proper_sides _ _ _ _ Hu) as [Hsu Heu].
  destruct (proper_sides _ _ _ _ Hv) as [Hsv Hev].
  destruct (leb_not_nan _ _ Hleu) as [Nsu Neu].
  destruct (leb_not_nan _ _ Hlev) as [Nsv Nev].
  rewrite (contains_proper _ _ _ _ y Hu Hy), (contains_proper _ _ _ _ y Hv Hy).
  intros [= Hcu] [= Hcv].
  apply andb_prop in Hcu as [Hau Hbu]. apply andb_prop in Hcv as [Hav Hbv].
  rewrite intersects_numbers by assumption. f_equal.
  destruct (Num.leb su sv) eqn:Hle.
  - destruct (Num.ltb eu sv) eqn:Hlt.
    + pose proof (apart_no_number sv eu sov eou y Hlt) as Hno.
      rewrite Hav, Hbu in Hno. discriminate Hno.
    + destruct (Num.eqb eu sv) eqn:Heq; [|reflexivity].
      rewrite (touch_closed sv eu sov eou y Hsv Heu Heq Hav Hbu). reflexivity.
  - unfold Num.geb. rewrite (leb_total su sv Nsu Nsv Hle).
    destruct (Num.ltb ev su) eqn:Hlt.
    + pose proof (apart_no_number su ev sou eov y Hlt) as Hno.
      rewrite Hau, Hbv in Hno. discriminate Hno.
    + destruct (Num.eqb ev su) eqn:Heq; [|reflexivity].
      rewrite (touch_closed su ev sou eov y Hsu Hev Heq Hau Hbv). reflexivity.
Qed.

Lemma intersects_shared_number_witness :
  intersects (mk (int 0) (int 3) false false)
             (OInterval (mk (int 3) (int 5) false true)) = Ok (Some true).
Proof.
  apply (intersects_shared_number _ _ (Fin (inject_Z 3))); reflexivity.
Defined.

Lemma lt_numbers (sa ea sb eb : num) (soa eoa sob eob : bool) :
  is_empty (mk (VNum sa) (VNum ea) soa eoa) = false ->
  is_empty (mk (VNum sb) (VNum eb) sob eob) = false ->
  __lt__ (mk (VNum sa) (VNum ea) soa eoa)
         (OInterval (mk (VNum sb) (VNum eb) sob eob))
  = Ok (Num.ltb ea sb || (Num.eqb ea sb && (eoa || sob))).
Proof.
  intros Ha Hb. unfold __lt__. rewrite Ha. cbn [parse bind]. rewrite Hb.
  cbn [start end_ start_open end_open Py.lt Py.cmp Py.eq bind].
  destruct (Num.ltb ea sb); [reflexivity|].
  destruct (Num.eqb ea sb && (eoa || sob)); reflexivity.
Qed.

Lemma le_numbers (sa ea sb eb : num) (soa eoa sob eob : bool) :
  is_empty (mk (VNum sa) (VNum ea) soa eoa) = false ->
  is_empty (mk (VNum sb) (VNum eb) sob eob) = false ->
  __le__ (mk (VNum sa) (VNum ea) soa eoa)
         (OInterval (mk (VNum sb) (VNum eb) sob eob))
  = Ok (Num.ltb ea eb || (Num.eqb ea eb && negb (negb eoa && eob))).
Proof.
  intros Ha Hb. unfold __le__. rewrite Ha. cbn [parse bind]. rewrite Hb.
  cbn [start end_ start_open end_open Py.lt Py.cmp Py.eq bind].
  destruct (Num.ltb ea eb); [reflexivity|].
  destruct (Num.eqb ea eb && negb (negb eoa && eob)); reflexivity.
Qed.

Lemma ge_numbers (sa ea sb eb : num) (soa eoa sob eob : bool) :
  is_empty (mk (VNum sa) (VNum ea) soa eoa) = false ->
  is_empty (mk (VNum sb) (VNum eb) sob eob) = false ->
  __ge__ (mk (VNum sa) (VNum ea) soa eoa)
         (OInterval (mk (VNum sb) (VNum eb) sob eob))
  = Ok (Num.gtb sa sb || (Num.eqb sa sb && negb (negb soa && sob))).
Proof.
  intros Ha Hb. unfold __ge__. rewrite Ha. cbn [parse bind]. rewrite Hb.
  cbn [start end_ start_open end_open Py.gt Py.cmp Py.eq bind].
  destruct (Num.gtb sa sb); [reflexivity|].
  destruct (Num.eqb sa sb && negb (negb soa && sob)); reflexivity.
Qed.

Lemma left_of_irrefl (s e : num) (so eo : bool) :
  Num.leb s e = true ->
  Num.eqb e s && (eo || so) = false ->
  left_of e eo s so = false.
Proof.
  unfold left_of.
  destruct s as [| |s|]; try discriminate;
    destruct e as [| |e|]; try discriminate; cbn; intros Hle;
    try reflexivity; try (intros ->; reflexivity).
  qprop. qtri_all; bools.
Qed.

Lemma left_of_trans (ea sb eb sc : num) (eoa sob eob soc : bool) :
  Num.isnan ea = false -> Num.isnan sc = false ->
  Num.leb sb eb = true ->
  Num.eqb eb sb && (eob || sob) = false ->
  left_of ea eoa sb sob = true ->
  left_of eb eob sc soc = true ->
  left_of ea eoa sc soc = true.
Proof.
  unfold left_of.
  destruct ea as [| |ea|]; try discriminate;
    destruct sb as [| |sb|]; try discriminate;
    destruct eb as [| |eb|]; try discriminate;
    destruct sc as [| |sc|]; try discriminate;
    intros _ _; cbn; intros Hle; try discriminate Hle; qprop;
    destruct eoa, sob, eob, soc; cbn; try discriminate; try reflexivity;
    qtri_all; bools.
Qed.

Lemma left_of_le (ea sb eb : num) (eoa sob eob : bool) :
  Num.isnan ea = false ->
  Num.leb sb eb = true ->
  Num.eqb eb sb && (eob || sob) = false ->
  left_of ea eoa sb sob = true ->
  Num.ltb ea eb || (Num.eqb ea eb && negb (negb eoa && eob)) = true.
Proof.
  unfold left_of.
  destruct ea as [| |ea|]; try discriminate;
    destruct sb as [| |sb|]; try discriminate;
    destruct eb as [| |eb|]; try discriminate;
    intros _; cbn; intros Hle; try discriminate Hle; qprop;
    destruct eoa, sob, eob; cbn; try discriminate; try reflexivity;
    qtri_all; bools.
Qed.

(** X9: on non-empty intervals of numbers ([start <= end], infinite endpoints
    open) [<] is a strict order: no interval is below itself, [a < b] and
    [b < c] give [a < c], and [a < b] excludes [b < a]; moreover [a < b]
    gives [a <= b], makes [a.intersects(b)] false, and leaves no number in
    both. *)
Theorem lt_strict_order (a b c : t) (y : num) :
  proper a = true ->
  proper b = true ->
  proper c = true ->
  __lt__ a (OInterval a) = Ok false
  /\ (__lt__ a (OInterval b) = Ok true ->
      __lt__ b (OInterval c) = Ok true ->
      __lt__ a (OInterval c) = Ok true)
  /\ (__lt__ a (OInterval b) = Ok true ->
      __lt__ b (OInterval a) = Ok false)
  /\ (__lt__ a (OInterval b) = Ok true ->
      __le__ a (OInterval b) = Ok true)
  /\ (__lt__ a (OInterval b) = Ok true ->
      intersects a (OInterval b) = Ok (Some false))
  /\ (__lt__ a (OInterval b) = Ok true ->
      Num.isnan y = false ->
      contains a (VNum y) true true = Ok true ->
      contains b (VNum y) true true = Ok false).
Proof.
  intros Ha Hb Hc.
  pose proof (proper_not_empty a Ha) as Hna.
  pose proof (proper_not_empty b Hb) as Hnb.
  pose proof (proper_not_empty c Hc) as Hnc.
  destruct a as [[|sa] [|ea] soa eoa]; try discriminate Ha.
  destruct b as [[|sb] [|eb] sob eob]; try discriminate Hb.
  destruct c as [[|sc] [|ec] soc eoc]; try discriminate Hc.
  destruct (proper_fields _ _ _ _ Ha) as (Hlea & Hka & _).
  destruct (proper_fields _ _ _ _ Hb) as (Hleb & Hkb & _).
  destruct (proper_fields _ _ _ _ Hc) as (Hlec & Hkc & _).
  destruct (proper_sides _ _ _ _ Ha) as [Hsa Hea].
  destruct (proper_sides _ _ _ _ Hb) as [Hsb Heb].
  destruct (leb_not_nan _ _ Hlea) as [Nsa Nea].
  destruct (leb_not_nan _ _ Hleb) as [Nsb Neb].
  destruct (leb_not_nan _ _ Hlec) as [Nsc Nec].
  rewrite !lt_numbers, le_numbers, intersects_numbers by assumption.
  fold (left_of ea eoa sa soa) (left_of ea eoa sb sob) (left_of eb eob sc soc)
       (left_of ea eoa sc soc) (left_of eb eob sa soa).
  assert (Hasym : left_of ea eoa sb sob = true -> left_of eb eob sa soa = false).
  { intros Hab. destruct (left_of eb eob sa soa) eqn:Hba; [|reflexivity].
    pose proof (left_of_trans ea sb eb sa eoa sob eob soa
                  Nea Nsa Hleb Hkb Hab Hba) as Haa.
    rewrite (left_of_irrefl sa ea soa eoa Hlea Hka) in Haa. discriminate Haa. }
  repeat split.
  - rewrite (left_of_irrefl sa ea soa eoa Hlea Hka). reflexivity.
  - intros [= Hab] [= Hbc]. f_equal.
    apply (left_of_trans ea sb eb sc eoa sob eob soc); assumption.
  - intros [= Hab]. f_equal. apply Hasym. exact Hab.
  - intros [= Hab]. f_equal.
    apply (left_of_le ea sb eb eoa sob eob); assumption.
  - intros [= Hab]. f_equal.
    assert (Hle : Num.leb sa sb = true).
    { apply (leb_trans sa ea sb); [exact Hlea|].
      unfold left_of in Hab. apply orb_prop in Hab as [Hlt|Heq].
      - apply ltb_true_leb. exact Hlt.
      - apply andb_prop in Heq as [Heq _]. rewrite eqb_leb in Heq.
        apply andb_prop in Heq as [Heq _]. exact Heq. }
    rewrite Hle. unfold left_of in Hab.
    destruct (Num.ltb ea sb); [reflexivity|]. cbn [orb] in Hab.
    apply andb_prop in Hab as [Heq Hopen]. rewrite Heq.
    destruct eoa, sob; try discriminate Hopen; reflexivity.
  - intros [= Hab] Hy.
    rewrite (contains_proper _ _ _ _ y Ha Hy), (contains_proper _ _ _ _ y Hb Hy).
    intros [= Hca]. f_equal. apply andb_prop in Hca as [_ Hbefore].
    destruct (after sb sob y) eqn:Hafter; [|reflexivity]. exfalso.
    unfold left_of in Hab. apply orb_prop in Hab as [Hlt|Heq].
    + pose proof (apart_no_number sb ea sob eoa y Hlt) as Hno.
      rewrite Hafter, Hbefore in Hno. discriminate Hno.
    + apply andb_prop in Heq as [Heq Hopen].
      pose proof (touch_closed sb ea sob eoa y Hsb Hea Heq Hafter Hbefore) as Hcl.
      destruct eoa, sob; discriminate.
Qed.

Lemma lt_strict_order_witness :
  __lt__ (mk (int 0) (int 1) false false)
         (OInterval (mk (int 4) (int 5) false false)) = Ok true
  /\ intersects (mk (int 0) (int 1) false false)
                (OInterval (mk (int 1) (int 2) true false)) = Ok (Some false).
Proof.
  destruct (lt_strict_order
              (mk (int 0) (int 1) false false)
              (mk (int 1) (int 2) true false)
              (mk (int 4) (int 5) false false) (Fin 0)
              eq_refl eq_refl eq_refl)
    as (_ & Htrans & _ & _ & Hint & _).
  split.
  - apply Htrans; reflexivity.
  - apply Hint. reflexivity.
Defined.

Lemma end_le_order (ea eb ec : num) (eoa eob eoc : bool) :
  Num.isnan ea = false -> Num.isnan eb = false -> Num.isnan ec = false ->
  end_le ea eoa ea eoa = true
  /\ (end_le ea eoa eb eob = true -> end_le eb eob ec eoc = true ->
      end_le ea eoa ec eoc = true)
  /\ end_le ea eoa eb eob || end_le eb eob ea eoa = true.
Proof.
  unfold end_le.
  destruct ea as [| |ea|]; try discriminate;
    destruct eb as [| |eb|]; try discriminate;
    destruct ec as [| |ec|]; try discriminate;
    intros _ _ _; destruct eoa, eob, eoc; cbn;
    repeat split; try discriminate; try reflexivity;
    qtri_all; bools.
Qed.

Lemma start_ge_order (sa sb sc : num) (soa sob soc : bool) :
  Num.isnan sa = false -> Num.isnan sb = false -> Num.isnan sc = false ->
  start_ge sa soa sa soa = true
  /\ (start_ge sa soa sb sob = true -> start_ge sb sob sc soc = true ->
      start_ge sa soa sc soc = true)
  /\ start_ge sa soa sb sob || start_ge sb sob sa soa = true.
Proof.
  unfold start_ge, Num.gtb.
  destruct sa as [| |sa|]; try discriminate;
    destruct sb as [| |sb|]; try discriminate;
    destruct sc as [| |sc|]; try discriminate;
    intros _ _ _; destruct soa, sob, soc; cbn;
    repeat split; try discriminate; try reflexivity;
    qtri_all; bools.
Qed.

(** X10: on non-empty intervals of numbers with [start <= end], [<=]
    compares the ends and [>=] compares the starts, and each is a total
    preorder: reflexive, transitive, and holding in at least one direction
    for every pair. *)
Theorem le_ge_total_preorder (a b c : t) :
  wellformed a = true ->
  wellformed b = true ->
  wellformed c = true ->
  __le__ a (OInterval a) = Ok true
  /\ (__le__ a (OInterval b) = Ok true -> __le__ b (OInterval c) = Ok true ->
      __le__ a (OInterval c) = Ok true)
  /\ (__le__ a (OInterval b) = Ok true \/ __le__ b (OInterval a) = Ok true)
  /\ __ge__ a (OInterval a) = Ok true
  /\ (__ge__ a (OInterval b) = Ok true -> __ge__ b (OInterval c) = Ok true ->
      __ge__ a (OInterval c) = Ok true)
  /\ (__ge__ a (OInterval b) = Ok true \/ __ge__ b (OInterval a) = Ok true).
Proof.
  destruct a as [[|sa] [|ea] soa eoa]; try discriminate.
  destruct b as [[|sb] [|eb] sob eob]; try discriminate.
  destruct c as [[|sc] [|ec] soc eoc]; try discriminate.
  unfold wellformed. cbn [start end_].
  intros Ha Hb Hc.
  apply andb_prop in Ha as [Hlea Hna]. apply andb_prop in Hb as [Hleb Hnb].
  apply andb_prop in Hc as [Hlec Hnc].
  apply negb_true_iff in Hna, Hnb, Hnc.
  destruct (leb_not_nan _ _ Hlea) as [Nsa Nea].
  destruct (leb_not_nan _ _ Hleb) as [Nsb Neb].
  destruct (leb_not_nan _ _ Hlec) as [Nsc Nec].
  rewrite !le_numbers, !ge_numbers by assumption.
  destruct (end_le_order ea eb ec eoa eob eoc Nea Neb Nec) as (Er & Et & Eo).
  destruct (start_ge_order sa sb sc soa sob soc Nsa Nsb Nsc) as (Sr & St & So).
  unfold end_le in Er, Et, Eo. unfold start_ge in Sr, St, So.
  repeat split.
  - rewrite Er. reflexivity.
  - intros [= H1] [= H2]. rewrite Et by assumption. reflexivity.
  - apply orb_prop in Eo as [H|H]; rewrite H; auto.
  - rewrite Sr. reflexivity.
  - intros [= H1] [= H2]. rewrite St by assumption. reflexivity.
  - apply orb_prop in So as [H|H]; rewrite H; auto.
Qed.

Lemma le_ge_total_preorder_witness :
  __le__ (mk (int 0) (int 1) false false)
         (OInterval (mk (int 0) (int 5) false true)) = Ok true
  /\ __ge__ (mk (int 2) (int 5) true true)
            (OInterval (mk (int 0) (int 1) false false)) = Ok true.
Proof.
  destruct (le_ge_total_preorder
              (mk (int 0) (int 1) false false)
              (mk (int 0) (int 3) false false)
              (mk (int 0) (int 5) false true) eq_refl eq_refl eq_refl)
    as (_ & Ht & _).
  destruct (le_ge_total_preorder
              (mk (int 2) (int 5) true true)
              (mk (int 1) (int 2) false false)
              (mk (int 0) (int 1) false false) eq_refl eq_refl eq_refl)
    as (_ & _ & _ & _ & Hg & _).
  split; [apply Ht | apply Hg]; reflexivity.
Defined.

(** ** equals *)

Lemma Num_eqb_trans (x y z : num) :
  Num.eqb x y = true -> Num.eqb y z = true -> Num.eqb x z = true.
Proof.
  destruct x, y, z; try discriminate; try reflexivity.
  cbn. intros H1 H2. qprop. apply Qeq_bool_iff. lra.
Qed.

Lemma Py_eq_sym (a b : value) : Py.eq a b = Py.eq b a.
Proof. destruct a, b; try reflexivity. apply Num_eqb_sym. Qed.

Lemma Py_eq_trans (a b c : value) :
  Py.eq a b = true -> Py.eq b c = true -> Py.eq a c = true.
Proof.
  destruct a, b, c; try discriminate; try reflexivity. apply Num_eqb_trans.
Qed.

(** X11: [equals] (and [==]) is an equivalence on intervals: reflexive on
    every interval without a [nan] endpoint, symmetric, and transitive;
    [parse] returns an interval as it is, so [parse(x).equals(x)]; and [!=]
    is the negation. *)
Theorem equals_equivalence (a b c : t) :
  (no_nan a = true ->
   equals a (OInterval a) = Ok true
   /\ (exists r, parse (OInterval a) false = Ok r
                 /\ equals r (OInterval a) = Ok true))
  /\ equals a (OInterval b) = equals b (OInterval a)
  /\ (equals a (OInterval b) = Ok true -> equals b (OInterval c) = Ok true ->
      equals a (OInterval c) = Ok true)
  /\ __eq__ a (OInterval b) = equals a (OInterval b)
  /\ (forall r, equals a (OInterval b) = Ok r ->
                __ne__ a (OInterval b) = Ok (negb r)).
Proof.
  unfold __eq__, __ne__, equals, no_nan. cbn [parse bind].
  repeat split.
  - destruct (is_empty a); [reflexivity|]. cbn [andb].
    apply andb_prop in H as [-> ->].
    rewrite !Bool.eqb_reflx. reflexivity.
  - exists a. split; [reflexivity|].
    destruct (is_empty a); [reflexivity|]. cbn [andb].
    apply andb_prop in H as [-> ->].
    rewrite !Bool.eqb_reflx. reflexivity.
  - rewrite (andb_comm (is_empty a)).
    destruct (is_empty b && is_empty a); [reflexivity|].
    rewrite (Py_eq_sym (start a)), (Py_eq_sym (end_ a)).
    destruct (start_open a), (start_open b), (end_open a), (end_open b);
      reflexivity.
  - unfold is_empty.
    destruct a as [sa ea soa eoa], b as [sb eb sob eob], c as [sc ec soc eoc].
    cbn [start end_ start_open end_open].
    intros Hab Hbc.
    assert (Fab : Py.eq ea sa && (eoa || soa) && (Py.eq eb sb && (eob || sob))
                  = true
                  \/ Py.eq sa sb && Py.eq ea eb && Bool.eqb soa sob
                     && Bool.eqb eoa eob = true).
    { destruct (Py.eq ea sa && (eoa || soa) && (Py.eq eb sb && (eob || sob)));
        [left; reflexivity | right; congruence]. }
    assert (Fbc : Py.eq eb sb && (eob || sob) && (Py.eq ec sc && (eoc || soc))
                  = true
                  \/ Py.eq sb sc && Py.eq eb ec && Bool.eqb sob soc
                     && Bool.eqb eob eoc = true).
    { destruct (Py.eq eb sb && (eob || sob) && (Py.eq ec sc && (eoc || soc)));
        [left; reflexivity | right; congruence]. }
    clear Hab Hbc.
    assert (Hfield : forall s1 e1 o1 p1 s2 e2 o2 p2,
               Py.eq s1 s2 && Py.eq e1 e2 && Bool.eqb o1 o2 && Bool.eqb p1 p2
               = true ->
               Py.eq e1 s1 && (p1 || o1) = Py.eq e2 s2 && (p2 || o2)).
    { intros s1 e1 o1 p1 s2 e2 o2 p2 H.
      apply andb_prop in H as [H Hp]. apply andb_prop in H as [H Ho].
      apply andb_prop in H as [Hs He].
      apply Bool.eqb_prop in Ho, Hp. subst o2 p2. f_equal.
      destruct (Py.eq e1 s1) eqn:E1, (Py.eq e2 s2) eqn:E2; try reflexivity.
      - rewrite <- E2. symmetry.
        apply (Py_eq_trans e2 e1 s2); [rewrite Py_eq_sym; exact He|].
        apply (Py_eq_trans e1 s1 s2); assumption.
      - rewrite <- E1.
        apply (Py_eq_trans e1 e2 s1); [exact He|].
        apply (Py_eq_trans e2 s2 s1); [exact E2|].
        rewrite Py_eq_sym. exact Hs. }
    destruct Fab as [Fab|Fab], Fbc as [Fbc|Fbc].
    + apply andb_prop in Fab as [Ea _]. apply andb_prop in Fbc as [_ Ec].
      rewrite Ea, Ec. reflexivity.
    + apply andb_prop in Fab as [Ea Eb].
      rewrite (Hfield _ _ _ _ _ _ _ _ Fbc) in Eb. rewrite Ea, Eb. reflexivity.
    + apply andb_prop in Fbc as [Eb Ec].
      rewrite <- (Hfield _ _ _ _ _ _ _ _ Fab) in Eb. rewrite Eb, Ec.
      reflexivity.
    + destruct (Py.eq ea sa && (eoa || soa) && (Py.eq ec sc && (eoc || soc)));
        [reflexivity|]. f_equal.
      apply andb_prop in Fab as [Fab Hp1]. apply andb_prop in Fab as [Fab Ho1].
      apply andb_prop in Fab as [Hs1 He1].
      apply andb_prop in Fbc as [Fbc Hp2]. apply andb_prop in Fbc as [Fbc Ho2].
      apply andb_prop in Fbc as [Hs2 He2].
      apply Bool.eqb_prop in Ho1, Hp1, Ho2, Hp2. subst.
      rewrite (Py_eq_trans _ _ _ Hs1 Hs2), (Py_eq_trans _ _ _ He1 He2).
      rewrite !Bool.eqb_reflx. reflexivity.
  - intros r H. rewrite H. reflexivity.
Qed.

Lemma equals_equivalence_witness :
  equals (mk (int 1) (int 2) false true)
         (OInterval (mk (int 1) (int 2) false true)) = Ok true
  /\ equals (mk (int 3) (int 3) true false) (OInterval empty) = Ok true.
Proof.
  destruct (equals_equivalence (mk (int 1) (int 2) false true) empty empty)
    as (Hrefl & _).
  destruct (equals_equivalence (mk (int 3) (int 3) true false)
              (mk VNone VNone false true) empty)
    as (_ & _ & Htrans & _).
  split.
  - apply Hrefl. reflexivity.
  - apply Htrans; reflexivity.
Defined.

(** ** index_range on every sorted input *)

Section IndexRangeSorted.

Variables (s e : num) (so eo : bool).

Let i := mk (VNum s) (VNum e) so eo.

Hypothesis Hi : proper i = true.

Variable values : list value.
Variable key : option (value -> value).
Variable l : list num.

Hypothesis Hkeys : List.map (key_of key) values = List.map VNum l.
Hypothesis Hasc : ascending l = true.

(** The second loop stops at once at an item that is not above [end]. *)
Lemma drop_above_stop (fuel : nat) (i0 j : nat) (y : num) :
  (i0 < j)%nat ->
  nth_error l (j - 1) = Some y ->
  Num.gtb y e = false ->
  drop_above (S fuel) i values (key_of key) (Z.of_nat i0) (Z.of_nat j)
  = Ok (Z.of_nat j).
Proof.
  intros Hj Hy Hgt. cbn [drop_above].
  destruct (Z.eqb_spec (Z.of_nat j) 0) as [E0|E0]; [lia|].
  destruct (Z.eqb_spec (Z.of_nat i0) (Z.of_nat j)) as [E1|E1]; [lia|].
  cbn [negb andb].
  replace (Z.of_nat j - 1)%Z with (Z.of_nat (j - 1)) by lia.
  destruct (getitem_key values key l Hkeys (j - 1) y Hy) as (v & Hv & Hk).
  rewrite Hv. cbn [bind]. rewrite Hk. cbn [Py.gt Py.cmp i end_ bind].
  rewrite Hgt. reflexivity.
Qed.

Lemma index_range_sorted :
  exists b0 b1 : nat,
    index_range i values key = Ok (Z.of_nat b0, Z.of_nat (end_index l e b1))
    /\ (b0 <= b1 <= List.length l)%nat
    /\ below l s b0 /\ not_below l s b0
    /\ (e = PosInf -> b1 = List.length l)
    /\ (e <> PosInf -> below l e b1 /\ not_below l e b1).
Proof.
  pose proof (proper_not_empty i Hi) as Hne.
  destruct (proper_fields _ _ _ _ Hi) as (Hle & Hkeep & Hso & Heo).
  destruct (proper_sides _ _ _ _ Hi) as [Hs He].
  destruct (leb_not_nan _ _ Hle) as [Ns Ne].
  pose proof (keys_length values key l Hkeys) as Hlen.
  destruct (bisect_objects_spec values key l Hkeys Hasc s)
    as (b0 & Hr0 & Hb0 & _ & Hspec0).
  destruct (Hspec0 Hs) as [Hbl0 Hnb0]. clear Hspec0.
  destruct (bisect_objects_spec values key l Hkeys Hasc e)
    as (b1 & Hr1 & Hb1 & Hinf1 & Hspec1).
  (* items before b1 are not above the end *)
  assert (Hlo1 : forall k y, (k < b1)%nat -> nth_error l k = Some y ->
                             Num.gtb y e = false).
  { intros k y Hk Hy. unfold Num.gtb.
    destruct (Num.eqb e PosInf) eqn:Ee.
    - destruct e; try discriminate Ee. destruct y; reflexivity.
    - assert (Hep : e <> PosInf) by (intros ->; discriminate Ee).
      destruct (Hspec1 Hep) as [Hbl1 _].
      apply ltb_asym. apply (Hbl1 k y Hk Hy). }
  assert (Hb01 : (b0 <= b1)%nat).
  { destruct (Nat.le_gt_cases b0 b1) as [|Hgt]; [assumption|exfalso].
    destruct (nth_error l b1) as [y|] eqn:Hy;
      [|apply nth_error_None in Hy; lia].
    pose proof (Hbl0 b1 y Hgt Hy) as Hys.
    pose proof (ltb_leb_trans _ _ _ Hys Hle) as Hlt.
    destruct (Num.eqb e PosInf) eqn:Ee.
    - destruct e; try discriminate Ee. specialize (Hinf1 eq_refl). lia.
    - assert (Hep : e <> PosInf) by (intros ->; discriminate Ee).
      destruct (Hspec1 Hep) as [_ Hnb1].
      rewrite (Hnb1 b1 y (Nat.le_refl _) Hy) in Hlt. discriminate Hlt. }
  exists b0, b1.
  split; [|split; [lia|]; split; [exact Hbl0|]; split; [exact Hnb0|];
           split; [exact Hinf1 | exact Hspec1]].
  unfold index_range. fold i. rewrite Hne.
  destruct (Z.eqb_spec (Z.of_nat (List.length values)) 0) as [E|E].
  { (* no values *)
    cbn [bind]. rewrite E. unfold end_index.
    assert (Hl0 : List.length l = 0%nat) by lia.
    assert (b1 = 0%nat) by lia. assert (b0 = 0%nat) by lia. subst b0 b1.
    replace (nth_error l 0) with (@None num)
      by (symmetry; apply nth_error_None; lia).
    reflexivity. }
  assert (Hsearch :
    (b0' <- util.bisect_objects values (start i) 0 None key ;;
     let i0 := Z.max 0 (b0' - 1) in
     b1' <- util.bisect_objects values (end_ i) 0 None key ;;
     let i1 := Z.min (Z.of_nat (List.length values)) (b1' + 1) in
     let key0 := match key with None => fun x => x | Some k => k end in
     let fuel := S (List.length values) in
     i0 <- skip_below fuel i values key0 i0 i1 ;;
     i1 <- drop_above fuel i values key0 i0 i1 ;;
     Ok (i0, i1))
    = Ok (Z.of_nat b0, Z.of_nat (end_index l e b1))).
  { cbn [i start end_]. rewrite Hr0, Hr1. cbn [bind]. cbv zeta.
    replace (Z.max 0 (Z.of_nat b0 - 1)) with (Z.of_nat (b0 - 1)) by lia.
    replace (Z.min (Z.of_nat (List.length values)) (Z.of_nat b1 + 1))
      with (Z.of_nat (Nat.min (List.length l) (b1 + 1))) by lia.
    change (match key with None => fun x => x | Some k => k end)
      with (key_of key).
    fold i.
    rewrite (skip_below_spec s e so eo Hi values key l Hkeys b0
               (Nat.min (List.length l) (b1 + 1)) Hbl0 Hnb0) by lia.
    cbn [bind]. unfold end_index.
    destruct (nth_error l b1) as [y1|] eqn:Hy1.
    - assert (Hlt1 : (b1 < List.length l)%nat)
        by (apply nth_error_Some; congruence).
      replace (Nat.min (List.length l) (b1 + 1)) with (S b1) by lia.
      assert (Hep : e <> PosInf)
        by (intros Hp; specialize (Hinf1 Hp); lia).
      destruct (Hspec1 Hep) as [Hbl1 Hnb1].
      pose proof (ascending_not_nan l b1 y1 Hasc Hy1) as Ny1.
      destruct (Num.eqb y1 e) eqn:Heq.
      + rewrite (drop_above_stop (List.length values) b0 (S b1) y1);
          [reflexivity | lia | | ].
        * replace (S b1 - 1)%nat with b1 by lia. exact Hy1.
        * unfold Num.gtb. apply leb_ltb_false.
          rewrite eqb_leb in Heq. apply andb_prop in Heq as [Heq _]. exact Heq.
      + assert (Hhi1 : forall k y, (b1 <= k)%nat -> nth_error l k = Some y ->
                                   Num.gtb y e = true).
        { intros k y Hk Hy. unfold Num.gtb.
          apply (ltb_leb_trans e y1 y).
          - apply ltb_trichotomy; auto.
            apply (Hnb1 b1 y1 (Nat.le_refl _) Hy1).
          - apply (ascending_nth l Hasc b1 k); auto. }
        rewrite (drop_above_spec s e so eo Hi values key l Hkeys b0 b1
                   Hlo1 Hhi1 Hb01) by lia.
        reflexivity.
    - apply nth_error_None in Hy1.
      replace (Nat.min (List.length l) (b1 + 1)) with b1 by lia.
      assert (Hhi1 : forall k y, (b1 <= k)%nat -> nth_error l k = Some y ->
                                 Num.gtb y e = true).
      { intros k y Hk Hy.
        assert (nth_error l k = None) by (apply nth_error_None; lia).
        congruence. }
      rewrite (drop_above_spec s e so eo Hi values key l Hkeys b0 b1
                 Hlo1 Hhi1 Hb01) by lia.
      reflexivity. }
  unfold is_infinite, is_negative_infinite, is_positive_infinite, Py.ne.
  cbn [i start end_ Py.eq Py.isinf bind].
  destruct (Num.eqb s e) eqn:Ese; cbn [negb bind]; [exact Hsearch|].
  destruct (Num.isinf s && Num.isinf e) eqn:Einf.
  - (* the whole line *)
    apply andb_prop in Einf as [Is Ie]. rewrite Is, Ie. cbn [bind].
    assert (s = NegInf) by (destruct s; try discriminate Is; congruence).
    assert (e = PosInf) by (destruct e; try discriminate Ie; congruence).
    subst s e.
    assert (b0 = 0%nat).
    { destruct b0 as [|b]; [reflexivity|].
      destruct (nth_error l 0) as [z|] eqn:Hz;
        [|apply nth_error_None in Hz; lia].
      pose proof (Hbl0 0%nat z ltac:(lia) Hz) as Hf.
      destruct z; discriminate Hf. }
    unfold end_index. rewrite (Hinf1 eq_refl).
    replace (nth_error l (List.length l)) with (@None num)
      by (symmetry; apply nth_error_None; lia).
    subst b0. rewrite Hlen. reflexivity.
  - replace (if Num.isinf s then Ok (Num.isinf e) else Ok false)
      with (@Ok bool false)
      by (destruct (Num.isinf s), (Num.isinf e);
          try reflexivity; discriminate Einf).
    cbn [bind]. exact Hsearch.
Qed.

End IndexRangeSorted.

Lemma filter_range (A : Type) (p : A -> bool) (l : list A) :
  forall i0 i1 : nat,
    (i0 <= i1)%nat ->
    (forall k v, nth_error l k = Some v ->
                 p v = (i0 <=? k)%nat && (k <? i1)%nat) ->
    List.filter p l = firstn (i1 - i0) (skipn i0 l).
Proof.
  induction l as [|a l IH]; intros i0 i1 Hle Hp.
  - rewrite skipn_nil, firstn_nil. reflexivity.
  - cbn [List.filter]. pose proof (Hp 0%nat a eq_refl) as Ha.
    assert (Hrest : forall j0 j1,
               (forall k, ((i0 <=? S k)%nat && (S k <? i1)%nat)
                          = ((j0 <=? k)%nat && (k <? j1)%nat)) ->
               forall k v, nth_error l k = Some v ->
                           p v = (j0 <=? k)%nat && (k <? j1)%nat).
    { intros j0 j1 Heq k v Hv. rewrite <- Heq. apply (Hp (S k) v). exact Hv. }
    destruct i0 as [|i0].
    + destruct i1 as [|i1].
      * rewrite Ha. cbn. rewrite (IH 0%nat 0%nat); [reflexivity | lia |].
        apply Hrest. intros k. reflexivity.
      * rewrite Ha. cbn. f_equal.
        rewrite (IH 0%nat i1); [rewrite Nat.sub_0_r; reflexivity | lia |].
        apply Hrest. intros k. reflexivity.
    + destruct i1 as [|i1]; [lia|]. rewrite Ha. cbn.
      apply IH; [lia|]. apply Hrest. intros k. reflexivity.
Qed.

Lemma count_below_index (l : list num) (x : num) (b : nat) :
  (b <= List.length l)%nat ->
  below l x b -> not_below l x b -> count_below x l = b.
Proof.
  intros Hb Hbl Hnb. unfold count_below.
  rewrite (filter_range _ (fun y => Num.ltb y x) l 0 b); [| lia |].
  - rewrite Nat.sub_0_r. cbn [skipn]. apply firstn_length_le. exact Hb.
  - intros k v Hv. cbn [Nat.leb andb]. destruct (Nat.ltb_spec k b).
    + apply (Hbl k v); assumption.
    + apply (Hnb k v); assumption.
Qed.

Lemma key_at_end (l : list num) (e : num) (b1 : nat) :
  ascending l = true ->
  Num.isnan e = false ->
  below l e b1 -> not_below l e b1 ->
  existsb (Num.eqb e) l
  = match nth_error l b1 with
    | Some y => Num.eqb y e
    | None => false
    end.
Proof.
  intros Hasc Ne Hbl Hnb.
  destruct (existsb (Num.eqb e) l) eqn:Hex.
  - apply existsb_exists in Hex as (y & Hin & Heq).
    apply In_nth_error in Hin as (k & Hk).
    rewrite Num_eqb_sym, eqb_leb in Heq. apply andb_prop in Heq as [Hye Hey].
    assert (Hkb : (b1 <= k)%nat).
    { destruct (Nat.le_gt_cases b1 k) as [|Hlt]; [assumption|exfalso].
      pose proof (Hbl k y Hlt Hk) as Hb. rewrite (leb_ltb_false _ _ Hey) in Hb.
      discriminate Hb. }
    destruct (nth_error l b1) as [y1|] eqn:Hy1.
    + symmetry. rewrite eqb_leb.
      rewrite (leb_trans y1 y e (ascending_nth l Hasc b1 k y1 y Hkb Hy1 Hk) Hye).
      rewrite (ltb_false_leb y1 e (ascending_not_nan l b1 y1 Hasc Hy1) Ne
                 (Hnb b1 y1 (Nat.le_refl _) Hy1)).
      reflexivity.
    + apply nth_error_None in Hy1.
      assert (k < List.length l)%nat by (apply nth_error_Some; congruence).
      lia.
  - destruct (nth_error l b1) as [y1|] eqn:Hy1; [|reflexivity].
    destruct (Num.eqb y1 e) eqn:Heq; [|reflexivity].
    rewrite <- Hex. apply existsb_exists. exists y1. split.
    + eapply nth_error_In. exact Hy1.
    + rewrite Num_eqb_sym. exact Heq.
Qed.

(** X12: for a non-empty interval of numbers ([start <= end], infinite
    endpoints open) and values whose keys are ascending numbers,
    [index_range] returns as start index the number of keys below [start],
    and as end index the number of keys below [end] plus one when some key
    equals [end] (all the values when [end] is [+inf]): several keys equal
    to [end] are counted once, whether the end is open or closed. *)
Theorem index_range_counts
        (s e : num) (so eo : bool) (values : list value)
        (key : option (value -> value)) (l : list num) :
  proper (mk (VNum s) (VNum e) so eo) = true ->
  List.map (key_of key) values = List.map VNum l ->
  ascending l = true ->
  index_range (mk (VNum s) (VNum e) so eo) values key
  = Ok (Z.of_nat (count_below s l),
        Z.of_nat (if Num.eqb e PosInf then List.length l
                  else count_below e l
                       + (if existsb (Num.eqb e) l then 1 else 0))).
Proof.
  intros Hi Hkeys Hasc.
  destruct (index_range_sorted s e so eo Hi values key l Hkeys Hasc)
    as (b0 & b1 & Hr & Hb & Hbl0 & Hnb0 & Hinf & Hfin).
  destruct (proper_fields _ _ _ _ Hi) as (Hle & _).
  destruct (leb_not_nan _ _ Hle) as [_ Ne].
  rewrite Hr. do 3 f_equal.
  - symmetry. apply count_below_index; [lia | assumption | assumption].
  - unfold end_index. destruct (Num.eqb e PosInf) eqn:Ee.
    + destruct e; try discriminate Ee. rewrite (Hinf eq_refl).
      replace (nth_error l (List.length l)) with (@None num)
        by (symmetry; apply nth_error_None; lia).
      reflexivity.
    + assert (Hep : e <> PosInf) by (intros ->; discriminate Ee).
      destruct (Hfin Hep) as [Hbl1 Hnb1].
      rewrite (count_below_index l e b1) by (assumption || lia).
      rewrite (key_at_end l e b1 Hasc Ne Hbl1 Hnb1).
      destruct (nth_error l b1) as [y1|]; [|lia].
      destruct (Num.eqb y1 e); lia.
Qed.

Lemma index_range_counts_witness :
  index_range (mk (int 0) (int 5) false false) [int 1; int 5; int 5] None
  = Ok (0, 2)%Z.
Proof.
  apply (index_range_counts (Fin (inject_Z 0)) (Fin (inject_Z 5)) false false
           [int 1; int 5; int 5] None
           [Fin (inject_Z 1); Fin (inject_Z 5); Fin (inject_Z 5)]);
    reflexivity.
Defined.

(** ** filter *)

Lemma slice_range (A : Type) (l : list A) (i0 i1 : nat) :
  (i0 <= i1 <= List.length l)%nat ->
  Py.slice l (Z.of_nat i0) (Z.of_nat i1) = firstn (i1 - i0) (skipn i0 l).
Proof.
  intros H.
  assert (Hclip : forall k, (k <= List.length l)%nat ->
             Py.clip (Z.of_nat (List.length l)) (Z.of_nat k) = Z.of_nat k).
  { intros k Hk. unfold Py.clip.
    destruct (Z.ltb_spec (Z.of_nat k) 0); [lia|].
    destruct (Z.ltb_spec (Z.of_nat k) 0); [lia|].
    destruct (Z.ltb_spec (Z.of_nat (List.length l)) (Z.of_nat k)); [lia|].
    reflexivity. }
  unfold Py.slice. rewrite !Hclip by lia.
  rewrite <- Nat2Z.inj_sub, !Nat2Z.id by lia. reflexivity.
Qed.

(** X13: for a non-empty interval of numbers with open infinite endpoints
    and values whose keys are ascending numbers, when no finite key equals
    the end and no finite key equals an open start, [filter] returns exactly
    the values whose key the interval contains, in their order. *)
Theorem filter_exact
        (i : t) (values : list value) (key : option (value -> value))
        (l : list num) :
  proper i = true ->
  List.map (key_of key) values = List.map VNum l ->
  ascending l = true ->
  (start_open i = true ->
   forall y, In y l -> Num.isinf y = false -> Py.eq (VNum y) (start i) = false) ->
  (forall y, In y l -> Num.isinf y = false -> Py.eq (VNum y) (end_ i) = false) ->
  Interval.filter i values key
  = Ok (List.filter (fun v => inside i (key_of key v)) values).
Proof.
  intros Hi Hkeys Hasc H1 H2.
  destruct i as [[|s] [|e] so eo]; try discriminate Hi.
  cbn [start end_ start_open Py.eq] in H1, H2.
  destruct (index_range_sorted s e so eo Hi values key l Hkeys Hasc)
    as (b0 & b1 & Hr & Hb & Hbl0 & Hnb0 & Hinf & Hfin).
  destruct (proper_fields _ _ _ _ Hi) as (Hle & _).
  destruct (proper_sides _ _ _ _ Hi) as [Hs He].
  destruct (leb_not_nan _ _ Hle) as [Ns Ne].
  pose proof (keys_length values key l Hkeys) as Hlen.
  (* a key equal to the end is infinite, and then so is the end *)
  assert (Hend : forall k y, nth_error l k = Some y -> Num.eqb y e = true ->
                             e = PosInf).
  { intros k y Hy Heq. destruct (Num.isinf y) eqn:Hyi.
    - destruct y, e; try discriminate Hyi; try discriminate Heq;
        [contradiction He|]; reflexivity.
    - rewrite (H2 y (nth_error_In l k Hy) Hyi) in Heq. discriminate Heq. }
  assert (Hidx : end_index l e b1 = b1).
  { unfold end_index. destruct (nth_error l b1) as [y1|] eqn:Hy1; [|reflexivity].
    destruct (Num.eqb y1 e) eqn:Heq; [|reflexivity].
    pose proof (Hinf (Hend b1 y1 Hy1 Heq)).
    assert (b1 < List.length l)%nat by (apply nth_error_Some; congruence).
    lia. }
  unfold Interval.filter. rewrite Hr, Hidx. cbn [bind]. f_equal.
  rewrite slice_range by lia. symmetry.
  apply filter_range; [lia|].
  intros k v Hv.
  assert (Hm : nth_error (List.map (key_of key) values) k
               = Some (key_of key v)) by (apply map_nth_error; exact Hv).
  rewrite Hkeys, nth_error_map in Hm.
  destruct (nth_error l k) as [y|] eqn:Hy; [|discriminate Hm].
  cbn in Hm. injection Hm as Hm. unfold inside. rewrite <- Hm.
  pose proof (ascending_not_nan l k y Hasc Hy) as Ny.
  assert (Hky : (k < List.length l)%nat) by (apply nth_error_Some; congruence).
  destruct (Nat.leb_spec b0 k) as [H0|H0]; cbn [andb].
  - destruct (Nat.ltb_spec k b1) as [Hk1|Hk1].
    + rewrite (contains_between s e so eo Hi y); try reflexivity; auto.
      * apply (Hnb0 k y H0 Hy).
      * unfold Num.gtb. destruct (Num.eqb e PosInf) eqn:Ee.
        -- destruct e; try discriminate Ee. destruct y; reflexivity.
        -- assert (Hep : e <> PosInf) by (intros ->; discriminate Ee).
           destruct (Hfin Hep) as [Hbl1 _].
           apply ltb_asym. apply (Hbl1 k y Hk1 Hy).
      * intros -> Hyi. apply (H1 eq_refl y (nth_error_In l k Hy) Hyi).
      * intros _ Hyi. apply (H2 y (nth_error_In l k Hy) Hyi).
    + assert (Hep : e <> PosInf) by (intros Hp; specialize (Hinf Hp); lia).
      destruct (Hfin Hep) as [_ Hnb1].
      rewrite (contains_above s e so eo Hi y); [reflexivity|].
      unfold Num.gtb. apply ltb_trichotomy; auto.
      * apply (Hnb1 k y Hk1 Hy).
      * destruct (Num.eqb y e) eqn:Heq; [|reflexivity].
        contradiction Hep. apply (Hend k y Hy Heq).
  - rewrite (contains_below s e so eo Hi y); [reflexivity|].
    apply (Hbl0 k y H0 Hy).
Qed.

Lemma filter_exact_witness :
  Interval.filter (mk (int 2) (int 6) true false)
                  [int 1; int 3; int 3; int 5; int 7] None
  = Ok [int 3; int 3; int 5].
Proof.
  apply (filter_exact (mk (int 2) (int 6) true false)
           [int 1; int 3; int 3; int 5; int 7] None
           [Fin (inject_Z 1); Fin (inject_Z 3); Fin (inject_Z 3);
            Fin (inject_Z 5); Fin (inject_Z 7)]).
  - reflexivity.
  - reflexivity.
  - reflexivity.
  - intros _ y Hy _.
    repeat (destruct Hy as [<-|Hy]; [reflexivity|]). destruct Hy.
  - intros y Hy _.
    repeat (destruct Hy as [<-|Hy]; [reflexivity|]). destruct Hy.
Defined.

(** ** offset *)




Lemma eqb_refl_num (x : num) : Num.isnan x = false -> Num.eqb x x = true.
Proof.
  intros H. rewrite eqb_leb, leb_refl by exact H. reflexivity.
Qed.

Lemma eqb_compat (x s y e : num) :
  Num.eqb x s = true -> Num.eqb y e = true -> Num.eqb y x = Num.eqb e s.
Proof.
  intros Hx Hy.
  destruct (Num.eqb y x) eqn:E1, (Num.eqb e s) eqn:E2; try reflexivity.
  - rewrite <- E2. symmetry. apply (Num_eqb_trans e y s).
    + rewrite Num_eqb_sym. exact Hy.
    + apply (Num_eqb_trans y x s); assumption.
  - rewrite <- E1. apply (Num_eqb_trans y e x); [exact Hy|].
    apply (Num_eqb_trans e s x); [exact E2|]. rewrite Num_eqb_sym. exact Hx.
Qed.

(** The constructor stores, as they are, endpoints equal to those of a
    non-empty interval of numbers with the flags of that interval. *)
Lemma stored_same (s e x y : num) (so eo : bool) :
  proper (mk (VNum s) (VNum e) so eo) = true ->
  Num.eqb x s = true ->
  Num.eqb y e = true ->
  stored x y so eo = mk (VNum x) (VNum y) so eo.
Proof.
  intros Hi Hx Hy.
  destruct (proper_fields _ _ _ _ Hi) as (Hle & Hkeep & Hso & Heo).
  unfold stored. rewrite (eqb_compat x s y e Hx Hy), Hkeep. f_equal.
  - destruct (Num.isinf x) eqn:Hinf;
      [|rewrite andb_false_r; apply orb_false_r].
    rewrite Hso; [reflexivity|]. rewrite <- (eqb_isinf _ _ Hx). exact Hinf.
  - destruct (Num.isinf y) eqn:Hinf;
      [|rewrite andb_false_r; apply orb_false_r].
    rewrite Heo; [reflexivity|]. rewrite <- (eqb_isinf _ _ Hy). exact Hinf.
Qed.







(** ** Rebuilding an interval from its own fields *)

(** A non-empty result of the constructor is rebuilt by the same flags. *)
Lemma init_again (s e : value) (f1 f2 : bool) (r : t) :
  __init__ s e f1 f2 = Ok r ->
  is_empty r = false ->
  __init__ (start r) (end_ r) f1 f2 = Ok r.
Proof.
  revert r. pattern (__init__ s e f1 f2). apply init_cases.
  - intros x y r [= <-] Hne. rewrite stored_empty in Hne.
    unfold stored at 1 2. rewrite Hne. cbn [start end_]. apply init_num.
  - intros r [= <-] Hne. unfold is_empty in Hne. cbn in Hne.
    destruct f1, f2; try discriminate Hne. reflexivity.
Qed.

(** The flags the constructor stores are kept when it is given them again. *)
Lemma stored_flags_again (x y : num) (so eo : bool) :
  Num.eqb y x && (eo || so) = false ->
  stored x y (so || (negb (Num.eqb x y) && Num.isinf x))
             (eo || (negb (Num.eqb x y) && Num.isinf y))
  = stored x y so eo.
Proof.
  intros Hkeep. unfold stored. rewrite Hkeep, (Num_eqb_sym x y).
  destruct (Num.eqb y x) eqn:E.
  - destruct so, eo; try discriminate Hkeep. reflexivity.
  - cbn [negb andb]. f_equal.
    + destruct so, (Num.isinf x); reflexivity.
    + destruct eo, (Num.isinf y); reflexivity.
Qed.

(** X15: [copy] returns every interval built by the constructor as it is;
    and each of [as_closed], [as_open], [as_closed_open], [as_open_closed]
    never raises and is idempotent, on every interval. *)
Theorem copy_and_boundary_rewrites (s e : value) (so eo : bool) (r i : t) :
  (__init__ s e so eo = Ok r -> copy r = Ok r)
  /\ (exists c, as_closed i = Ok c /\ as_closed c = Ok c)
  /\ (exists c, as_open i = Ok c /\ as_open c = Ok c)
  /\ (exists c, as_closed_open i = Ok c /\ as_closed_open c = Ok c)
  /\ (exists c, as_open_closed i = Ok c /\ as_open_closed c = Ok c).
Proof.
  split.
  - unfold copy. pattern (__init__ s e so eo). apply init_cases.
    + intros x y [= <-]. unfold stored.
      destruct (Num.eqb y x && (eo || so)) eqn:Hkeep.
      * cbn [start end_ start_open end_open].
        apply andb_prop in Hkeep as [_ Hopen].
        destruct so, eo; try discriminate Hopen; reflexivity.
      * cbn [start end_ start_open end_open]. rewrite init_num.
        rewrite (stored_flags_again x y so eo Hkeep).
        unfold stored. rewrite Hkeep. reflexivity.
    + intros [= <-]. destruct so, eo; reflexivity.
  - assert (Hidem : forall f1 f2 (as_ : t -> res t),
               (forall j, as_ j = if is_empty j then Ok j
                                  else __init__ (start j) (end_ j) f1 f2) ->
               exists c, as_ i = Ok c /\ as_ c = Ok c).
    { intros f1 f2 as_ Has. rewrite (Has i).
      destruct (is_empty i) eqn:Hi.
      - exists i. split; [reflexivity|]. rewrite (Has i), Hi. reflexivity.
      - destruct (init_total (start i) (end_ i) f1 f2) as [c Hc].
        exists c. split; [exact Hc|]. rewrite (Has c).
        destruct (is_empty c) eqn:Hce; [reflexivity|].
        apply (init_again _ _ _ _ _ Hc Hce). }
    repeat split.
    + apply (Hidem false false). reflexivity.
    + apply (Hidem true true). reflexivity.
    + apply (Hidem false true). reflexivity.
    + apply (Hidem true false). reflexivity.
Qed.

Lemma copy_and_boundary_rewrites_witness :
  copy (mk ninf (int 5) true false) = Ok (mk ninf (int 5) true false).
Proof.
  destruct (copy_and_boundary_rewrites ninf (int 5) false false
              (mk ninf (int 5) true false) empty) as (Hcopy & _).
  apply Hcopy. reflexivity.
Defined.

(** ** Half-lines *)

Lemma after_before_complement (s : Q) (so : bool) (y : num) :
  Num.isnan y = false ->
  before (Fin s) (negb so) y = negb (after (Fin s) so y).
Proof.
  unfold after, before.
  destruct y as [| |y|]; try discriminate; intros _; cbn; try reflexivity.
  qtri_all; destruct so; reflexivity.
Qed.

Lemma after_neg_inf (so : bool) (y : num) :
  Num.isnan y = false -> after NegInf so y = true.
Proof.
  destruct y; try discriminate; intros _; unfold after; cbn;
    rewrite ?orb_true_r; reflexivity.
Qed.

Lemma before_pos_inf (eo : bool) (y : num) :
  Num.isnan y = false -> before PosInf eo y = true.
Proof.
  destruct y; try discriminate; intros _; unfold before; cbn;
    rewrite ?orb_true_r; reflexivity.
Qed.

(** X16: the half-lines derived from a non-empty interval split the numbers
    at its boundary: when the start is finite, every number lies in exactly
    one of [get_lt()] and [get_gte()]; when the end is finite, every number
    lies in exactly one of [get_lte()] and [get_gt()]. *)
Theorem half_lines_complement (i : t) (y : num) :
  is_empty i = false ->
  Num.isnan y = false ->
  (forall s, start i = VNum (Fin s) ->
     exists below above b,
       get_lt i = Ok below /\ get_gte i = Ok above
       /\ contains below (VNum y) true true = Ok b
       /\ contains above (VNum y) true true = Ok (negb b))
  /\ (forall e, end_ i = VNum (Fin e) ->
     exists below above b,
       get_lte i = Ok below /\ get_gt i = Ok above
       /\ contains below (VNum y) true true = Ok b
       /\ contains above (VNum y) true true = Ok (negb b)).
Proof.
  intros Hne Hy. split.
  - intros s Hs. unfold get_lt, get_gte. rewrite Hne, Hs.
    unfold ninf, pinf. rewrite !init_num. do 3 eexists.
    split; [reflexivity|]. split; [reflexivity|].
    rewrite !contains_stored by (reflexivity || discriminate || assumption).
    rewrite after_neg_inf, before_pos_inf by assumption.
    rewrite after_before_complement, andb_true_r by assumption.
    cbn [andb]. split; [reflexivity|].
    rewrite negb_involutive. reflexivity.
  - intros e He. unfold get_lte, get_gt. rewrite Hne, He.
    rewrite !init_num. do 3 eexists.
    split; [reflexivity|]. split; [reflexivity|].
    rewrite !contains_stored by (reflexivity || discriminate || assumption).
    rewrite after_neg_inf, before_pos_inf by assumption.
    rewrite andb_true_r. cbn [andb]. split; [reflexivity|].
    f_equal.
    replace (end_open i) with (negb (negb (end_open i)))
      by apply negb_involutive.
    rewrite after_before_complement by assumption.
    rewrite !negb_involutive. reflexivity.
Qed.

Lemma half_lines_complement_witness :
  exists below above,
    get_lt (mk (int 3) (int 8) false false) = Ok below
    /\ get_gte (mk (int 3) (int 8) false false) = Ok above
    /\ contains below (int 3) true true = Ok false
    /\ contains above (int 3) true true = Ok true.
Proof.
  destruct (half_lines_complement (mk (int 3) (int 8) false false)
              (Fin (inject_Z 3)) eq_refl eq_refl) as (Hs & _).
  destruct (Hs (inject_Z 3) eq_refl) as (lo & hi & b & Hlo & Hhi & Hb & Ha).
  exists lo, hi. split; [exact Hlo|]. split; [exact Hhi|].
  injection Hlo as <-. injection Hhi as <-.
  injection Hb as <-. split; [reflexivity | exact Ha].
Defined.

(** X17: for a finite [a] and a number [y], the factories build the four
    half-lines: [gt(a)] contains [y] exactly when [a < y], [gte(a)] when
    [a <= y], [lt(a)] when [y < a], and [lte(a)] when [y <= a]. *)
Theorem half_line_factories (a : Q) (y : num) :
  Num.isnan y = false ->
  exists g ge l le,
    gt (VNum (Fin a)) = Ok g /\ gte (VNum (Fin a)) = Ok ge
    /\ lt (VNum (Fin a)) = Ok l /\ lte (VNum (Fin a)) = Ok le
    /\ contains g (VNum y) true true = Ok (Num.ltb (Fin a) y)
    /\ contains ge (VNum y) true true = Ok (Num.leb (Fin a) y)
    /\ contains l (VNum y) true true = Ok (Num.ltb y (Fin a))
    /\ contains le (VNum y) true true = Ok (Num.leb y (Fin a)).
Proof.
  intros Hy. unfold gt, gte, lt, lte. rewrite !init_num.
  do 4 eexists. repeat (split; [reflexivity|]).
  rewrite !contains_stored by (reflexivity || discriminate || assumption).
  rewrite !after_neg_inf, !before_pos_inf by assumption.
  rewrite !andb_true_r. cbn [andb]. unfold after, before.
  destruct y as [| |y|]; try discriminate Hy; cbn;
    repeat split; try reflexivity; qtri_all; reflexivity.
Qed.

Lemma half_line_factories_witness :
  exists ge, gte (int 3) = Ok ge /\ contains ge (int 3) true true = Ok true.
Proof.
  destruct (half_line_factories (inject_Z 3) (Fin (inject_Z 3)) eq_refl)
    as (g & ge & l & le & _ & Hge & _ & _ & _ & Hc & _).
  exists ge. split; [exact Hge | exact Hc].
Defined.

(** ** union and intersection in either order *)

Lemma ltb_compat (x x' y y' : num) :
  Num.eqb x x' = true -> Num.eqb y y' = true -> Num.ltb x y = Num.ltb x' y'.
Proof.
  destruct x, x', y, y'; try discriminate; try reflexivity.
  cbn. intros H1 H2. qprop.
  destruct (Qle_bool q1 q) eqn:E1, (Qle_bool q2 q0) eqn:E2; qprop;
    try reflexivity; exfalso; lra.
Qed.

Lemma eqb_compat_l (x x' y : num) :
  Num.eqb x x' = true -> Num.eqb y x = Num.eqb y x'.
Proof.
  intros H. destruct (Num.eqb y x) eqn:E1, (Num.eqb y x') eqn:E2;
    try reflexivity.
  - rewrite <- E2. symmetry. apply (Num_eqb_trans y x x'); assumption.
  - rewrite <- E1. apply (Num_eqb_trans y x' x); [exact E2|].
    rewrite Num_eqb_sym. exact H.
Qed.

(** The first smallest and the first largest of two numbers do not depend
    on their order, up to [==]. *)
Lemma first_min_comm (x y : num) :
  Num.isnan x = false -> Num.isnan y = false ->
  Num.eqb (if Num.ltb y x then y else x) (if Num.ltb x y then x else y) = true.
Proof.
  destruct x as [| |x|]; try discriminate;
    destruct y as [| |y|]; try discriminate;
    intros _ _; cbn; try reflexivity; qtri_all; reflexivity.
Qed.

Lemma first_max_comm (x y : num) :
  Num.isnan x = false -> Num.isnan y = false ->
  Num.eqb (if Num.gtb y x then y else x) (if Num.gtb x y then x else y) = true.
Proof.
  unfold Num.gtb.
  destruct x as [| |x|]; try discriminate;
    destruct y as [| |y|]; try discriminate;
    intros _ _; cbn; try reflexivity; qtri_all; reflexivity.
Qed.

(** [equals] on two results of the constructor for equal arguments. *)
Lemma equals_stored (x y x' y' : num) (so eo : bool) :
  Num.eqb x x' = true ->
  Num.eqb y y' = true ->
  equals (stored x y so eo) (OInterval (stored x' y' so eo)) = Ok true.
Proof.
  intros Hx Hy. unfold equals. cbn [parse bind].
  rewrite !stored_empty.
  assert (Hc : Num.eqb y' x' = Num.eqb y x).
  { apply eqb_compat; rewrite Num_eqb_sym; assumption. }
  rewrite Hc. unfold stored. rewrite Hc.
  destruct (Num.eqb y x && (eo || so)) eqn:Hkeep; [reflexivity|].
  cbn [andb start end_ start_open end_open Py.eq].
  rewrite Hx, Hy. rewrite (Num_eqb_sym x' y'), Hc, (Num_eqb_sym x y).
  rewrite <- (eqb_isinf _ _ Hx), <- (eqb_isinf _ _ Hy), !Bool.eqb_reflx.
  reflexivity.
Qed.

(** X18: for two non-empty intervals of numbers ([start <= end], infinite
    endpoints open), [union] and [intersection] do not depend on the order
    of the two operands, up to [equals]; and an empty operand is ignored by
    [union] and makes [intersection] empty. *)
Theorem union_intersection_commute (a b z : t) :
  proper a = true ->
  proper b = true ->
  is_empty z = true ->
  (exists u u',
      union (Many [OInterval a; OInterval b]) = Ok u
      /\ union (Many [OInterval b; OInterval a]) = Ok u'
      /\ equals u (OInterval u') = Ok true)
  /\ (exists n n',
      intersection (Many [OInterval a; OInterval b]) = Ok n
      /\ intersection (Many [OInterval b; OInterval a]) = Ok n'
      /\ equals n (OInterval n') = Ok true)
  /\ union (Many [OInterval a; OInterval z]) = Ok a
  /\ union (Many [OInterval z; OInterval a]) = Ok a
  /\ intersection (Many [OInterval a; OInterval z]) = Ok empty
  /\ intersection (Many [OInterval z; OInterval a]) = Ok empty.
Proof.
  intros Ha Hb Hz.
  pose proof (proper_not_empty a Ha) as Hna.
  pose proof (proper_not_empty b Hb) as Hnb.
  assert (Hempty :
    union (Many [OInterval a; OInterval z]) = Ok a
    /\ union (Many [OInterval z; OInterval a]) = Ok a
    /\ intersection (Many [OInterval a; OInterval z]) = Ok empty
    /\ intersection (Many [OInterval z; OInterval a]) = Ok empty).
  { unfold union, intersection.
    cbn [parse_many mapM parse bind List.filter existsb].
    rewrite Hna, Hz. repeat split. }
  destruct a as [[|sa] [|ea] soa eoa]; try discriminate Ha.
  destruct b as [[|sb] [|eb] sob eob]; try discriminate Hb.
  destruct (proper_fields _ _ _ _ Ha) as (Hlea & _).
  destruct (proper_fields _ _ _ _ Hb) as (Hleb & _).
  destruct (leb_not_nan _ _ Hlea) as [Nsa Nea].
  destruct (leb_not_nan _ _ Hleb) as [Nsb Neb].
  split; [|split; [|exact Hempty]].
  - rewrite (union_of_two _ _ _ _ _ _ _ _ Ha Hb).
    rewrite (union_of_two _ _ _ _ _ _ _ _ Hb Ha).
    do 2 eexists. split; [reflexivity|]. split; [reflexivity|].
    pose proof (first_min_comm sa sb Nsa Nsb) as Hs.
    pose proof (first_max_comm ea eb Nea Neb) as He.
    unfold equals. cbn [parse bind]. unfold is_empty at 1.
    cbn [start end_ start_open end_open Py.eq].
    rewrite (union_keeps _ _ _ _ _ _ _ _ Ha Hb). cbn [andb].
    rewrite Hs, He.
    rewrite (eqb_compat_l _ _ sa Hs), (eqb_compat_l _ _ sb Hs).
    rewrite (eqb_compat_l _ _ ea He), (eqb_compat_l _ _ eb He).
    cbn [andb]. f_equal.
    rewrite (andb_comm (negb (Num.eqb sa _) || soa)).
    rewrite (andb_comm (negb (Num.eqb ea _) || eoa)).
    rewrite !Bool.eqb_reflx. reflexivity.
  - rewrite (intersection_of_two sa ea sb eb soa eoa sob eob Hna Hnb).
    rewrite (intersection_of_two sb eb sa ea sob eob soa eoa Hnb Hna).
    pose proof (first_max_comm sa sb Nsa Nsb) as Hs.
    pose proof (first_min_comm ea eb Nea Neb) as He.
    unfold Num.gtb in *.
    rewrite (ltb_compat _ _ _ _ He Hs).
    destruct (Num.ltb (if Num.ltb ea eb then ea else eb)
                (if Num.ltb sb sa then sa else sb)).
    + exists empty, empty. repeat split.
    + do 2 eexists. split; [reflexivity|]. split; [reflexivity|].
      rewrite (eqb_compat_l _ _ sa Hs), (eqb_compat_l _ _ sb Hs).
      rewrite (eqb_compat_l _ _ ea He), (eqb_compat_l _ _ eb He).
      rewrite (orb_comm (Num.eqb sa _ && soa)).
      rewrite (orb_comm (Num.eqb ea _ && eoa)).
      apply equals_stored; assumption.
Qed.

Lemma union_intersection_commute_witness :
  exists u u',
    union (Many [OInterval (mk (int 0) (int 2) false false);
                 OInterval (mk (int 1) (int 3) true true)]) = Ok u
    /\ union (Many [OInterval (mk (int 1) (int 3) true true);
                    OInterval (mk (int 0) (int 2) false false)]) = Ok u'
    /\ equals u (OInterval u') = Ok true.
Proof.
  destruct (union_intersection_commute
              (mk (int 0) (int 2) false false) (mk (int 1) (int 3) true true)
              empty eq_refl eq_refl eq_refl) as (Hu & _).
  exact Hu.
Defined.

(** ** length, middle, pad *)






(** ** The sequence protocol *)

(** X21: an interval returned by [closed] is true as a condition, has two
    items, its start and its end, and [parse] of the list of its items
    builds it again. *)
Theorem closed_items_round_trip (s e : value) (r : t) :
  closed s e = Ok r ->
  __bool__ r = true
  /\ __len__ r = 2%Z
  /\ __iter__ r = [__getitem__ r 0; __getitem__ r 1]
  /\ __getitem__ r 0 = start r
  /\ __getitem__ r 1 = end_ r
  /\ parse (OSeq (__iter__ r)) false = Ok r.
Proof.
  unfold closed. intros Hr.
  assert (Hne : is_empty r = false).
  { revert r Hr. pattern (__init__ s e false false). apply init_cases.
    - intros x y r [= <-]. rewrite stored_empty. cbn.
      apply andb_false_r.
    - intros r [= <-]. reflexivity. }
  pose proof (init_again s e false false r Hr Hne) as Hagain.
  unfold __bool__, __len__, __iter__, __getitem__. rewrite Hne.
  repeat split. cbn. exact Hagain.
Qed.

Lemma closed_items_round_trip_witness :
  parse (OSeq (__iter__ (mk (int 1) (int 4) false false))) false
  = Ok (mk (int 1) (int 4) false false).
Proof.
  destruct (closed_items_round_trip (int 1) (int 4)
              (mk (int 1) (int 4) false false) eq_refl)
    as (_ & _ & _ & _ & _ & H).
  exact H.
Defined.

(** ** partition *)

Lemma numbers_length (xs : list Q) :
  List.length (numbers xs) = List.length xs.
Proof. apply length_map. Qed.

Lemma contained_numbers (s e : num) (so eo : bool) (xs : list Q) :
  proper (mk (VNum s) (VNum e) so eo) = true ->
  contained (mk (VNum s) (VNum e) so eo) (numbers xs)
  = Ok (numbers (List.filter
                   (fun q => after s so (Fin q) && before e eo (Fin q)) xs)).
Proof.
  intros Hi. induction xs as [|q xs IH]; [reflexivity|].
  cbn [numbers List.map contained List.filter].
  rewrite (contains_proper s e so eo (Fin q) Hi eq_refl).
  fold (numbers xs). rewrite IH. cbn [bind].
  destruct (after s so q && before e eo q); reflexivity.
Qed.

Lemma ascending_filter (f : Q -> bool) (xs : list Q) :
  ascending (List.map Fin xs) = true ->
  ascending (List.map Fin (List.filter f xs)) = true.
Proof.
  induction xs as [|q xs IH]; [reflexivity|].
  cbn [List.map ascending List.filter]. intros H.
  apply andb_prop in H as [H Hasc]. apply andb_prop in H as [Hqq Hall].
  destruct (f q); [|exact (IH Hasc)].
  cbn [List.map ascending]. rewrite Hqq, (IH Hasc), andb_true_r. cbn [andb].
  apply forallb_forall. intros x Hx.
  rewrite forallb_forall in Hall. apply Hall.
  apply in_map_iff in Hx as (r & <- & Hr). apply in_map.
  apply filter_In in Hr. apply Hr.
Qed.

Lemma getitem_numbers (pre post : list Q) (q : Q) :
  Py.getitem (numbers (pre ++ q :: post)) (Z.of_nat (List.length pre))
  = Ok (VNum (Fin q)).
Proof.
  unfold Py.getitem.
  destruct (Z.ltb_spec (Z.of_nat (List.length pre)) 0); [lia|].
  destruct (Z.ltb_spec (Z.of_nat (List.length pre)) 0); [lia|].
  rewrite Nat2Z.id. unfold numbers. rewrite nth_error_map.
  rewrite nth_error_app2 by lia. rewrite Nat.sub_diag. reflexivity.
Qed.

(** An empty interval contains nothing. *)
Lemma contains_empty (d : t) (v : value) :
  is_empty d = true -> contains d v true true = Ok false.
Proof.
  intros H. unfold contains. rewrite H, orb_true_r. reflexivity.
Qed.

(** A point the start admits is the start of a part of the interval. *)
Lemma after_covers (s : num) (so : bool) (q : Q) (so1 : bool) :
  after s so (Fin q) = true ->
  (Num.isinf s = true -> so = true) ->
  covers_start s so (Fin q) so1 = true.
Proof.
  unfold after, covers_start, Num.gtb.
  destruct s as [| |s|]; cbn; try discriminate.
  - intros _ _. reflexivity.
  - qtri_all; destruct so, so1; cbn; intros; try discriminate; reflexivity.
Qed.

Lemma leb_covers (p q : Q) (so1 : bool) :
  Num.leb (Fin p) (Fin q) = true ->
  covers_start (Fin p) so1 (Fin q) so1 = true.
Proof.
  unfold covers_start, Num.gtb. cbn.
  qtri_all; destruct so1; cbn; intros; try discriminate; reflexivity.
Qed.

Lemma covers_leb (p : num) (po : bool) (q : Q) (so1 : bool) :
  Num.isnan p = false ->
  covers_start p po (Fin q) so1 = true ->
  Num.leb p (Fin q) = true.
Proof.
  unfold covers_start, Num.gtb.
  destruct p as [| |p|]; cbn; try discriminate; try reflexivity.
  intros _. qtri_all; intros; try discriminate; reflexivity.
Qed.

Lemma before_leb (e : num) (eo : bool) (q : Q) :
  before e eo (Fin q) = true -> Num.leb (Fin q) e = true.
Proof.
  unfold before.
  destruct e as [| |e|]; cbn; try discriminate; try reflexivity.
  qtri_all; intros; try discriminate; reflexivity.
Qed.

Lemma before_mono (e : num) (eo : bool) (q : Q) (eo1 : bool) (y : num) :
  Num.isnan y = false ->
  before e eo (Fin q) = true ->
  before (Fin q) eo1 y = true ->
  before e eo y = true.
Proof.
  unfold before.
  destruct e as [| |e|]; try discriminate;
    destruct y as [| |y|]; try discriminate; intros _; cbn;
    try reflexivity; try discriminate;
    qtri_all; destruct eo, eo1; cbn; intros; try discriminate; reflexivity.
Qed.

(** A point [q] of the interval cuts it in two parts, and every number of
    the interval is in one of them. *)
Lemma cut_at_point (p e : num) (po eo eo1 : bool) (q : Q) (y : num) :
  Num.isnan p = false ->
  Num.isnan y = false ->
  (Num.isinf p = true -> po = true) ->
  covers_start p po (Fin q) (negb eo1) = true ->
  before e eo (Fin q) = true ->
  ((if after p po y && before (Fin q) eo1 y then 1 else 0)
   + (if after (Fin q) (negb eo1) y && before e eo y then 1 else 0)
   = (if after p po y && before e eo y then 1 else 0))%nat.
Proof.
  intros Hp Hy Hpo Hcov Hbef.
  pose proof (after_before_complement q (negb eo1) y Hy) as Hc.
  rewrite negb_involutive in Hc. rewrite Hc.
  destruct (after (Fin q) (negb eo1) y) eqn:Haft.
  - rewrite (covers_start_after p (Fin q) po (negb eo1) y Hp eq_refl Hy Hpo
               (fun H => False_ind _ (diff_false_true H)) Hcov Haft).
    cbn. reflexivity.
  - cbn [negb] in Hc.
    rewrite (before_mono e eo q eo1 y Hy Hbef Hc).
    rewrite !andb_true_r. cbn. lia.
Qed.

Lemma inside_stored (s e : num) (so eo : bool) (y : num) :
  Num.leb s e = true ->
  s <> PosInf ->
  e <> NegInf ->
  Num.isnan y = false ->
  inside (stored s e so eo) (VNum y) = after s so y && before e eo y.
Proof.
  intros Hle Hs He Hy. unfold inside.
  rewrite (contains_stored s e so eo y Hle Hs He Hy). reflexivity.
Qed.

(** What [partition] appends for one part. *)
Lemma containing_part (s e : num) (so eo : bool) (y : num) :
  Num.leb s e = true ->
  s <> PosInf ->
  e <> NegInf ->
  Num.isnan y = false ->
  let d := stored s e so eo in
  containing (if negb (is_empty d) then [d] else []) y
  = (if after s so y && before e eo y then 1 else 0)%nat.
Proof.
  intros Hle Hs He Hy d.
  pose proof (inside_stored s e so eo y Hle Hs He Hy) as Hin. fold d in Hin.
  destruct (is_empty d) eqn:Hd; unfold containing; cbn.
  - unfold inside in Hin. rewrite (contains_empty d _ Hd) in Hin.
    rewrite <- Hin. reflexivity.
  - rewrite Hin. destruct (after s so y && before e eo y); reflexivity.
Qed.

Lemma containing_app (ds ds' : list t) (y : num) :
  containing (ds ++ ds') y = (containing ds y + containing ds' y)%nat.
Proof.
  unfold containing. rewrite filter_app, length_app. reflexivity.
Qed.

(** One turn of the loop of [partition]. *)
Lemma partition_loop_step (self : t) (xs : list value) (len_xs i_last : Z)
      (so1 eo1 : bool) (i : Z) (range : list Z) (x xprev : value)
      (acc : list t) :
  partition_loop self xs len_xs i_last so1 eo1 (i :: range) x xprev acc
  = (x <- (if (i <=? i_last)%Z then Py.getitem xs i else Ok x) ;;
     d <- __init__ (if (i =? 0)%Z then start self else xprev)
                   (if (i =? len_xs)%Z then end_ self else x)
                   (if (i =? 0)%Z then start_open self else so1)
                   (if (i =? len_xs)%Z then end_open self else eo1) ;;
     partition_loop self xs len_xs i_last so1 eo1 range x x
       (if negb (is_empty d) then acc ++ [d] else acc)).
Proof. reflexivity. Qed.

Section PartitionLoop.

Variables (s e : num) (so eo eo1 : bool) (y : num).
Hypothesis Hy : Num.isnan y = false.
Hypothesis He : e <> NegInf.

Let self := mk (VNum s) (VNum e) so eo.

(** The loop of [partition] from index [length pre] on: [p] and [po] are the
    start and its flag for the next part. *)
Lemma partition_loop_parts (post : list Q) :
  forall (pre : list Q) (p : num) (po : bool) (x xprev : value)
         (acc : list t),
    (if (Z.of_nat (List.length pre) =? 0)%Z then VNum s else xprev) = VNum p ->
    (if (Z.of_nat (List.length pre) =? 0)%Z then so else negb eo1) = po ->
    Num.isnan p = false ->
    p <> PosInf ->
    (Num.isinf p = true -> po = true) ->
    Num.leb p e = true ->
    ascending (List.map Fin post) = true ->
    forallb (fun q => before e eo (Fin q)) post = true ->
    match post with
    | [] => True
    | q :: _ => covers_start p po (Fin q) (negb eo1) = true
    end ->
    exists ds,
      partition_loop self (numbers (pre ++ post))
        (Z.of_nat (List.length (pre ++ post)))
        (Z.of_nat (List.length (pre ++ post)) - 1) (negb eo1) eo1
        (List.map Z.of_nat (seq (List.length pre) (S (List.length post))))
        x xprev acc
      = Ok (acc ++ ds)
      /\ forallb (fun d => negb (is_empty d)) ds = true
      /\ containing ds y
         = (if after p po y && before e eo y then 1 else 0)%nat.
Proof.
  subst self.
  induction post as [|q post IH];
    intros pre p po x xprev acc Hp Hpo Np Pp Ip Hle Hasc Hbef Hcov.
  - rewrite app_nil_r. cbn [List.length seq List.map partition_loop].
    destruct (Z.leb_spec (Z.of_nat (List.length pre))
                (Z.of_nat (List.length pre) - 1)); [lia|].
    rewrite Z.eqb_refl. cbn [bind start end_ start_open end_open].
    rewrite Hp, Hpo, init_num. cbn [bind].
    exists (if negb (is_empty (stored p e po eo))
            then [stored p e po eo] else []).
    split; [|split].
    + destruct (is_empty (stored p e po eo)); cbn [negb];
        [rewrite app_nil_r|]; reflexivity.
    + destruct (is_empty (stored p e po eo)) eqn:E; cbn; [reflexivity|].
      rewrite E. reflexivity.
    + apply containing_part; assumption.
  - cbn [List.length]. rewrite <- cons_seq, map_cons, partition_loop_step.
    rewrite length_app. cbn [List.length].
    destruct (Z.leb_spec (Z.of_nat (List.length pre))
                (Z.of_nat (List.length pre + S (List.length post)) - 1));
      [|lia].
    rewrite getitem_numbers. cbn [bind].
    destruct (Z.eqb_spec (Z.of_nat (List.length pre))
                (Z.of_nat (List.length pre + S (List.length post))));
      [lia|].
    cbn [start end_ start_open end_open].
    rewrite Hp, Hpo, init_num. cbn [bind].
    cbn [forallb] in Hbef. apply andb_prop in Hbef as [Hq Hbef].
    cbn [List.map ascending] in Hasc.
    apply andb_prop in Hasc as [Hasc Hasc'].
    apply andb_prop in Hasc as [_ Hall].
    set (d := stored p q po eo1).
    set (acc' := if negb (is_empty d) then acc ++ [d] else acc).
    destruct (IH (pre ++ [q]) (Fin q) (negb eo1) (VNum (Fin q))
                (VNum (Fin q)) acc') as (ds & Hds & Hne & Hcount).
    + rewrite length_app. cbn [List.length].
      destruct (Z.eqb_spec (Z.of_nat (List.length pre + 1)) 0); [lia|].
      reflexivity.
    + rewrite length_app. cbn [List.length].
      destruct (Z.eqb_spec (Z.of_nat (List.length pre + 1)) 0); [lia|].
      reflexivity.
    + reflexivity.
    + discriminate.
    + discriminate.
    + exact (before_leb e eo q Hq).
    + exact Hasc'.
    + exact Hbef.
    + destruct post as [|q' post]; [exact I|].
      cbn [List.map forallb] in Hall. apply andb_prop in Hall as [Hqq' _].
      apply leb_covers. exact Hqq'.
    + rewrite <- app_assoc in Hds. cbn [app] in Hds.
      rewrite !length_app in Hds. cbn [List.length] in Hds.
      replace (List.length pre + 1)%nat with (S (List.length pre)) in Hds
        by lia.
      exists ((if negb (is_empty d) then [d] else []) ++ ds).
      split; [|split].
      * rewrite Hds. subst acc'.
        destruct (is_empty d); cbn [negb app];
          rewrite <- ?app_assoc; reflexivity.
      * rewrite forallb_app, Hne, andb_true_r.
        destruct (is_empty d) eqn:E; cbn; [reflexivity|].
        rewrite E. reflexivity.
      * rewrite containing_app, Hcount.
        subst d. rewrite containing_part; try assumption; try discriminate.
        -- apply cut_at_point; assumption.
        -- exact (covers_leb p po q (negb eo1) Np Hcov).
Qed.

End PartitionLoop.

(** X22: for a non-empty interval of numbers ([start <= end], infinite
    endpoints open) and finite points in ascending order, [partition]
    succeeds with any choice of the two flags, returns no empty interval,
    and every number the interval contains is in exactly one of the
    returned intervals, every other number in none. *)
Theorem partition_parts_once (i : t) (xs : list Q)
        (start_open0 end_open0 : option bool) (y : num) :
  proper i = true ->
  ascending (List.map Fin xs) = true ->
  Num.isnan y = false ->
  exists ds,
    partition i (numbers xs) start_open0 end_open0 = Ok ds
    /\ forallb (fun d => negb (is_empty d)) ds = true
    /\ containing ds y = (if inside i (VNum y) then 1 else 0)%nat.
Proof.
  intros Hi Hasc Hy.
  pose proof (proper_not_empty i Hi) as Hne.
  destruct i as [[|s] [|e] so eo]; try discriminate Hi.
  destruct (proper_fields _ _ _ _ Hi) as (Hle & _ & Hso & _).
  destruct (proper_sides _ _ _ _ Hi) as [Hs He].
  destruct (leb_not_nan _ _ Hle) as [Ns _].
  unfold partition. rewrite (contained_numbers s e so eo xs Hi).
  cbn [bind]. unfold inside.
  rewrite (contains_proper s e so eo y Hi Hy).
  set (f := fun q : Q => after s so (Fin q) && before e eo (Fin q)).
  pose proof (ascending_filter f xs Hasc) as Hasc'.
  assert (Hf : forall q, In q (List.filter f xs) -> f q = true)
    by (intros q Hq; apply filter_In in Hq; apply Hq).
  destruct (List.filter f xs) as [|q qs] eqn:Hqs.
  - cbn. exists [mk (VNum s) (VNum e) so eo]. split; [reflexivity|].
    split; [cbn; rewrite Hne; reflexivity|].
    unfold containing, inside. cbn [List.filter].
    rewrite (contains_proper s e so eo y Hi Hy).
    destruct (after s so y && before e eo y); reflexivity.
  - assert (Hlen : (Z.of_nat (List.length (numbers (q :: qs))) =? 0)%Z
                   = false)
      by (cbn [numbers List.map List.length];
          destruct (Z.eqb_spec (Z.of_nat (S (List.length (numbers qs)))) 0);
          [lia|reflexivity]).
    rewrite Hlen.
    assert (Hloop : forall eo1,
      exists ds,
        partition_loop (mk (VNum s) (VNum e) so eo) (numbers (q :: qs))
          (Z.of_nat (List.length (numbers (q :: qs))))
          (Z.of_nat (List.length (numbers (q :: qs))) - 1) (negb eo1) eo1
          (List.map Z.of_nat (seq 0 (S (List.length (numbers (q :: qs))))))
          VNone VNone []
        = Ok ds
        /\ forallb (fun d => negb (is_empty d)) ds = true
        /\ containing ds y
           = (if after s so y && before e eo y then 1 else 0)%nat).
    { intros eo1. rewrite !numbers_length.
      apply (partition_loop_parts s e so eo eo1 y Hy He (q :: qs) [] s so
               VNone VNone []); try assumption; try reflexivity.
      - apply forallb_forall. intros r Hr. specialize (Hf r Hr).
        unfold f in Hf. apply andb_prop in Hf. apply Hf.
      - apply after_covers; [|exact Hso].
        specialize (Hf q (or_introl eq_refl)).
        unfold f in Hf. apply andb_prop in Hf. apply Hf. }
    destruct end_open0 as [eo1|]; [exact (Hloop eo1)|].
    destruct start_open0 as [so1|];
      [|exact (Hloop true)].
    specialize (Hloop (negb so1)). rewrite negb_involutive in Hloop.
    exact Hloop.
Qed.

Lemma partition_parts_once_witness :
  exists ds,
    partition (mk (int 0) (int 9) false false)
              (numbers [inject_Z 3; inject_Z 6]) None None = Ok ds
    /\ forallb (fun d => negb (is_empty d)) ds = true
    /\ containing ds (Fin (inject_Z 3)) = 1%nat.
Proof.
  exact (partition_parts_once (mk (int 0) (int 9) false false)
           [inject_Z 3; inject_Z 6] None None (Fin (inject_Z 3))
           eq_refl eq_refl eq_refl).
Defined.

(** ** map, round *)

Section Increasing.

Variable f : Q -> Q.
Hypothesis Hmono : forall p q : Q, (p < q)%Q -> (f p < f q)%Q.
Hypothesis Hcompat : forall p q : Q, (p == q)%Q -> (f p == f q)%Q.

Lemma ltb_increasing (p q : Q) :
  Num.ltb (Fin (f p)) (Fin (f q)) = Num.ltb (Fin p) (Fin q).
Proof.
  cbn.
  destruct (Q_dec p q) as [[H|H]|H];
    [pose proof (Hmono _ _ H) | pose proof (Hmono _ _ H)
     | pose proof (Hcompat _ _ H)];
    qtri_all; reflexivity.
Qed.

Lemma eqb_increasing (p q : Q) :
  Num.eqb (Fin (f p)) (Fin (f q)) = Num.eqb (Fin p) (Fin q).
Proof.
  cbn.
  destruct (Q_dec p q) as [[H|H]|H];
    [pose proof (Hmono _ _ H) | pose proof (Hmono _ _ H)
     | pose proof (Hcompat _ _ H)];
    qtri_all; reflexivity.
Qed.

Lemma leb_increasing (p q : Q) :
  Num.leb (Fin (f p)) (Fin (f q)) = Num.leb (Fin p) (Fin q).
Proof.
  cbn.
  destruct (Q_dec p q) as [[H|H]|H];
    [pose proof (Hmono _ _ H) | pose proof (Hmono _ _ H)
     | pose proof (Hcompat _ _ H)];
    qtri_all; reflexivity.
Qed.

Lemma proper_increasing (s e : Q) (so eo : bool) :
  proper (mk (VNum (Fin s)) (VNum (Fin e)) so eo) = true ->
  proper (mk (VNum (Fin (f s))) (VNum (Fin (f e))) so eo) = true.
Proof.
  unfold proper, is_empty.
  cbn [start end_ start_open end_open Py.eq Num.isinf].
  rewrite leb_increasing, eqb_increasing. exact (fun H => H).
Qed.

Lemma map_increasing_contains (s e : Q) (so eo : bool) (y : Q) :
  proper (mk (VNum (Fin s)) (VNum (Fin e)) so eo) = true ->
  exists r,
    map (mk (VNum (Fin s)) (VNum (Fin e)) so eo) (on_numbers f) = Ok r
    /\ proper r = true
    /\ contains r (VNum (Fin (f y))) true true
       = contains (mk (VNum (Fin s)) (VNum (Fin e)) so eo)
                  (VNum (Fin y)) true true.
Proof.
  intros Hi. pose proof (proper_increasing s e so eo Hi) as Hr.
  unfold map. cbn [start end_ start_open end_open on_numbers bind].
  rewrite init_num.
  rewrite (stored_same _ _ _ _ so eo Hr
             (eqb_refl_num (Fin (f s)) eq_refl)
             (eqb_refl_num (Fin (f e)) eq_refl)).
  eexists. split; [reflexivity|]. split; [exact Hr|].
  rewrite (contains_proper _ _ _ _ (Fin y) Hi eq_refl).
  rewrite (contains_proper _ _ _ _ (Fin (f y)) Hr eq_refl).
  unfold after, before. rewrite !ltb_increasing, !eqb_increasing.
  reflexivity.
Qed.

End Increasing.

(** X23: [map] by a strictly increasing function of the finite numbers
    sends a non-empty interval with finite endpoints [s <= e] to a non-empty
    interval with the same flags that contains [f(y)] exactly when the
    interval contains [y]. *)
Theorem map_increasing (s e : Q) (so eo : bool) (f : Q -> Q) (y : Q) :
  proper (mk (VNum (Fin s)) (VNum (Fin e)) so eo) = true ->
  (forall p q : Q, (p < q)%Q -> (f p < f q)%Q) ->
  (forall p q : Q, (p == q)%Q -> (f p == f q)%Q) ->
  exists r,
    map (mk (VNum (Fin s)) (VNum (Fin e)) so eo) (on_numbers f) = Ok r
    /\ proper r = true
    /\ start_open r = so /\ end_open r = eo
    /\ contains r (VNum (Fin (f y))) true true
       = contains (mk (VNum (Fin s)) (VNum (Fin e)) so eo)
                  (VNum (Fin y)) true true.
Proof.
  intros Hi Hmono Hcompat.
  pose proof (proper_increasing f Hmono Hcompat s e so eo Hi) as Hr.
  destruct (map_increasing_contains f Hmono Hcompat s e so eo y Hi)
    as (r & Hmap & Hp & Hc).
  exists r. split; [exact Hmap|]. split; [exact Hp|].
  unfold map in Hmap.
  cbn [start end_ start_open end_open on_numbers bind] in Hmap.
  rewrite init_num in Hmap.
  rewrite (stored_same _ _ _ _ so eo Hr
             (eqb_refl_num (Fin (f s)) eq_refl)
             (eqb_refl_num (Fin (f e)) eq_refl)) in Hmap.
  injection Hmap as <-. repeat split. exact Hc.
Qed.

Lemma map_increasing_witness :
  exists r,
    map (mk (int 1) (int 4) true false)
        (on_numbers (fun q => q + q)%Q) = Ok r
    /\ proper r = true.
Proof.
  destruct (map_increasing (inject_Z 1) (inject_Z 4) true false
              (fun q => q + q)%Q (inject_Z 2) eq_refl)
    as (r & H1 & H2 & _).
  - intros p q H. lra.
  - intros p q H. lra.
  - exists r. split; assumption.
Defined.

(** X24: rounding a non-empty interval of numbers ([start <= end], infinite
    endpoints open) with a method that leaves its own results unchanged
    succeeds, does not pass an infinite endpoint to the method, and gives an
    interval that rounding leaves as it is. *)
Theorem round_idempotent (i : t) (m : Q -> Q) :
  proper i = true ->
  (forall q, m (m q) = m q) ->
  exists r,
    round i (on_numbers m) = Ok r
    /\ round r (on_numbers m) = Ok r.
Proof.
  intros Hi Hm.
  pose proof (proper_not_empty i Hi) as Hne.
  destruct i as [[|s] [|e] so eo]; try discriminate Hi.
  destruct (proper_fields _ _ _ _ Hi) as (Hle & Hkeep & Hso & Heo).
  unfold round at 1. rewrite Hne.
  unfold is_negative_infinite, is_positive_infinite, Py.ne.
  destruct s as [| |s|]; try discriminate Hle;
    destruct e as [| |e|]; try discriminate Hle;
    try (specialize (Hso eq_refl); subst so);
    try (specialize (Heo eq_refl); subst eo);
    try discriminate Hkeep.
  - destruct eo; cbn -[__init__]; (eexists; split; [apply init_num|]);
      unfold stored, round, is_empty, is_negative_infinite,
        is_positive_infinite, Py.ne;
      cbn -[__init__]; rewrite Hm, init_num; reflexivity.
  - cbn -[__init__]. eexists. split; [apply init_num|]. reflexivity.
  - assert (Hn : (if negb (Py.eq (VNum (Fin s)) (VNum (Fin e)))
                  then Py.isinf (VNum (Fin s)) else Ok false) = Ok false)
      by (destruct (negb _); reflexivity).
    assert (Hp : (if negb (Py.eq (VNum (Fin s)) (VNum (Fin e)))
                  then Py.isinf (VNum (Fin e)) else Ok false) = Ok false)
      by (destruct (negb _); reflexivity).
    cbn [start end_ start_open end_open]. rewrite Hn, Hp.
    cbn -[__init__]. eexists. split; [apply init_num|].
    unfold stored, round, is_empty, is_negative_infinite,
      is_positive_infinite, Py.ne.
    cbn -[__init__].
    qtri (m e) (m s); cbn -[__init__];
      destruct so, eo; cbn -[__init__]; try reflexivity;
      rewrite ?Hm; qtri (m e) (m s); cbn -[__init__]; try reflexivity;
      rewrite init_num; unfold stored; cbn;
      qtri_all; reflexivity.
  - destruct so; cbn -[__init__]; (eexists; split; [apply init_num|]);
      unfold stored, round, is_empty, is_negative_infinite,
        is_positive_infinite, Py.ne;
      cbn -[__init__]; rewrite Hm, init_num; reflexivity.
Qed.

Lemma round_idempotent_witness :
  exists r,
    round (mk (int 1) (int 4) true false)
          (on_numbers (fun q => inject_Z (Qfloor q))) = Ok r
    /\ round r (on_numbers (fun q => inject_Z (Qfloor q))) = Ok r.
Proof.
  apply (round_idempotent (mk (int 1) (int 4) true false)
           (fun q => inject_Z (Qfloor q)) eq_refl).
  intros q. rewrite Qfloor_Z. reflexivity.
Defined.
